(** * Hoymiles DTU transport layer (tools/rpi/hoymiles): a shallow embedding

    The development follows [tools/rpi/hoymiles/__init__.py] and
    [tools/rpi/hoymiles/decoders/__init__.py]: python [bytes] are lists of
    integers in [0, 256), python exceptions are values of [exc], fallible
    code returns [res], and the code of [InverterTransaction] runs in a
    state-and-exception monad over the interpreter state it mutates (the
    class attribute [tx_queue] and the list objects behind [scratch]). *)

From Stdlib Require Import ZArith List Lia Bool String Ascii DecimalString.
From Stdlib Require Import Floats.PrimFloat Uint63.
From stdpp Require Import base list gmap.

Set Warnings "-inexact-float".
Local Open Scope Z_scope.

(** ** Python values the code handles *)

Definition bytes := list Z.

Definition is_byte (b : Z) : Prop := 0 <= b < 256.

(** Exceptions, by class; the payload keeps what the message interpolates. *)
Inductive buffer_msg :=
| FrameKaputt                      (* 'Frame kaputt' *)
| MissingPacket (n_scratch : nat)  (* 'Missing packet: Last packet {len(self.scratch)}' *)
| FrameMissing (frame_id : Z).     (* 'Frame {frame_id} missing: Request Retransmit' *)

Inductive value_msg :=
| PayloadFailedCrc                 (* 'Payload failed CRC check.' *)
| MaxEmptySequence                 (* max() arg is an empty sequence *)
| InvalidLiteral                   (* invalid literal for int() with base 16 *)
| FragmentExceedsMtu (n : nat)     (* 'ESB fragment exeeds mtu: ...' *)
| InvalidAddressLength (n : nat)   (* 'Set invalid ... address legth ...' *)
| NoInverterSerial                 (* 'Inverter serial while decoding response' *)
| RangeStepZero.                   (* range() arg 3 must not be zero *)

Inductive exc :=
| StructError
| IndexError
| OverflowError
| TypeError
| NotImplementedError
| BufferError (m : buffer_msg)
| ValueError (m : value_msg).

Inductive res (A : Type) :=
| Ok (a : A)
| Raise (e : exc).
Arguments Ok {A} a.
Arguments Raise {A} e.

Definition rbind {A B} (r : res A) (k : A -> res B) : res B :=
  match r with
  | Ok a => k a
  | Raise e => Raise e
  end.

Declare Scope res_scope.
Delimit Scope res_scope with res.
Notation "x <-! r ; k" := (rbind r (fun x => k))
  (at level 100, r at next level, right associativity) : res_scope.

(** ** Slices (python semantics for the constant bounds the code uses) *)

Section Slices.
Context {A : Type}.

(** [l[a:b]] for [0 <= a], [0 <= b]. *)
Definition slice (a b : nat) (l : list A) : list A := take (b - a) (drop a l).
(** [l[:-k]] *)
Definition but_last (k : nat) (l : list A) : list A := take (length l - k) l.
(** [l[-k:]] for [k > 0] *)
Definition last_n (k : nat) (l : list A) : list A := drop (length l - k) l.
(** [l[a:-k]] *)
Definition slice_to_last (a k : nat) (l : list A) : list A := drop a (but_last k l).
End Slices.

(** ** struct.pack / struct.unpack for the formats in use *)

Definition pack_B (z : Z) : res bytes :=
  if (0 <=? z) && (z <=? 0xFF) then Ok [z] else Raise StructError.

Definition pack_H (z : Z) : res bytes :=
  if (0 <=? z) && (z <=? 0xFFFF) then Ok [z / 256; z mod 256] else Raise StructError.

Definition pack_L (z : Z) : res bytes :=
  if (0 <=? z) && (z <=? 0xFFFFFFFF)
  then Ok [z / 16777216; (z / 65536) mod 256; (z / 256) mod 256; z mod 256]
  else Raise StructError.

Definition unpack_B (b : bytes) : res Z :=
  match b with
  | [x] => Ok x
  | _ => Raise StructError
  end.

Definition unpack_H (b : bytes) : res Z :=
  match b with
  | [x1; x0] => Ok (x1 * 256 + x0)
  | _ => Raise StructError
  end.

Definition unpack_L (b : bytes) : res Z :=
  match b with
  | [x3; x2; x1; x0] => Ok (((x3 * 256 + x2) * 256 + x1) * 256 + x0)
  | _ => Raise StructError
  end.

(** [int.to_bytes(1, 'big')] *)
Definition to_bytes_1 (z : Z) : res bytes :=
  if (0 <=? z) && (z <=? 0xFF) then Ok [z] else Raise OverflowError.

(** ** The two checksums

    [crcmod] is an external library; its functions are modelled by the
    bit-serial form of the reflected CRC that its tables are generated
    from ([_bytecrc_r]): [mkCrcFun(0x101, initCrc=0, xorOut=0)] has
    [rev=True], so the 8-bit polynomial [0x01] is used bit-reversed
    ([0x80]); the predefined 'modbus' function is the reflected
    [0x8005] ([0xA001]) started at [0xFFFF]. *)

Definition crc_bit (poly crc : Z) : Z :=
  if Z.testbit crc 0 then Z.lxor (Z.shiftr crc 1) poly else Z.shiftr crc 1.

Definition crc_byte (poly crc b : Z) : Z :=
  Nat.iter 8 (crc_bit poly) (Z.lxor crc b).

Definition crc_reflected (poly init : Z) (data : bytes) : Z :=
  fold_left (crc_byte poly) data init.

Definition f_crc_m : bytes -> Z := crc_reflected 0xA001 0xFFFF.
Definition f_crc8 : bytes -> Z := crc_reflected 0x80 0.

(** The frames logged in [tools/rpi/test.py]. *)
Definition log_tx : bytes :=
  [0x15; 0x72; 0x22; 0x01; 0x43; 0x78; 0x56; 0x34; 0x12; 0x80; 0x0b; 0x00; 0x62;
   0x6e; 0x60; 0xee; 0x00; 0x00; 0x00; 0x05; 0x00; 0x00; 0x00; 0x00; 0x7e; 0x58; 0x25].
Definition log_rx1 : bytes :=
  [0x95; 0x72; 0x22; 0x01; 0x43; 0x72; 0x22; 0x01; 0x43; 0x01; 0x00; 0x01; 0x01;
   0x4e; 0x00; 0x9d; 0x02; 0x0a; 0x01; 0x50; 0x00; 0x9d; 0x02; 0x10; 0x00; 0x00; 0x91].
Definition log_rx2 : bytes :=
  [0x95; 0x72; 0x22; 0x01; 0x43; 0x72; 0x22; 0x01; 0x43; 0x02; 0x88; 0x1f; 0x00;
   0x00; 0x7f; 0x08; 0x00; 0x94; 0x00; 0x97; 0x08; 0xe2; 0x13; 0x89; 0x03; 0xeb; 0xec].
Definition log_rx3 : bytes :=
  [0x95; 0x72; 0x22; 0x01; 0x43; 0x72; 0x22; 0x01; 0x43; 0x83; 0x00; 0x01; 0x00;
   0x2c; 0x03; 0xe8; 0x00; 0xd8; 0x00; 0x06; 0x0c; 0x35; 0x37].


(** ** Serial numbers and the address codec *)

(** A serial is passed as an [int] by the front-ends, is annotated [str],
    and defaults to [None]. *)
Inductive serial :=
| SerNone
| SerInt (n : Z)
| SerStr (s : string).

(** [str(ser)] *)
Definition py_str (ser : serial) : string :=
  match ser with
  | SerNone => "None"
  | SerInt n => DecimalString.NilZero.string_of_int (Z.to_int n)
  | SerStr s => s
  end.

(** truth value of a serial: [None], [0] and [''] are false *)
Definition ser_truthy (ser : serial) : bool :=
  match ser with
  | SerNone => false
  | SerInt n => negb (n =? 0)
  | SerStr s => negb (String.eqb s "")
  end.

(** The characters that [int] strips from both ends of a [str] whose
    code points are below 256: tab to carriage return and the space, and
    the two such characters above 127 that are white space (U+0085,
    U+00A0), which [int] turns into a space first. The separators
    [0x1c] to [0x1f] are kept and make the literal invalid. *)
Definition is_space (c : ascii) : bool :=
  let n := N_of_ascii c in
  (((9 <=? n) && (n <=? 13)) || (n =? 32) || (n =? 133) || (n =? 160))%N.

Definition hex_digit_val (c : ascii) : option Z :=
  let n := Z.of_N (N_of_ascii c) in
  if (48 <=? n) && (n <=? 57) then Some (n - 48)
  else if (97 <=? n) && (n <=? 102) then Some (n - 87)
  else if (65 <=? n) && (n <=? 70) then Some (n - 55)
  else None.

(** Hexadecimal digits, single underscores allowed between digits. *)
Fixpoint hex_digits (acc : Z) (prev_digit : bool) (cs : list ascii) : option Z :=
  match cs with
  | [] => if prev_digit then Some acc else None
  | c :: cs' =>
      if Ascii.eqb c "_"
      then (if prev_digit then hex_digits acc false cs' else None)
      else match hex_digit_val c with
           | Some d => hex_digits (16 * acc + d) true cs'
           | None => None
           end
  end.

Fixpoint drop_spaces (cs : list ascii) : list ascii :=
  match cs with
  | c :: cs' => if is_space c then drop_spaces cs' else cs
  | [] => []
  end.

(** [int(s, base=16)] on a string of characters below 256: surrounding
    white space, a sign and a [0x] prefix (with one underscore after it)
    are accepted. *)
Definition py_int16 (s : string) : res Z :=
  let cs := rev (drop_spaces (rev (drop_spaces (list_ascii_of_string s)))) in
  let '(neg, cs) :=
    match cs with
    | c :: cs' => if Ascii.eqb c "-" then (true, cs')
                  else if Ascii.eqb c "+" then (false, cs') else (false, cs)
    | [] => (false, cs)
    end in
  let cs :=
    match cs with
    | z :: x :: cs' =>
        if Ascii.eqb z "0" && (Ascii.eqb x "x" || Ascii.eqb x "X")
        then match cs' with
             | u :: cs'' => if Ascii.eqb u "_" then cs'' else cs'
             | [] => cs'
             end
        else cs
    | _ => cs
    end in
  match hex_digits 0 false cs with
  | Some v => Ok (if neg then - v else v)
  | None => Raise (ValueError InvalidLiteral)
  end.

Definition ser_to_hm_addr (inverter_ser : serial) : res bytes :=
  (bcd <-! py_int16 (string_of_list_ascii (last_n 8 (list_ascii_of_string (py_str inverter_ser))));
   pack_L bcd)%res.

Definition ser_to_esb_addr (inverter_ser : serial) : res bytes :=
  (hm <-! ser_to_hm_addr inverter_ser;
   let air_order := rev hm ++ [0x01] in
   Ok (rev air_order))%res.

(** ** ESB fragments as received: class [InverterPacketFragment] *)

Module InverterPacketFragment.

Record t := mk {
  time_rx : Z;
  frame : bytes;
  ch_rx : option Z;
  ch_tx : option Z
}.

(** [__init__]; [now] is what [datetime.now()] returns. *)
Definition init (now : Z) (time_rx : option Z) (payload : bytes)
    (ch_rx ch_tx : option Z) : res t :=
  let time_rx := match time_rx with Some tm => tm | None => now end in
  let crc := f_crc8 (but_last 1 payload) in
  match last payload with
  | None => Raise IndexError
  | Some trailer =>
      if negb (crc =? trailer) then Raise (BufferError FrameKaputt)
      else Ok (mk time_rx payload ch_rx ch_tx)
  end.

Definition main_cmd (self : t) : res Z :=
  match frame self with
  | b :: _ => Ok b
  | [] => Raise IndexError
  end.

Definition src (self : t) : res Z := unpack_L (slice 1 5 (frame self)).

Definition dst (self : t) : res Z := unpack_L (slice 5 8 (frame self)).

Definition seq (self : t) : res Z := unpack_B (slice 9 10 (frame self)).

Definition data (self : t) : bytes := slice_to_last 10 1 (frame self).

End InverterPacketFragment.

(** ** Building requests: [compose_esb_fragment], [ESBFrame], [RequestFactory] *)

Definition frame_payload (payload : bytes) : res bytes :=
  (crc <-! pack_H (f_crc_m payload); Ok (payload ++ crc))%res.

Definition compose_esb_fragment (fragment maincmd subcmd : bytes) (src dst : serial)
    : res bytes :=
  if (17 <? length fragment)%nat then Raise (ValueError (FragmentExceedsMtu (length fragment)))
  else
    (let packet := [] ++ maincmd in
     a_dst <-! ser_to_hm_addr dst;
     let packet := packet ++ a_dst in
     a_src <-! ser_to_hm_addr src;
     let packet := packet ++ a_src in
     let packet := packet ++ subcmd in
     let packet := packet ++ fragment in
     crc8 <-! pack_B (f_crc8 packet);
     Ok (packet ++ crc8))%res.

(** [range(start, stop, step)] for [step > 0] *)
Definition py_range (start stop step : nat) : list nat :=
  map (fun k => (start + k * step)%nat) (seq 0 ((stop - start + step - 1) / step)).

Module ESBFrame.

Record t := mk {
  l_addr : nat;
  preamble : bytes;
  target : bytes;
  source : bytes;
  payload : bytes
}.

(** [__init__] with the keywords [RequestFactory] passes:
    [preamble] is accepted and not read, so the class default stays. *)
Definition init (preamble_kw source_kw target_kw payload_kw : bytes) : res t :=
  let l_addr := 4%nat in
  if negb (length source_kw =? l_addr)%nat
  then Raise (ValueError (InvalidAddressLength (length source_kw)))
  else if negb (length target_kw =? l_addr)%nat
  then Raise (ValueError (InvalidAddressLength (length target_kw)))
  else Ok (mk l_addr [0x15] target_kw source_kw payload_kw).

Definition packet (self : t) : bytes :=
  preamble self ++ target self ++ source self ++ payload self.

Definition crc (self : t) : res bytes := pack_B (f_crc8 (packet self)).

(** [__bytes__] *)
Definition to_bytes (self : t) : res bytes :=
  (c <-! crc self; Ok (packet self ++ c))%res.

End ESBFrame.

Module RequestFactory.

Record t := mk {
  _maincmd : bytes;
  _source : bytes;
  _target : bytes;
  _subcmd : bytes;
  _payload : bytes;
  _mtu : nat
}.

(** [__init__] with [payload] and the optional keywords
    [dtu_ser], [inverter_ser] and [maincmd]. *)
Definition init (payload : bytes) (dtu_ser inverter_ser : option serial)
    (maincmd : option bytes) : res t :=
  (source <-! match dtu_ser with
              | Some s => ser_to_hm_addr s
              | None => Ok [0x00; 0x00; 0x00; 0x00]
              end;
   target <-! match inverter_ser with
              | Some s => ser_to_hm_addr s
              | None => Ok [0x00; 0x00; 0x00; 0x00]
              end;
   let maincmd := match maincmd with Some m => m | None => [0x15] end in
   Ok (mk maincmd source target [] payload 16))%res.

Definition crc (self : t) : res bytes := pack_H (f_crc_m (_payload self)).

(** The body of the [for] loop of [__iter__], over the remaining values
    of [i_base]; the frames are collected in the order they are yielded. *)
Fixpoint iter_loop (self : t) (payload : bytes) (bases : list nat) (n_frame : Z)
    : res (list ESBFrame.t) :=
  match bases with
  | [] => Ok []
  | i_base :: bases' =>
      let n_frame := n_frame + 0x01 in
      let n_frame :=
        if (length payload <=? i_base + _mtu self)%nat then n_frame + 0x80 else n_frame in
      (subcmd <-! pack_B n_frame;
       fr <-! ESBFrame.init (_maincmd self) (_source self) (_target self)
                (subcmd ++ slice i_base (i_base + _mtu self) payload);
       frs <-! iter_loop self payload bases' n_frame;
       Ok (fr :: frs))%res
  end.

(** [list(iter(self))] *)
Definition iter (self : t) : res (list ESBFrame.t) :=
  (c <-! crc self;
   let payload := _payload self ++ c in
   let l_payload := length payload in
   iter_loop self payload (py_range 0 l_payload (_mtu self)) 0x00)%res.

End RequestFactory.

(** ** The radio: class [HoymilesNRF]

    The nRF24 driver behind [self.radio] is an external collaborator; what
    is modelled is the state the class itself keeps and the control flow of
    one iteration of the receive loop. What [available_pipe] and the clock
    return is an input: [receive] takes the polls made before the deadline,
    each with the time read at it. *)

Module HoymilesNRF.

Record t := mk {
  tx_channel_id : nat;
  tx_channel_list : list Z;
  rx_channel_id : nat;
  rx_channel_list : list Z;
  rx_channel_ack : bool;
  rx_error : Z;
  txpower : string
}.

(** the class attributes *)
Definition class_defaults : t := mk 0 [40] 0 [3; 23; 40; 61; 75] false 0 "max".

Definition set_rx (id : nat) (ack : bool) (err : Z) (self : t) : t :=
  mk (tx_channel_id self) (tx_channel_list self) id (rx_channel_list self) ack err
     (txpower self).

Definition tx_channel (self : t) : res Z :=
  match tx_channel_list self !! tx_channel_id self with
  | Some c => Ok c
  | None => Raise IndexError
  end.

Definition rx_channel (self : t) : res Z :=
  match rx_channel_list self !! rx_channel_id self with
  | Some c => Ok c
  | None => Raise IndexError
  end.

Definition next_rx_channel (self : t) : bool * t :=
  if negb (rx_channel_ack self) then
    let id := (rx_channel_id self + 1)%nat in
    let id := if (length (rx_channel_list self) <=? id)%nat then 0%nat else id in
    (true, set_rx id (rx_channel_ack self) (rx_error self) self)
  else (false, self).

(** [transmit]: the driver calls apart, it reads [self.tx_channel]. *)
Definition transmit (self : t) (packet : bytes) : res unit :=
  (_ <-! tx_channel self; Ok tt)%res.

(** One iteration of the [while] loop of [receive]: [poll] is the
    payload read when [available_pipe] reports one. The result is the
    fragment yielded, if any. *)
Definition receive_poll (self : t) (now : Z) (poll : option bytes)
    : res (option InverterPacketFragment.t) * t :=
  match poll with
  | Some payload =>
      let self := set_rx (rx_channel_id self) true 0 self in
      ((ch_rx <-! rx_channel self;
        ch_tx <-! tx_channel self;
        fragment <-! InverterPacketFragment.init now (Some now) payload
                       (Some ch_rx) (Some ch_tx);
        Ok (Some fragment))%res, self)
  | None =>
      let self := set_rx (rx_channel_id self) (rx_channel_ack self)
                    (rx_error self + 1) self in
      let self := if 1 <? rx_error self
                  then set_rx (rx_channel_id self) false (rx_error self) self
                  else self in
      let '(hop, self) := next_rx_channel self in
      if hop then ((_ <-! rx_channel self; Ok None)%res, self)
      else (Ok None, self)
  end.

Fixpoint receive_loop (self : t) (polls : list (Z * option bytes))
    : list InverterPacketFragment.t * option exc * t :=
  match polls with
  | [] => ([], None, self)
  | (now, poll) :: polls' =>
      match receive_poll self now poll with
      | (Raise e, self) => ([], Some e, self)
      | (Ok yielded, self) =>
          let '(fragments, e, self) := receive_loop self polls' in
          (match yielded with
           | Some fragment => fragment :: fragments
           | None => fragments
           end, e, self)
      end
  end.

(** [receive]: the fragments yielded, in order, the exception that ended
    the generator, if one did, and the radio object afterwards. *)
Definition receive (self : t) (polls : list (Z * option bytes))
    : list InverterPacketFragment.t * option exc * t :=
  match rx_channel self with
  | Raise e => ([], Some e, self)
  | Ok _ => receive_loop self polls
  end.

End HoymilesNRF.

(** ** The interpreter state the transactions share

    [tx_queue = []] in the body of [class InverterTransaction] makes one
    list object, an attribute of the class: no method assigns
    [self.tx_queue], so every instance reads and mutates that list.
    [self.scratch] is assigned in [__init__] and refers to a list object
    of the heap [lists]. [nrf] is the radio object the transactions refer
    to. *)

Definition loc := nat.

Record World := mkWorld {
  tx_queue : list bytes;
  lists : gmap loc (list InverterPacketFragment.t);
  nrf : HoymilesNRF.t
}.

Definition M (A : Type) : Type := World -> res A * World.

Definition mret {A} (a : A) : M A := fun w => (Ok a, w).

Definition mbind {A B} (m : M A) (k : A -> M B) : M B := fun w =>
  match m w with
  | (Ok a, w') => k a w'
  | (Raise e, w') => (Raise e, w')
  end.

Definition lift {A} (r : res A) : M A := fun w => (r, w).

Declare Scope world_scope.
Delimit Scope world_scope with M.
Notation "x <-- m ;; k" := (mbind m (fun x => k))
  (at level 100, m at next level, right associativity) : world_scope.

(** the list object at [l] *)
Definition read_list (w : World) (l : loc) : list InverterPacketFragment.t :=
  default [] (lists w !! l).

Definition set_tx_queue (q : list bytes) (w : World) : World :=
  mkWorld q (lists w) (nrf w).
Definition set_list (l : loc) (fs : list InverterPacketFragment.t) (w : World) : World :=
  mkWorld (tx_queue w) (<[l := fs]> (lists w)) (nrf w).
Definition set_nrf (r : HoymilesNRF.t) (w : World) : World :=
  mkWorld (tx_queue w) (lists w) r.

(** [[]]: a new list object *)
Definition new_list : M loc := fun w =>
  let l := fresh (dom (lists w)) in (Ok l, set_list l [] w).

(** an address attribute: [None], the [bytes] of [ser_to_hm_addr], or the
    [int] unpacked from a request *)
Inductive pyaddr :=
| ANone
| ABytes (b : bytes)
| AInt (n : Z).

Definition addr_truthy (a : pyaddr) : bool :=
  match a with
  | ANone => false
  | ABytes b => negb (length b =? 0)%nat
  | AInt n => negb (n =? 0)
  end.

(** [n == a] for an [int] [n] *)
Definition int_eq (n : Z) (a : pyaddr) : bool :=
  match a with
  | AInt m => n =? m
  | _ => false
  end.

(** [generator expressions] and [next], [max] over fallible properties *)
Section Fallible.
Context {A : Type}.

Fixpoint filter_r (p : A -> res bool) (l : list A) : res (list A) :=
  match l with
  | [] => Ok []
  | x :: l' =>
      (b <-! p x;
       r <-! filter_r p l';
       Ok (if b then x :: r else r))%res
  end.

(** [next(x for x in l if p x)]; [None] stands for [StopIteration] *)
Fixpoint next_r (p : A -> res bool) (l : list A) : res (option A) :=
  match l with
  | [] => Ok None
  | x :: l' => (b <-! p x; if b then Ok (Some x) else next_r p l')%res
  end.

Fixpoint max_loop (key : A -> res Z) (best : A) (best_key : Z) (l : list A) : res A :=
  match l with
  | [] => Ok best
  | x :: l' =>
      (k <-! key x;
       if best_key <? k then max_loop key x k l' else max_loop key best best_key l')%res
  end.

(** [max(l, key=key)] *)
Definition max_r (key : A -> res Z) (l : list A) : res A :=
  match l with
  | [] => Raise (ValueError MaxEmptySequence)
  | x :: l' => (k <-! key x; max_loop key x k l')%res
  end.
End Fallible.

(** [range(a, b)] *)
Definition z_range (a b : Z) : list Z :=
  map (fun k => a + Z.of_nat k) (seq 0 (Z.to_nat (b - a))).

(** ** The transport layer: class [InverterTransaction] *)

Module InverterTransaction.

(** The attributes of an instance. [scratch] refers to a list object;
    [radio] tells whether [self.radio] refers to the radio ([nrf] of the
    state) or is [None]; [dtu_addr] has no class default. *)
Record t := mk {
  scratch : loc;
  inverter_ser : serial;
  inverter_addr : pyaddr;
  dtu_ser : serial;
  dtu_addr : option pyaddr;
  req_type : option Z;
  time_rx : option Z;
  radio : bool;
  txpower : option string;
  request : option bytes;
  request_time : Z
}.

Definition set_time_rx (tm : Z) (self : t) : t :=
  mk (scratch self) (inverter_ser self) (inverter_addr self) (dtu_ser self)
     (dtu_addr self) (req_type self) (Some tm) (radio self) (txpower self)
     (request self) (request_time self).

Definition frame_append (self : t) (frame : InverterPacketFragment.t) : M unit :=
  fun w => (Ok tt, set_list (scratch self) (read_list w (scratch self) ++ [frame]) w).

Definition queue_tx (self : t) (frame : bytes) : M bool := fun w =>
  if negb (radio self) then (Ok false, w)
  else (Ok true, set_tx_queue (tx_queue w ++ [frame]) w).

(** [__init__]; [now] is what [datetime.now()] returns, the keyword
    parameters [txpower], [scratch] and [request] are optional. *)
Definition init (now : Z) (request_time : option Z) (inverter_ser dtu_ser : serial)
    (radio : bool) (txpower_kw : option string) (scratch_kw : option loc)
    (request_kw : option bytes) : M t :=
  (let txpower := if radio then txpower_kw else None in
   let request_time := match request_time with Some tm => tm | None => now end in
   fresh_scratch <-- new_list ;;
   let scratch := match scratch_kw with Some l => l | None => fresh_scratch end in
   inverter_addr <-- lift (if ser_truthy inverter_ser
                           then (a <-! ser_to_hm_addr inverter_ser; Ok (ABytes a))%res
                           else Ok ANone) ;;
   dtu_addr <-- lift (if ser_truthy dtu_ser
                      then (a <-! ser_to_hm_addr dtu_ser; Ok (Some (ABytes a)))%res
                      else Ok None) ;;
   let self := mk scratch inverter_ser inverter_addr dtu_ser dtu_addr None None radio
                  txpower None request_time in
   match request_kw with
   | None => mret self
   | Some request =>
       let self := mk scratch inverter_ser inverter_addr dtu_ser dtu_addr None None radio
                      txpower (Some request) request_time in
       _ <-- queue_tx self request ;;
       match slice 1 11 request with
       | [a3; a2; a1; a0; d3; d2; d1; d0; _; req_type] =>
           mret (mk scratch inverter_ser
                   (AInt (((a3 * 256 + a2) * 256 + a1) * 256 + a0))
                   dtu_ser
                   (Some (AInt (((d3 * 256 + d2) * 256 + d1) * 256 + d0)))
                   (Some req_type) None radio txpower (Some request) request_time)
       | _ => lift (Raise StructError)
       end
   end)%M.

(** [rxtx]; [polls] is what the radio sees while [receive] runs. *)
Definition rxtx (self : t) (polls : list (Z * option bytes)) : M bool := fun w =>
  if negb (radio self) then (Ok false, w)
  else
    match tx_queue w with
    | [] => (Ok false, w)
    | packet :: queue' =>
        let w := set_tx_queue queue' w in
        match HoymilesNRF.transmit (nrf w) packet with
        | Raise e => (Raise e, w)
        | Ok _ =>
            let '(responses, e, radio') := HoymilesNRF.receive (nrf w) polls in
            let w := set_nrf radio' w in
            let w := fold_left (fun w response => snd (frame_append self response w))
                       responses w in
            match e with
            | Some e => (Raise e, w)
            | None => (Ok (negb (length responses =? 0)%nat), w)
            end
        end
    end.

(** [__retransmit_frame] *)
Definition retransmit_frame (self : t) (frame_id : Z) : M (option bool) :=
  if negb (radio self) then mret None
  else
    (subcmd <-- lift (to_bytes_1 (0x80 + frame_id)) ;;
     packet <-- lift (compose_esb_fragment [] [0x15] subcmd (dtu_ser self)
                        (inverter_ser self)) ;;
     queued <-- queue_tx self packet ;;
     mret (Some queued))%M.

Definition seq_is (frame_id : Z) (item : InverterPacketFragment.t) : res bool :=
  (q <-! InverterPacketFragment.seq item; Ok (q =? frame_id))%res.

Definition seq_is_end (frame : InverterPacketFragment.t) : res bool :=
  (q <-! InverterPacketFragment.seq frame; Ok (0x80 <? q))%res.

Definition src_is (src : pyaddr) (frame : InverterPacketFragment.t) : res bool :=
  (s <-! InverterPacketFragment.src frame; Ok (int_eq s src))%res.

(** The loop [for frame_id in range(1, tr_len)] of [get_payload], over
    the remaining values of [frame_id]. *)
Fixpoint rebuild (self : t) (frames : list InverterPacketFragment.t)
    (frame_ids : list Z) (payload : bytes) : M bytes :=
  match frame_ids with
  | [] => mret payload
  | frame_id :: frame_ids' =>
      (found <-- lift (next_r (seq_is frame_id) frames) ;;
       match found with
       | Some data_frame =>
           rebuild self frames frame_ids'
             (payload ++ InverterPacketFragment.data data_frame)
       | None =>
           _ <-- retransmit_frame self frame_id ;;
           lift (Raise (BufferError (FrameMissing frame_id)))
       end)%M
  end.

(** [get_payload]; the instance comes back with the [time_rx] it has
    been given, also when the call raises. *)
Definition get_payload (self : t) (src : pyaddr) (w : World)
    : res (Z * bytes) * t * World :=
  let src := if negb (addr_truthy src) then inverter_addr self else src in
  match filter_r (src_is src) (read_list w (scratch self)) with
  | Raise e => (Raise e, self, w)
  | Ok frames =>
      match next_r seq_is_end frames with
      | Raise e => (Raise e, self, w)
      | Ok None =>
          let '(r, w) :=
            (m <-- lift (max_r InverterPacketFragment.seq frames) ;;
             seq_last <-- lift (InverterPacketFragment.seq m) ;;
             _ <-- retransmit_frame self (seq_last + 1) ;;
             fun w => (Raise (BufferError (MissingPacket
                                 (length (read_list w (scratch self))))), w))%M w in
          (r, self, w)
      | Ok (Some end_frame) =>
          let self := set_time_rx (InverterPacketFragment.time_rx end_frame) self in
          let '(r, w) :=
            (q <-- lift (InverterPacketFragment.seq end_frame) ;;
             let tr_len := q - 0x80 in
             payload <-- rebuild self frames (z_range 1 tr_len) [] ;;
             let payload := payload ++ InverterPacketFragment.data end_frame in
             pcrc <-- lift (unpack_H (last_n 2 payload)) ;;
             if negb (f_crc_m (but_last 2 payload) =? pcrc)
             then lift (Raise (ValueError PayloadFailedCrc))
             else
               main_cmd <-- lift (InverterPacketFragment.main_cmd end_frame) ;;
               mret (main_cmd, payload))%M w in
          (r, self, w)
      end
  end.

End InverterTransaction.

(** ** Decoder selection: [ResponseDecoderFactory.inverter_model] *)

Module ResponseDecoderFactory.

Definition newline : ascii := ascii_of_nat 10.

(** [re.match(prefix + '........', s)]: [prefix] literally, then eight
    characters none of which is a newline. *)
Definition re_match (prefix : string) (ser_str : string) : bool :=
  let p := list_ascii_of_string prefix in
  let s := list_ascii_of_string ser_str in
  let rest := drop (length p) s in
  forallb (fun '(a, b) => Ascii.eqb a b) (zip p (take (length p) s))
  && (length p <=? length s)%nat
  && (8 <=? length rest)%nat
  && forallb (fun c => negb (Ascii.eqb c newline)) (take 8 rest).

Definition ser_db : list (string * string) :=
  [("Hm300", "1121"); ("Hm600", "1141"); ("Hm1200", "1161")]%string.

(** the [for ... break] loop over [ser_db] *)
Fixpoint lookup_model (db : list (string * string)) (ser_str : string) : option string :=
  match db with
  | [] => None
  | (s_model, r_match) :: db' =>
      if re_match r_match ser_str then Some s_model else lookup_model db' ser_str
  end.

Definition inverter_model (inverter_ser : serial) : res string :=
  if negb (ser_truthy inverter_ser) then Raise (ValueError NoInverterSerial)
  else
    let ser_str := py_str inverter_ser in
    match lookup_model ser_db ser_str with
    | None => Raise TypeError            (* len(None) *)
    | Some model =>
        if negb (String.length model =? 0)%nat then Ok model
        else Raise NotImplementedError
    end.

End ResponseDecoderFactory.

(** ** Status decoders *)

(** [a / b] on python [int]s that a binary64 holds exactly *)
Definition py_truediv (a b : Z) : float :=
  PrimFloat.div (PrimFloat.of_uint63 (Uint63.of_Z a)) (PrimFloat.of_uint63 (Uint63.of_Z b)).

Module StatusResponse.
(** [self.unpack('>H', base)[0]] and [self.unpack('>L', base)[0]] *)
Definition unpack_H_at (response : bytes) (base : nat) : res Z :=
  unpack_H (slice base (base + 2) response).
Definition unpack_L_at (response : bytes) (base : nat) : res Z :=
  unpack_L (slice base (base + 4) response).
End StatusResponse.

Module Hm300Decode0B.
Import StatusResponse.
Definition dc_current_0 (response : bytes) : res float :=
  (v <-! unpack_H_at response 4; Ok (py_truediv v 100))%res.
Definition ac_current_0 (response : bytes) : res float :=
  (v <-! unpack_H_at response 22; Ok (py_truediv v 100))%res.
End Hm300Decode0B.

Module Hm600Decode0B.
Import StatusResponse.

Definition dc_voltage_0 (response : bytes) : res float :=
  (v <-! unpack_H_at response 2; Ok (py_truediv v 10))%res.
Definition dc_current_0 (response : bytes) : res float :=
  (v <-! unpack_H_at response 4; Ok (py_truediv v 100))%res.
Definition dc_power_0 (response : bytes) : res float :=
  (v <-! unpack_H_at response 6; Ok (py_truediv v 10))%res.
Definition dc_energy_total_0 (response : bytes) : res Z := unpack_L_at response 14.
Definition dc_energy_daily_0 (response : bytes) : res Z := unpack_H_at response 22.

Definition dc_voltage_1 (response : bytes) : res float :=
  (v <-! unpack_H_at response 8; Ok (py_truediv v 10))%res.
Definition dc_current_1 (response : bytes) : res float :=
  (v <-! unpack_H_at response 10; Ok (py_truediv v 100))%res.
Definition dc_power_1 (response : bytes) : res float :=
  (v <-! unpack_H_at response 12; Ok (py_truediv v 10))%res.
Definition dc_energy_total_1 (response : bytes) : res Z := unpack_L_at response 18.
Definition dc_energy_daily_1 (response : bytes) : res Z := unpack_H_at response 24.

Definition ac_voltage_0 (response : bytes) : res float :=
  (v <-! unpack_H_at response 26; Ok (py_truediv v 10))%res.
Definition ac_current_0 (response : bytes) : res float :=
  (v <-! unpack_H_at response 34; Ok (py_truediv v 10))%res.
Definition ac_power_0 (response : bytes) : res float :=
  (v <-! unpack_H_at response 30; Ok (py_truediv v 10))%res.
Definition frequency (response : bytes) : res float :=
  (v <-! unpack_H_at response 28; Ok (py_truediv v 100))%res.
Definition powerfactor (response : bytes) : res float :=
  (v <-! unpack_H_at response 36; Ok (py_truediv v 1000))%res.
Definition temperature (response : bytes) : res float :=
  (v <-! unpack_H_at response 38; Ok (py_truediv v 10))%res.
Definition event_count (response : bytes) : res Z := unpack_H_at response 40.
End Hm600Decode0B.

Module Hm1200Decode0B.
Import StatusResponse.
Definition ac_current_0 (response : bytes) : res float :=
  (v <-! unpack_H_at response 54; Ok (py_truediv v 100))%res.
End Hm1200Decode0B.

(** The HM600 status payload as the specification prints it (41 bytes). *)
Definition spec_status_payload : bytes :=
  [0x01; 0x00; 0x01; 0x01; 0x4E; 0x00; 0x9D; 0x02; 0x0A; 0x01; 0x50; 0x00; 0x9D; 0x02;
   0x10; 0x00; 0x00; 0x88; 0x1F; 0x00; 0x00; 0x7F; 0x08; 0x00; 0x94; 0x00; 0x97; 0x08;
   0xE2; 0x13; 0x89; 0x03; 0xEB; 0x00; 0x2C; 0x03; 0xE8; 0x00; 0xD8; 0x00; 0x06].

(** The data regions of the three logged reply fragments, in sequence
    order, without the two CRC bytes that end the third (42 bytes). *)
Definition log_status_payload : bytes :=
  [0x00; 0x01; 0x01; 0x4E; 0x00; 0x9D; 0x02; 0x0A; 0x01; 0x50; 0x00; 0x9D; 0x02; 0x10;
   0x00; 0x00; 0x88; 0x1F; 0x00; 0x00; 0x7F; 0x08; 0x00; 0x94; 0x00; 0x97; 0x08; 0xE2;
   0x13; 0x89; 0x03; 0xEB; 0x00; 0x01; 0x00; 0x2C; 0x03; 0xE8; 0x00; 0xD8; 0x00; 0x06].

(** [self.tx_queue]: no method assigns the attribute on an instance, so
    the lookup ends at the class attribute, whatever the instance. *)
Definition tx_queue_of (self : InverterTransaction.t) (w : World) : list bytes :=
  tx_queue w.

(** [self.scratch] *)
Definition scratch_of (self : InverterTransaction.t) (w : World)
    : list InverterPacketFragment.t :=
  read_list w (InverterTransaction.scratch self).

(** ** What reassembly selects, in the words of the protocol

    The accessors on fragments that carry the ten header bytes, and the
    fragments [get_payload] picks: the first terminal fragment and, for a
    sequence number, the first fragment in arrival order that has it. *)

Definition value_or {A} (d : A) (r : res A) : A :=
  match r with
  | Ok a => a
  | Raise _ => d
  end.

Definition has_header (f : InverterPacketFragment.t) : Prop :=
  (10 <= length (InverterPacketFragment.frame f))%nat.

Definition src_of (f : InverterPacketFragment.t) : Z := value_or 0 (InverterPacketFragment.src f).
Definition seq_of (f : InverterPacketFragment.t) : Z := value_or 0 (InverterPacketFragment.seq f).
Definition main_cmd_of (f : InverterPacketFragment.t) : Z :=
  value_or 0 (InverterPacketFragment.main_cmd f).

(** the source the scratch is filtered by *)
Definition effective_src (self : InverterTransaction.t) (src : pyaddr) : pyaddr :=
  if negb (addr_truthy src) then InverterTransaction.inverter_addr self else src.

Definition from_src (src : pyaddr) (scratch : list InverterPacketFragment.t)
    : list InverterPacketFragment.t :=
  List.filter (fun f => int_eq (src_of f) src) scratch.

Definition terminal (frames : list InverterPacketFragment.t) : option InverterPacketFragment.t :=
  List.find (fun f => 0x80 <? seq_of f) frames.

Definition first_with_seq (i : Z) (frames : list InverterPacketFragment.t)
    : option InverterPacketFragment.t :=
  List.find (fun f => seq_of f =? i) frames.

(** the data regions of the fragments numbered [ids], concatenated *)
Definition data_of_seqs (frames : list InverterPacketFragment.t) (ids : list Z) : bytes :=
  flat_map (fun i => match first_with_seq i frames with
                     | Some f => InverterPacketFragment.data f
                     | None => []
                     end) ids.

(** the reassembled payload for a terminal fragment [end_frame] that
    announces [n] fragments *)
Definition reassembled (frames : list InverterPacketFragment.t)
    (end_frame : InverterPacketFragment.t) (n : Z) : bytes :=
  data_of_seqs frames (z_range 1 n) ++ InverterPacketFragment.data end_frame.

(** the payload ends in the Modbus CRC-16 of what precedes *)
Definition crc_m_valid (payload : bytes) : Prop :=
  exists hi lo, last_n 2 payload = [hi; lo] /\ f_crc_m (but_last 2 payload) = hi * 256 + lo.

(** the retransmit request for fragment [frame_id] *)
Definition retransmit_request (inverter_hm dtu_hm : bytes) (frame_id : Z) : bytes :=
  let packet := [0x15] ++ inverter_hm ++ dtu_hm ++ [0x80 + frame_id] in
  packet ++ [f_crc8 packet].

(** the two ways [get_payload] goes on once the fragments from the source
    are collected: the handler of [StopIteration] when there is no terminal
    fragment, and the rest of the body when [end_frame] is found *)
Definition without_end_frame (self : InverterTransaction.t)
    (frames : list InverterPacketFragment.t) : M (Z * bytes) :=
  (m <-- lift (max_r InverterPacketFragment.seq frames) ;;
   seq_last <-- lift (InverterPacketFragment.seq m) ;;
   _ <-- InverterTransaction.retransmit_frame self (seq_last + 1) ;;
   fun w => (Raise (BufferError (MissingPacket
                       (length (read_list w (InverterTransaction.scratch self))))), w))%M.

Definition with_end_frame (self : InverterTransaction.t)
    (frames : list InverterPacketFragment.t) (end_frame : InverterPacketFragment.t)
    : M (Z * bytes) :=
  (q <-- lift (InverterPacketFragment.seq end_frame) ;;
   let tr_len := q - 0x80 in
   payload <-- InverterTransaction.rebuild self frames (z_range 1 tr_len) [] ;;
   let payload := payload ++ InverterPacketFragment.data end_frame in
   pcrc <-- lift (unpack_H (last_n 2 payload)) ;;
   if negb (f_crc_m (but_last 2 payload) =? pcrc)
   then lift (Raise (ValueError PayloadFailedCrc))
   else
     main_cmd <-- lift (InverterPacketFragment.main_cmd end_frame) ;;
     mret (main_cmd, payload))%M.

(** the element [max] picks: the first of those with the largest [seq] *)
Fixpoint max_pick (best : InverterPacketFragment.t) (l : list InverterPacketFragment.t)
    : InverterPacketFragment.t :=
  match l with
  | [] => best
  | x :: l' => if seq_of best <? seq_of x then max_pick x l' else max_pick best l'
  end.

(** the message of 'Missing packet' counts one fragment more *)
Definition one_more_in_scratch {A} (r : res A) : res A :=
  match r with
  | Raise (BufferError (MissingPacket k)) => Raise (BufferError (MissingPacket (S k)))
  | _ => r
  end.

(** a computation that reads and writes the queue only *)
Definition queue_only {A} (m : M A) : Prop :=
  forall q n, exists r q', forall ls, m (mkWorld q ls n) = (r, mkWorld q' ls n).

(** ** Composing and receiving, end to end *)

Fixpoint map_r {A B} (f : A -> res B) (l : list A) : res (list B) :=
  match l with
  | [] => Ok []
  | x :: l' => (y <-! f x; ys <-! map_r f l'; Ok (y :: ys))%res
  end.

(** the on-air bytes of the fragments of a request: [bytes(frame)] for
    every frame that [RequestFactory.__iter__] yields *)
Definition compose (rf : RequestFactory.t) : res (list bytes) :=
  (frames <-! RequestFactory.iter rf; map_r ESBFrame.to_bytes frames)%res.

(** a received frame parsed at time [now] *)
Definition parse (now : Z) (raw : bytes) : res InverterPacketFragment.t :=
  InverterPacketFragment.init now None raw None None.

(** [frame_append] for each fragment, in arrival order *)
Definition append_all (self : InverterTransaction.t)
    (fragments : list InverterPacketFragment.t) (w : World) : World :=
  fold_left (fun w f => snd (InverterTransaction.frame_append self f w)) fragments w.

(** the sequence byte of fragment [k] (from 0) out of [n] *)
Definition seq_byte (n k : nat) : Z :=
  if (S k =? n)%nat then Z.of_nat (S k) + 0x80 else Z.of_nat (S k).

(** the big-endian integer of four bytes *)
Definition be32 (b : bytes) : Z := value_or 0 (unpack_L b).

(** the data of fragment [k] (from 0) of a payload, and the fragment on
    air for addresses [target] and [source] *)
Definition chunk (payload : bytes) (k : nat) : bytes := slice (k * 16) (k * 16 + 16) payload.

Definition fragment_packet (target source payload : bytes) (n k : nat) : bytes :=
  [0x15] ++ target ++ source ++ [seq_byte n k] ++ chunk payload k.

Definition fragment_raw (target source payload : bytes) (n k : nat) : bytes :=
  fragment_packet target source payload n k
  ++ [f_crc8 (fragment_packet target source payload n k)].

(** ** The rest of the request side

    [compose_esb_packet], [compose_set_time_payload] and
    [ESBFrame.frombytes]. *)

(** [list(compose_esb_packet(packet, mtu, ...))] with the keywords that
    [compose_esb_fragment] reads; [range(0, len(packet), mtu)] raises for
    a step of zero and is empty for a negative one *)
Definition compose_esb_packet (packet : bytes) (mtu : Z) (maincmd subcmd : bytes)
    (src dst : serial) : res (list bytes) :=
  if mtu =? 0 then Raise (ValueError RangeStepZero)
  else if mtu <? 0 then Ok []
  else
    let step := Z.to_nat mtu in
    map_r (fun i => compose_esb_fragment (slice i (i + step) packet) maincmd subcmd src dst)
          (py_range 0 (length packet) step).

(** [compose_set_time_payload]; [clock] is what [int(time.time())] returns *)
Definition compose_set_time_payload (clock : Z) (timestamp : option Z) : res bytes :=
  let timestamp :=
    match timestamp with
    | Some t => if t =? 0 then clock else t
    | None => clock
    end in
  (let payload := [0x0b; 0x00] in
   ts <-! pack_L timestamp;
   let payload := payload ++ ts in
   let payload := payload ++ [0x00; 0x00; 0x00; 0x05; 0x00; 0x00; 0x00; 0x00] in
   frame_payload payload)%res.

(** [ESBFrame.frombytes(data)] with the default address length *)
Definition ESBFrame_frombytes (data : bytes) : res ESBFrame.t :=
  let l_addr := 4%nat in
  let o_target := (1 + l_addr)%nat in
  let o_data := (o_target + l_addr)%nat in
  ESBFrame.init (take 1 data) (slice o_target o_data data) (slice 1 o_target data)
    (slice_to_last o_data 1 data).

(** the exclusive-or of all bytes *)
Definition xor_all (data : bytes) : Z := fold_right Z.lxor 0 data.

(** ** What the radio hands over

    A payload ends in the checksum of what precedes it; the payloads read
    during [receive], each with the time of its poll; the channel indices
    of the radio object lie inside the two hop lists. *)

Definition checksum_ok (payload : bytes) : bool :=
  match last payload with
  | Some trailer => f_crc8 (but_last 1 payload) =? trailer
  | None => false
  end.

Definition received_at (polls : list (Z * option bytes)) : list (Z * bytes) :=
  omap (fun p => match snd p with
                 | Some payload => Some (fst p, payload)
                 | None => None
                 end) polls.

Definition channels_valid (r : HoymilesNRF.t) : Prop :=
  (HoymilesNRF.rx_channel_id r < length (HoymilesNRF.rx_channel_list r))%nat
  /\ (HoymilesNRF.tx_channel_id r < length (HoymilesNRF.tx_channel_list r))%nat.

(** the exception a payload that is not accepted ends the receive loop with *)
Definition rejected_with (payload : bytes) : exc :=
  match payload with
  | [] => IndexError
  | _ => BufferError FrameKaputt
  end.

(** ** Responses without a fixed layout: [UnknownResponse], [EventsResponse]

    The decoders work on the payload that [get_payload] returns. What
    [EventsResponse.__init__] prints for a record is kept as an [event]. *)

Module UnknownResponse.

Definition validate_crc8 (response : bytes) : res bool :=
  (pcrc <-! unpack_B (last_n 1 response);
   Ok (f_crc8 (but_last 1 response) =? pcrc))%res.

Definition validate_crc_m (response : bytes) : res bool :=
  (pcrc <-! unpack_H (last_n 2 response);
   Ok (f_crc_m (but_last 2 response) =? pcrc))%res.

End UnknownResponse.

Module EventsResponse.

Definition alarm_codes : list (Z * string) :=
  [
   (1, "Inverter start"%string);
   (2, "DTU command failed"%string);
   (121, "Over temperature protection"%string);
   (125, "Grid configuration parameter error"%string);
   (126, "Software error code 126"%string);
   (127, "Firmware error"%string);
   (128, "Software error code 128"%string);
   (129, "Software error code 129"%string);
   (130, "Offline"%string);
   (141, "Grid overvoltage"%string);
   (142, "Average grid overvoltage"%string);
   (143, "Grid undervoltage"%string);
   (144, "Grid overfrequency"%string);
   (145, "Grid underfrequency"%string);
   (146, "Rapid grid frequency change"%string);
   (147, "Power grid outage"%string);
   (148, "Grid disconnection"%string);
   (149, "Island detected"%string);
   (205, "Input port 1 & 2 overvoltage"%string);
   (206, "Input port 3 & 4 overvoltage"%string);
   (207, "Input port 1 & 2 undervoltage"%string);
   (208, "Input port 3 & 4 undervoltage"%string);
   (209, "Port 1 no input"%string);
   (210, "Port 2 no input"%string);
   (211, "Port 3 no input"%string);
   (212, "Port 4 no input"%string);
   (213, "PV-1 & PV-2 abnormal wiring"%string);
   (214, "PV-3 & PV-4 abnormal wiring"%string);
   (215, "PV-1 Input overvoltage"%string);
   (216, "PV-1 Input undervoltage"%string);
   (217, "PV-2 Input overvoltage"%string);
   (218, "PV-2 Input undervoltage"%string);
   (219, "PV-3 Input overvoltage"%string);
   (220, "PV-3 Input undervoltage"%string);
   (221, "PV-4 Input overvoltage"%string);
   (222, "PV-4 Input undervoltage"%string);
   (301, "Hardware error code 301"%string);
   (302, "Hardware error code 302"%string);
   (303, "Hardware error code 303"%string);
   (304, "Hardware error code 304"%string);
   (305, "Hardware error code 305"%string);
   (306, "Hardware error code 306"%string);
   (307, "Hardware error code 307"%string);
   (308, "Hardware error code 308"%string);
   (309, "Hardware error code 309"%string);
   (310, "Hardware error code 310"%string);
   (311, "Hardware error code 311"%string);
   (312, "Hardware error code 312"%string);
   (313, "Hardware error code 313"%string);
   (314, "Hardware error code 314"%string);
   (5041, "Error code-04 Port 1"%string);
   (5042, "Error code-04 Port 2"%string);
   (5043, "Error code-04 Port 3"%string);
   (5044, "Error code-04 Port 4"%string);
   (5051, "PV Input 1 Overvoltage/Undervoltage"%string);
   (5052, "PV Input 2 Overvoltage/Undervoltage"%string);
   (5053, "PV Input 3 Overvoltage/Undervoltage"%string);
   (5054, "PV Input 4 Overvoltage/Undervoltage"%string);
   (5060, "Abnormal bias"%string);
   (5070, "Over temperature protection"%string);
   (5080, "Grid Overvoltage/Undervoltage"%string);
   (5090, "Grid Overfrequency/Underfrequency"%string);
   (5100, "Island detected"%string);
   (5120, "EEPROM reading and writing error"%string);
   (5150, "10 min value grid overvoltage"%string);
   (5200, "Firmware error"%string);
   (8310, "Shut down"%string);
   (9000, "Microinverter is suspected of being stolen"%string)
  ].

(** [alarm_codes.get(a_code, 'N/A')] *)
Definition alarm_text (a_code : Z) : string :=
  match List.find (fun entry => fst entry =? a_code) alarm_codes with
  | Some entry => snd entry
  | None => "N/A"
  end.

Record event := mk_event {
  opcode : Z;
  a_code : Z;
  a_count : Z;
  uptime1 : Z;
  uptime2 : Z;
  a_text : string
}.

(** [struct.unpack('>BBHHH', b)] *)
Definition unpack_BBHHH (b : bytes) : res (Z * Z * Z * Z * Z) :=
  match b with
  | [o; a; c1; c0; u1; u0; v1; v0] =>
      Ok (o, a, c1 * 256 + c0, u1 * 256 + u0, v1 * 256 + v0)
  | _ => Raise StructError
  end.

(** [struct.unpack('>BBHHHHH', b)] *)
Definition unpack_BBHHHHH (b : bytes) : res (Z * Z * Z * Z * Z * Z * Z) :=
  match b with
  | [o; a; c1; c0; u1; u0; v1; v0; x1; x0; y1; y0] =>
      Ok (o, a, c1 * 256 + c0, u1 * 256 + u0, v1 * 256 + v0, x1 * 256 + x0, y1 * 256 + y0)
  | _ => Raise StructError
  end.

(** an instance: [self.response] and the records printed, in order *)
Record t := mk {
  response : bytes;
  events : list event
}.

(** The body of the loop [for i_chunk in range(2, len(self.response), chunk_size)],
    over the remaining values of [i_chunk]. *)
Fixpoint chunks_loop (response : bytes) (bases : list nat) : res (list event) :=
  match bases with
  | [] => Ok []
  | i_chunk :: bases' =>
      let chunk := slice i_chunk (i_chunk + 12) response in
      (fields <-! unpack_BBHHH (slice 0 8 chunk);
       let '(opcode, a_code, a_count, uptime1, uptime2) := fields in
       let a_text := alarm_text a_code in
       _ <-! unpack_BBHHHHH chunk;
       evs <-! chunks_loop response bases';
       Ok (mk_event opcode a_code a_count uptime1 uptime2 a_text :: evs))%res
  end.

(** [__init__] *)
Definition init (response : bytes) : res t :=
  (crc_valid <-! UnknownResponse.validate_crc_m response;
   let response := if crc_valid then but_last 2 response else response in
   let chunk_size := 12%nat in
   evs <-! chunks_loop response (py_range 2 (length response) chunk_size);
   Ok (mk response evs))%res.

End EventsResponse.

(** the record that starts at offset [i] of an event log *)
Definition event_of (body : bytes) (i : nat) : EventsResponse.event :=
  let b := fun k => nth (i + k) body 0 in
  EventsResponse.mk_event (b 0%nat) (b 1%nat) (b 2%nat * 256 + b 3%nat)
    (b 4%nat * 256 + b 5%nat) (b 6%nat * 256 + b 7%nat)
    (EventsResponse.alarm_text (b 1%nat)).

(** ** Choosing the decoder: [ResponseDecoder.decode] *)

Module ResponseDecoder.

(** the digit [d] of a lower-case hexadecimal number, [0 <= d < 16] *)
Definition hex_char (d : Z) : ascii :=
  ascii_of_nat (Z.to_nat (if d <? 10 then 48 + d else 87 + d)).

(** [f'{r_code:02x}'] for [0 <= r_code < 256] *)
Definition format_02x (r_code : Z) : string :=
  String (hex_char (r_code / 16)) (String (hex_char (r_code mod 16)) EmptyString).

(** [request_command]; [self.request] stays [None] when no request is given *)
Definition request_command (request : option bytes) : res string :=
  match request with
  | None => Raise TypeError
  | Some request =>
      match request !! 10%nat with
      | Some r_code => Ok (format_02x r_code)
      | None => Raise IndexError
      end
  end.

(** [str.upper] on ASCII *)
Definition upper_char (c : ascii) : ascii :=
  let n := nat_of_ascii c in
  if (97 <=? n)%nat && (n <=? 122)%nat then ascii_of_nat (n - 32) else c.

Fixpoint upper (s : string) : string :=
  match s with
  | EmptyString => EmptyString
  | String c s' => String (upper_char c) (upper s')
  end.

(** The classes of [decoders/__init__.py] whose name contains 'Decode';
    [from .decoders import *] binds them in the package that
    [__import__('hoymiles.decoders')] returns, so these are the names that
    [hasattr(model_decoders, f'{model}Decode{command.upper()}')] finds. *)
Definition decoder_classes : list string :=
  ["DebugDecodeAny";
   "Hm300Decode02"; "Hm300Decode0B"; "Hm300Decode11"; "Hm300Decode12";
   "Hm600Decode02"; "Hm600Decode0B"; "Hm600Decode11"; "Hm600Decode12";
   "Hm1200Decode02"; "Hm1200Decode0B"; "Hm1200Decode11"; "Hm1200Decode12"]%string.

(** the local [device] of [decode] when it reaches [return device(...)]:
    bound to a class, or not bound at all, which makes the [return] raise
    [UnboundLocalError] *)
Inductive binding :=
| Bound (class_name : string)
| Unbound.

(** [decode] up to the choice of the class; [debug_logging] is
    [HOYMILES_DEBUG_LOGGING] *)
Definition device (debug_logging : bool) (inverter_ser : serial) (request : option bytes)
    : res binding :=
  (model <-! ResponseDecoderFactory.inverter_model inverter_ser;
   command <-! request_command request;
   let name := String.append model (String.append "Decode" (upper command)) in
   if existsb (String.eqb name) decoder_classes then Ok (Bound name)
   else if debug_logging then Ok (Bound "DebugDecodeAny")
   else Ok Unbound)%res.

End ResponseDecoder.

(** ** [scan.py]: probing for serials *)

(** [b[i] = v] on a [bytearray] *)
Definition set_item (i : nat) (v : Z) (b : bytes) : res bytes :=
  if (i <? length b)%nat then Ok (list_insert i v b) else Raise IndexError.

Module Scan.

(** The packet that [rxtx] of [scan.py] hands to [radio.transmit]:
    the packet popped from the queue, as a [bytearray], with the bytes 1
    to 4 set to zero. *)
Definition transmitted (packet : bytes) : res bytes :=
  (packet <-! set_item 1 0 packet;
   packet <-! set_item 2 0 packet;
   packet <-! set_item 3 0 packet;
   set_item 4 0 packet)%res.

End Scan.

(** the properties of [Hm600Decode0B], by the type of their value *)
Definition hm600_float_properties : list (bytes -> res float) :=
  [Hm600Decode0B.dc_voltage_0; Hm600Decode0B.dc_current_0; Hm600Decode0B.dc_power_0;
   Hm600Decode0B.dc_voltage_1; Hm600Decode0B.dc_current_1; Hm600Decode0B.dc_power_1;
   Hm600Decode0B.ac_voltage_0; Hm600Decode0B.ac_current_0; Hm600Decode0B.ac_power_0;
   Hm600Decode0B.frequency; Hm600Decode0B.powerfactor; Hm600Decode0B.temperature].

Definition hm600_int_properties : list (bytes -> res Z) :=
  [Hm600Decode0B.dc_energy_total_0; Hm600Decode0B.dc_energy_daily_0;
   Hm600Decode0B.dc_energy_total_1; Hm600Decode0B.dc_energy_daily_1;
   Hm600Decode0B.event_count].

(** the character of a decimal digit, and the string of a list of digits *)
Definition digit (d : nat) : ascii := ascii_of_nat (48 + d).

Definition digits_string (ds : list nat) : string :=
  string_of_list_ascii (map digit ds).

(** ** Concrete inputs *)

(** a fragment as [InverterPacketFragment(payload=raw)] builds it at time 0 *)
Definition fragment_of (raw : bytes) : InverterPacketFragment.t :=
  InverterPacketFragment.mk 0 raw None None.

(** the state at start-up: an empty class queue, no list object yet *)
Definition world_start : World := mkWorld [] ∅ HoymilesNRF.class_defaults.

(** a state whose only list object, at 0, holds [fragments] *)
Definition world_with (fragments : list InverterPacketFragment.t) : World :=
  mkWorld [] {[ 0%nat := fragments ]} HoymilesNRF.class_defaults.

(** a transaction with a radio for the inverter and DTU of the log,
    [inverter_addr] as [__init__] unpacks it from [log_tx] *)
Definition log_transaction : InverterTransaction.t :=
  InverterTransaction.mk 0%nat (SerInt 114172220143) (AInt 0x72220143) (SerInt 99978563412)
    (Some (AInt 0x78563412)) (Some 0x0b) None true None (Some log_tx) 0.

(** the set-time request of the log as [RequestFactory] frames it: one
    terminal fragment, sequence byte [0x81] *)
Definition single_fragment_frame : bytes :=
  [0x15; 0x72; 0x22; 0x01; 0x43; 0x78; 0x56; 0x34; 0x12; 0x81; 0x0b; 0x00; 0x62;
   0x6e; 0x60; 0xee; 0x00; 0x00; 0x00; 0x05; 0x00; 0x00; 0x00; 0x00; 0x7e; 0x58; 0x24].

(** another single terminal fragment from the same source, as
    [RequestFactory] frames the payload [01 02 03] *)
Definition second_fragment_frame : bytes :=
  [0x15; 0x72; 0x22; 0x01; 0x43; 0x78; 0x56; 0x34; 0x12; 0x81; 0x01; 0x02; 0x03;
   0x61; 0x61; 0x8e].

(** an event log of two records (alarm codes 125 and 2) after the two
    status bytes, with its Modbus CRC *)
Definition events_log_payload : bytes :=
  [0x00; 0x01;
   0x01; 0x7d; 0x00; 0x03; 0x00; 0x10; 0x00; 0x20; 0x00; 0x00; 0x00; 0x00;
   0x01; 0x02; 0x00; 0x01; 0x01; 0x00; 0x00; 0x00; 0x00; 0x00; 0x00; 0x00;
   0x78; 0x44].

(** the third logged reply with the sequence byte [0x82] in place of
    [0x83] and the trailer that goes with it: a terminal fragment that
    announces two fragments *)
Definition early_terminal_frame : bytes :=
  [0x95; 0x72; 0x22; 0x01; 0x43; 0x72; 0x22; 0x01; 0x43; 0x82; 0x00; 0x01; 0x00;
   0x2c; 0x03; 0xe8; 0x00; 0xd8; 0x00; 0x06; 0x0c; 0x35; 0x36].

(** * Checks against the log of [tools/rpi/test.py] *)

Example f_crc8_log_tx : f_crc8 (but_last 1 log_tx) = 0x25.
Proof. reflexivity. Qed.
Example f_crc8_log_rx1 : f_crc8 (but_last 1 log_rx1) = 0x91.
Proof. reflexivity. Qed.
Example f_crc8_log_rx2 : f_crc8 (but_last 1 log_rx2) = 0xec.
Proof. reflexivity. Qed.
Example f_crc8_log_rx3 : f_crc8 (but_last 1 log_rx3) = 0x37.
Proof. reflexivity. Qed.
Example f_crc_m_check : f_crc_m [0x31; 0x32; 0x33; 0x34; 0x35; 0x36; 0x37; 0x38; 0x39] = 0x4B37.
Proof. reflexivity. Qed.
Example f_crc_m_log_tx : f_crc_m (slice 10 24 log_tx) = 0x7e58.
Proof. reflexivity. Qed.

Example ser_to_hm_addr_inverter : ser_to_hm_addr (SerInt 114172220143) = Ok [0x72; 0x22; 0x01; 0x43].
Proof. reflexivity. Qed.
Example ser_to_esb_addr_inverter :
  ser_to_esb_addr (SerInt 114172220143) = Ok [0x01; 0x72; 0x22; 0x01; 0x43].
Proof. reflexivity. Qed.
Example ser_to_hm_addr_dtu : ser_to_hm_addr (SerInt 99978563412) = Ok [0x78; 0x56; 0x34; 0x12].
Proof. reflexivity. Qed.
Example py_int16_white_space :
  py_int16 (String (ascii_of_nat 9) (String.append " 12" (String (ascii_of_nat 10) EmptyString)))
  = Ok 0x12.
Proof. vm_compute. reflexivity. Qed.
Example py_int16_separator :
  py_int16 (String (ascii_of_nat 28) "12") = Raise (ValueError InvalidLiteral).
Proof. vm_compute. reflexivity. Qed.
Example ser_to_hm_addr_separator :
  ser_to_hm_addr (SerStr (String (ascii_of_nat 28) "12")) = Raise (ValueError InvalidLiteral).
Proof. vm_compute. reflexivity. Qed.
Example ser_to_hm_addr_none : ser_to_hm_addr SerNone = Raise (ValueError InvalidLiteral).
Proof. vm_compute. reflexivity. Qed.
Example compose_esb_fragment_log_tx :
  compose_esb_fragment (slice 10 26 log_tx) [0x15] [0x80]
    (SerInt 99978563412) (SerInt 114172220143) = Ok log_tx.
Proof. reflexivity. Qed.

(** * Fragment accessors *)

Lemma unpack_L_short (b : bytes) : (length b < 4)%nat -> unpack_L b = Raise StructError.
Proof.
  destruct b as [|x3 [|x2 [|x1 [|x0 b]]]]; simpl; intros Hlen; try reflexivity; lia.
Qed.

(** C4: [dst] unpacks a 32-bit integer from [frame[5:8]], a slice of at
    most three bytes, so it raises [struct.error] on every fragment; on the
    first logged reply, a 27-byte frame, it does not return the integer of
    the bytes at 5, 6, 7 and 8, which its sibling [src] does for the bytes at
    1 to 4. *)
Theorem dst_raises_struct_error :
  (forall f : InverterPacketFragment.t, InverterPacketFragment.dst f = Raise StructError)
  /\ (exists f, InverterPacketFragment.init 0 None log_rx1 None None = Ok f
                /\ (27 = length (InverterPacketFragment.frame f))%nat
                /\ InverterPacketFragment.src f = Ok 0x72220143
                /\ InverterPacketFragment.dst f <> Ok 0x72220143).
Proof.
  split.
  - intros f. unfold InverterPacketFragment.dst. apply unpack_L_short.
    unfold slice. rewrite length_take. lia.
  - exists (InverterPacketFragment.mk 0 log_rx1 None None).
    vm_compute. repeat split; discriminate.
Qed.

(** * Model classification *)

Lemma lookup_model_ser_db (s model : string) :
  ResponseDecoderFactory.lookup_model ResponseDecoderFactory.ser_db s = Some model ->
  model = "Hm300"%string \/ model = "Hm600"%string \/ model = "Hm1200"%string.
Proof.
  unfold ResponseDecoderFactory.ser_db. simpl.
  repeat match goal with
         | |- context [if ?c then _ else _] => destruct c
         end; intros H; inversion H; auto.
Qed.

Lemma lookup_model_none (db : list (string * string)) (s model prefix : string) :
  ResponseDecoderFactory.lookup_model db s = None ->
  In (model, prefix) db -> ResponseDecoderFactory.re_match prefix s = false.
Proof.
  induction db as [|[m p] db IH]; intros Hl Hin; [destruct Hin|].
  cbn [ResponseDecoderFactory.lookup_model] in Hl.
  destruct (ResponseDecoderFactory.re_match p s) eqn:Hp; [discriminate|].
  destruct Hin as [Heq|Hin]; [inversion Heq; subst; exact Hp | exact (IH Hl Hin)].
Qed.

Lemma inverter_model_matched (s : string) (prefix model : string) :
  In (model, prefix) ResponseDecoderFactory.ser_db ->
  ResponseDecoderFactory.re_match prefix s = true ->
  exists m, ResponseDecoderFactory.inverter_model (SerStr s) = Ok m.
Proof.
  intros Hin Hm. unfold ResponseDecoderFactory.inverter_model.
  assert (Hs : ser_truthy (SerStr s) = true).
  { destruct s as [|c s]; [|reflexivity].
    destruct Hin as [H|[H|[H|[]]]]; inversion H; subst; discriminate Hm. }
  rewrite Hs. cbn [negb py_str].
  destruct (ResponseDecoderFactory.lookup_model _ _) as [m|] eqn:Hl.
  - destruct (lookup_model_ser_db _ _ Hl) as [->|[->| ->]]; eexists; reflexivity.
  - rewrite (lookup_model_none _ _ _ _ Hl Hin) in Hm. discriminate.
Qed.

Example inverter_model_hm600 :
  ResponseDecoderFactory.inverter_model (SerInt 114172220143) = Ok "Hm600"%string.
Proof. vm_compute. reflexivity. Qed.
Example inverter_model_hm300 :
  ResponseDecoderFactory.inverter_model (SerStr "112172220143") = Ok "Hm300"%string.
Proof. vm_compute. reflexivity. Qed.
Example inverter_model_hm1200 :
  ResponseDecoderFactory.inverter_model (SerStr "116172220143") = Ok "Hm1200"%string.
Proof. vm_compute. reflexivity. Qed.

(** C5: a serial with one of the three prefixes is classified, but no
    serial makes [inverter_model] raise [NotImplementedError]: when no
    pattern matches, [model] is still [None] and [len(model)] raises
    [TypeError] before the [raise] statement is reached. *)
Theorem inverter_model_unknown_prefix :
  ResponseDecoderFactory.inverter_model (SerStr "999972220143") = Raise TypeError
  /\ ResponseDecoderFactory.inverter_model (SerInt 100000000000) = Raise TypeError
  /\ forall ser, ResponseDecoderFactory.inverter_model ser <> Raise NotImplementedError.
Proof.
  split; [vm_compute; reflexivity|]. split; [vm_compute; reflexivity|].
  intros ser. unfold ResponseDecoderFactory.inverter_model.
  destruct (negb (ser_truthy ser)); [discriminate|].
  destruct (ResponseDecoderFactory.lookup_model _ _) as [m|] eqn:Hl; [|discriminate].
  destruct (lookup_model_ser_db _ _ Hl) as [->|[->| ->]]; discriminate.
Qed.

(** * Channel hopping in the receive loop *)

(** C8, as stated, fails: from the state of a new radio object (channel
    un-acked, index 0) two consecutive empty polls advance the index twice,
    once at each poll, not once for the two. *)
Lemma hop_at_each_empty_poll :
  let r0 := HoymilesNRF.class_defaults in
  let r1 := snd (HoymilesNRF.receive_poll r0 0 None) in
  let r2 := snd (HoymilesNRF.receive_poll r1 1 None) in
  HoymilesNRF.rx_channel_ack r0 = false
  /\ HoymilesNRF.rx_channel_ack r1 = false
  /\ HoymilesNRF.rx_channel_id r0 = 0%nat
  /\ HoymilesNRF.rx_channel_id r1 = 1%nat
  /\ HoymilesNRF.rx_channel_id r2 = 2%nat.
Proof. vm_compute. repeat split. Qed.

Lemma next_rx_channel_spec (self : HoymilesNRF.t) :
  let '(hop, self') := HoymilesNRF.next_rx_channel self in
  hop = negb (HoymilesNRF.rx_channel_ack self)
  /\ HoymilesNRF.rx_channel_ack self' = HoymilesNRF.rx_channel_ack self
  /\ HoymilesNRF.rx_error self' = HoymilesNRF.rx_error self
  /\ HoymilesNRF.rx_channel_list self' = HoymilesNRF.rx_channel_list self
  /\ HoymilesNRF.rx_channel_id self' =
       if HoymilesNRF.rx_channel_ack self then HoymilesNRF.rx_channel_id self
       else if (length (HoymilesNRF.rx_channel_list self)
                <=? HoymilesNRF.rx_channel_id self + 1)%nat
            then 0%nat else (HoymilesNRF.rx_channel_id self + 1)%nat.
Proof.
  unfold HoymilesNRF.next_rx_channel.
  destruct (HoymilesNRF.rx_channel_ack self) eqn:Hack; cbn [negb];
    repeat split; try assumption.
Qed.

(** C8, amended: a poll that reads a payload marks the channel acked,
    clears the miss counter and keeps the index. An empty poll counts the
    miss and clears the ack flag once the count exceeds one; the index then
    advances exactly when the flag is clear after that update, by one, and
    to the first entry when it would pass the last. So an un-acked channel
    is left at every empty poll, and an acked one at the second consecutive
    empty poll; the index never moves while the flag stays set. *)
Theorem receive_poll_hopping (self : HoymilesNRF.t) (now : Z) (payload : bytes) :
  let hit := snd (HoymilesNRF.receive_poll self now (Some payload)) in
  let miss := snd (HoymilesNRF.receive_poll self now None) in
  (HoymilesNRF.rx_channel_id hit = HoymilesNRF.rx_channel_id self
   /\ HoymilesNRF.rx_channel_ack hit = true
   /\ HoymilesNRF.rx_error hit = 0)
  /\ HoymilesNRF.rx_error miss = HoymilesNRF.rx_error self + 1
  /\ HoymilesNRF.rx_channel_ack miss =
       HoymilesNRF.rx_channel_ack self && negb (1 <? HoymilesNRF.rx_error self + 1)
  /\ HoymilesNRF.rx_channel_id miss =
       if HoymilesNRF.rx_channel_ack miss then HoymilesNRF.rx_channel_id self
       else if (length (HoymilesNRF.rx_channel_list self)
                <=? HoymilesNRF.rx_channel_id self + 1)%nat
            then 0%nat else (HoymilesNRF.rx_channel_id self + 1)%nat.
Proof.
  split; [repeat split|].
  unfold HoymilesNRF.receive_poll.
  set (s1 := HoymilesNRF.set_rx _ _ (HoymilesNRF.rx_error self + 1) self).
  set (s2 := if 1 <? HoymilesNRF.rx_error s1 then _ else s1).
  assert (H2 : HoymilesNRF.rx_error s2 = HoymilesNRF.rx_error self + 1
               /\ HoymilesNRF.rx_channel_id s2 = HoymilesNRF.rx_channel_id self
               /\ HoymilesNRF.rx_channel_list s2 = HoymilesNRF.rx_channel_list self
               /\ HoymilesNRF.rx_channel_ack s2 =
                    HoymilesNRF.rx_channel_ack self
                    && negb (1 <? HoymilesNRF.rx_error self + 1)).
  { subst s2 s1. cbn [HoymilesNRF.set_rx HoymilesNRF.rx_error].
    destruct (1 <? HoymilesNRF.rx_error self + 1);
      cbn; repeat split; auto using andb_false_r, andb_true_r. }
  destruct H2 as (He & Hi & Hl & Ha).
  pose proof (next_rx_channel_spec s2) as Hn.
  destruct (HoymilesNRF.next_rx_channel s2) as [hop s3].
  destruct Hn as (_ & Ha3 & He3 & _ & Hi3).
  destruct hop; cbn [snd]; rewrite He3, Ha3, Hi3, He, Ha, Hi, Hl; repeat split.
Qed.

(** * Ownership of the queue and of the scratch list *)

Lemma frame_append_scratch (self : InverterTransaction.t) (f : InverterPacketFragment.t)
    (w : World) :
  scratch_of self (snd (InverterTransaction.frame_append self f w)) = scratch_of self w ++ [f]
  /\ tx_queue (snd (InverterTransaction.frame_append self f w)) = tx_queue w.
Proof.
  unfold scratch_of, InverterTransaction.frame_append, read_list, set_list. cbn.
  rewrite lookup_insert_eq. split; reflexivity.
Qed.

Lemma frame_append_other_scratch (t1 t2 : InverterTransaction.t)
    (f : InverterPacketFragment.t) (w : World) :
  InverterTransaction.scratch t1 <> InverterTransaction.scratch t2 ->
  scratch_of t2 (snd (InverterTransaction.frame_append t1 f w)) = scratch_of t2 w.
Proof.
  intros Hne. unfold scratch_of, InverterTransaction.frame_append, read_list, set_list. cbn.
  rewrite lookup_insert_ne; [reflexivity | exact Hne].
Qed.

Lemma queue_tx_any_instance (t1 t2 : InverterTransaction.t) (frame : bytes) (w : World) :
  InverterTransaction.radio t1 = true ->
  tx_queue_of t2 (snd (InverterTransaction.queue_tx t1 frame w)) = tx_queue_of t2 w ++ [frame]
  /\ scratch_of t2 (snd (InverterTransaction.queue_tx t1 frame w)) = scratch_of t2 w.
Proof.
  intros Hr. unfold InverterTransaction.queue_tx. rewrite Hr. split; reflexivity.
Qed.

(** C9: two transactions made by [__init__] for two inverters get two
    scratch lists, but one queue: the request [__init__] queues for the
    first is in the queue of the second, a frame queued through the first
    is appended to the queue the second reads, and [rxtx] on the second
    pops (and transmits) the request of the first. *)
Theorem tx_queue_shared_between_instances :
  let '(r1, w1) := InverterTransaction.init 0 None (SerInt 114172220143)
                     (SerInt 99978563412) true None None (Some log_tx) world_start in
  let '(r2, w2) := InverterTransaction.init 1 None (SerInt 116172220143)
                     (SerInt 99978563412) true None None None w1 in
  match r1, r2 with
  | Ok t1, Ok t2 =>
      InverterTransaction.scratch t1 <> InverterTransaction.scratch t2
      /\ tx_queue_of t2 w2 = [log_tx]
      /\ tx_queue_of t2 (snd (InverterTransaction.queue_tx t1 log_rx1 w2)) = [log_tx; log_rx1]
      /\ scratch_of t2 (snd (InverterTransaction.frame_append t1 (fragment_of log_rx1) w2)) = []
      /\ tx_queue_of t1 (snd (InverterTransaction.rxtx t2 [] w2)) = []
  | _, _ => False
  end.
Proof. vm_compute. repeat split; discriminate. Qed.

(** * Reassembly: the empty selection *)

Lemma filter_r_none {A} (p : A -> res bool) (l : list A) :
  Forall (fun x => p x = Ok false) l -> filter_r p l = Ok [].
Proof.
  induction 1 as [|x l Hx _ IH]; [reflexivity|].
  cbn [filter_r rbind]. rewrite Hx, IH. reflexivity.
Qed.

(** C10, as stated, fails: the frame parser accepts the one-byte
    payload [00], which has no source to read. With that fragment in the
    scratch no fragment has [frame.src == src], yet [get_payload] raises
    the [struct.error] of [frame.src], not the [ValueError] of [max]. *)
Lemma short_fragment_raises_struct_error :
  parse 0 [0x00] = Ok (fragment_of [0x00])
  /\ InverterPacketFragment.src (fragment_of [0x00]) = Raise StructError
  /\ InverterTransaction.get_payload log_transaction (AInt 1)
       (world_with [fragment_of [0x00]])
     = (Raise StructError, log_transaction, world_with [fragment_of [0x00]]).
Proof. vm_compute. repeat split. Qed.

(** C10, amended: when [frame.src] can be read on every fragment of the
    scratch (each has at least five bytes; an empty scratch included) and
    none has [frame.src == src], [get_payload] raises the [ValueError] of
    [max] on an empty sequence, not a [BufferError]; the queue, the scratch
    and the instance are as before, so no retransmit request is queued. *)
Theorem get_payload_no_fragment_from_src (self : InverterTransaction.t) (src : pyaddr)
    (w : World) :
  Forall (fun frame => exists s,
            InverterPacketFragment.src frame = Ok s
            /\ int_eq s (if negb (addr_truthy src)
                         then InverterTransaction.inverter_addr self else src) = false)
         (scratch_of self w) ->
  InverterTransaction.get_payload self src w = (Raise (ValueError MaxEmptySequence), self, w).
Proof.
  intros Hnone. unfold InverterTransaction.get_payload.
  rewrite (filter_r_none _ (read_list w (InverterTransaction.scratch self))).
  - reflexivity.
  - eapply Forall_impl; [exact Hnone|]. intros f (s & Hs & Hne).
    unfold InverterTransaction.src_is. rewrite Hs. cbn [rbind]. rewrite Hne. reflexivity.
Qed.

Lemma get_payload_no_fragment_from_src_witness :
  Forall (fun frame => exists s,
            InverterPacketFragment.src frame = Ok s
            /\ int_eq s (if negb (addr_truthy (AInt 1))
                         then InverterTransaction.inverter_addr log_transaction
                         else AInt 1) = false)
         (scratch_of log_transaction (world_with [fragment_of log_rx1]))
  /\ InverterTransaction.get_payload log_transaction (AInt 1)
       (world_with [fragment_of log_rx1])
     = (Raise (ValueError MaxEmptySequence), log_transaction,
        world_with [fragment_of log_rx1]).
Proof.
  assert (H : Forall (fun frame => exists s,
            InverterPacketFragment.src frame = Ok s
            /\ int_eq s (if negb (addr_truthy (AInt 1))
                         then InverterTransaction.inverter_addr log_transaction
                         else AInt 1) = false)
         (scratch_of log_transaction (world_with [fragment_of log_rx1]))).
  { vm_compute. constructor; [|constructor]. eexists. split; reflexivity. }
  split; [exact H|].
  exact (get_payload_no_fragment_from_src log_transaction (AInt 1)
           (world_with [fragment_of log_rx1]) H).
Defined.

(** * Ranges of packed values and checksums *)

Lemma lxor_range (n a b : Z) :
  0 <= n -> 0 <= a < 2 ^ n -> 0 <= b < 2 ^ n -> 0 <= Z.lxor a b < 2 ^ n.
Proof.
  intros Hn Ha Hb.
  assert (Hnn : 0 <= Z.lxor a b) by (apply Z.lxor_nonneg; lia).
  split; [exact Hnn|].
  destruct (Z.eq_dec (Z.lxor a b) 0) as [->|Hz]; [lia|].
  assert (Hpos : 0 < n).
  { destruct (Z.eq_dec n 0) as [->|]; [|lia].
    assert (a = 0) by lia. assert (b = 0) by lia. subst. contradiction Hz. reflexivity. }
  apply Z.log2_lt_pow2; [lia|].
  pose proof (Z.log2_lxor a b ltac:(lia) ltac:(lia)) as Hl.
  assert (Hla : Z.log2 a < n).
  { destruct (Z.eq_dec a 0) as [->|]; [cbn; lia|]. apply Z.log2_lt_pow2; lia. }
  assert (Hlb : Z.log2 b < n).
  { destruct (Z.eq_dec b 0) as [->|]; [cbn; lia|]. apply Z.log2_lt_pow2; lia. }
  lia.
Qed.

Lemma crc_bit_range (n poly crc : Z) :
  0 <= n -> 0 <= poly < 2 ^ n -> 0 <= crc < 2 ^ n -> 0 <= crc_bit poly crc < 2 ^ n.
Proof.
  intros Hn Hp Hc. unfold crc_bit.
  assert (Hs : 0 <= Z.shiftr crc 1 < 2 ^ n).
  { rewrite Z.shiftr_div_pow2 by lia. change (2 ^ 1) with 2.
    split; [apply Z.div_pos; lia|].
    apply Z.le_lt_trans with crc; [|lia]. apply Z.div_le_upper_bound; lia. }
  destruct (Z.testbit crc 0); [apply lxor_range; assumption | exact Hs].
Qed.

Lemma crc_byte_range (n poly crc b : Z) :
  8 <= n -> 0 <= poly < 2 ^ n -> 0 <= crc < 2 ^ n -> is_byte b ->
  0 <= crc_byte poly crc b < 2 ^ n.
Proof.
  intros Hn Hp Hc Hb. unfold crc_byte.
  assert (H8 : 2 ^ 8 <= 2 ^ n) by (apply Z.pow_le_mono_r; lia).
  assert (Hx : 0 <= Z.lxor crc b < 2 ^ n).
  { apply lxor_range; [lia | assumption |]. unfold is_byte in Hb. lia. }
  generalize dependent (Z.lxor crc b). intros x Hx.
  do 8 (cbn [Nat.iter]; apply crc_bit_range; [lia | assumption |]).
  exact Hx.
Qed.

Lemma crc_reflected_range (n poly init : Z) (data : bytes) :
  8 <= n -> 0 <= poly < 2 ^ n -> 0 <= init < 2 ^ n -> Forall is_byte data ->
  0 <= crc_reflected poly init data < 2 ^ n.
Proof.
  intros Hn Hp Hi Hd. unfold crc_reflected. revert init Hi.
  induction Hd as [|b data Hb _ IH]; intros init Hi; [exact Hi|].
  cbn [fold_left]. apply IH. apply crc_byte_range; assumption.
Qed.

Lemma f_crc8_range (data : bytes) : Forall is_byte data -> 0 <= f_crc8 data < 256.
Proof. intros Hd. apply (crc_reflected_range 8); [lia | lia | lia | exact Hd]. Qed.

Lemma f_crc_m_range (data : bytes) : Forall is_byte data -> 0 <= f_crc_m data < 65536.
Proof. intros Hd. apply (crc_reflected_range 16); [lia | lia | lia | exact Hd]. Qed.

Lemma pack_B_ok (z : Z) : 0 <= z < 256 -> pack_B z = Ok [z].
Proof.
  intros Hz. unfold pack_B.
  destruct (0 <=? z) eqn:H0; destruct (z <=? 255) eqn:H1; try reflexivity; lia.
Qed.

Lemma pack_H_ok (z : Z) : 0 <= z < 65536 -> pack_H z = Ok [z / 256; z mod 256].
Proof.
  intros Hz. unfold pack_H.
  destruct (0 <=? z) eqn:H0; destruct (z <=? 65535) eqn:H1; try reflexivity; lia.
Qed.

Lemma pack_H_bytes (z : Z) : 0 <= z < 65536 -> Forall is_byte [z / 256; z mod 256].
Proof.
  intros Hz. repeat constructor.
  - apply Z.div_pos; lia.
  - apply Z.div_lt_upper_bound; lia.
  - apply Z.mod_pos_bound; lia.
  - apply Z.mod_pos_bound; lia.
Qed.

Lemma pack_L_bytes (z : Z) (b : bytes) :
  pack_L z = Ok b -> length b = 4%nat /\ Forall is_byte b.
Proof.
  unfold pack_L. destruct (0 <=? z) eqn:H0; destruct (z <=? 4294967295) eqn:H1;
    cbn [andb]; intros H; inversion H; subst; clear H.
  split; [reflexivity|].
  assert (0 <= z < 4294967296) by lia.
  repeat constructor; try (apply Z.mod_pos_bound; lia).
  - apply Z.div_pos; lia.
  - apply Z.div_lt_upper_bound; lia.
Qed.

Lemma ser_to_hm_addr_bytes (ser : serial) (a : bytes) :
  ser_to_hm_addr ser = Ok a -> length a = 4%nat /\ Forall is_byte a.
Proof.
  unfold ser_to_hm_addr. destruct (py_int16 _) as [bcd|e]; cbn [rbind]; [|discriminate].
  apply pack_L_bytes.
Qed.

Lemma to_bytes_1_ok (z : Z) : 0 <= z < 256 -> to_bytes_1 z = Ok [z].
Proof.
  intros Hz. unfold to_bytes_1.
  destruct (0 <=? z) eqn:H0; destruct (z <=? 255) eqn:H1; try reflexivity; lia.
Qed.

(** * Fragments that carry the header *)

Lemma header_frame (f : InverterPacketFragment.t) :
  has_header f ->
  exists b0 b1 b2 b3 b4 b5 b6 b7 b8 b9 rest,
    InverterPacketFragment.frame f = b0 :: b1 :: b2 :: b3 :: b4 :: b5 :: b6 :: b7 :: b8 :: b9 :: rest.
Proof.
  unfold has_header.
  destruct (InverterPacketFragment.frame f)
    as [|b0 [|b1 [|b2 [|b3 [|b4 [|b5 [|b6 [|b7 [|b8 [|b9 rest]]]]]]]]]];
    cbn [length]; intros Hlen; try lia.
  repeat eexists.
Qed.

Lemma header_seq (f : InverterPacketFragment.t) :
  has_header f -> InverterPacketFragment.seq f = Ok (seq_of f).
Proof.
  intros Hf. destruct (header_frame f Hf) as (b0&b1&b2&b3&b4&b5&b6&b7&b8&b9&rest&Hfr).
  unfold seq_of, InverterPacketFragment.seq. rewrite Hfr. reflexivity.
Qed.

Lemma header_src (f : InverterPacketFragment.t) :
  has_header f -> InverterPacketFragment.src f = Ok (src_of f).
Proof.
  intros Hf. destruct (header_frame f Hf) as (b0&b1&b2&b3&b4&b5&b6&b7&b8&b9&rest&Hfr).
  unfold src_of, InverterPacketFragment.src. rewrite Hfr. reflexivity.
Qed.

Lemma header_main_cmd (f : InverterPacketFragment.t) :
  has_header f -> InverterPacketFragment.main_cmd f = Ok (main_cmd_of f).
Proof.
  intros Hf. destruct (header_frame f Hf) as (b0&b1&b2&b3&b4&b5&b6&b7&b8&b9&rest&Hfr).
  unfold main_cmd_of, InverterPacketFragment.main_cmd. rewrite Hfr. reflexivity.
Qed.

Lemma filter_r_from_src (a : pyaddr) (l : list InverterPacketFragment.t) :
  Forall has_header l -> filter_r (InverterTransaction.src_is a) l = Ok (from_src a l).
Proof.
  induction 1 as [|f l Hf _ IH]; [reflexivity|].
  cbn [filter_r]. unfold InverterTransaction.src_is at 1.
  rewrite (header_src f Hf). cbn [rbind]. rewrite IH. reflexivity.
Qed.

Lemma from_src_header (a : pyaddr) (l : list InverterPacketFragment.t) :
  Forall has_header l -> Forall has_header (from_src a l).
Proof.
  intros Hl. apply List.Forall_forall. intros f Hin.
  apply List.filter_In in Hin. destruct Hin as [Hin _].
  exact (proj1 (List.Forall_forall _ _) Hl f Hin).
Qed.

Lemma next_r_terminal (l : list InverterPacketFragment.t) :
  Forall has_header l -> next_r InverterTransaction.seq_is_end l = Ok (terminal l).
Proof.
  induction 1 as [|f l Hf _ IH]; [reflexivity|].
  cbn [next_r]. unfold InverterTransaction.seq_is_end at 1.
  rewrite (header_seq f Hf). cbn [rbind]. unfold terminal. cbn [find].
  destruct (0x80 <? seq_of f); [reflexivity | exact IH].
Qed.

Lemma next_r_first_with_seq (i : Z) (l : list InverterPacketFragment.t) :
  Forall has_header l -> next_r (InverterTransaction.seq_is i) l = Ok (first_with_seq i l).
Proof.
  induction 1 as [|f l Hf _ IH]; [reflexivity|].
  cbn [next_r]. unfold InverterTransaction.seq_is at 1.
  rewrite (header_seq f Hf). cbn [rbind]. unfold first_with_seq. cbn [find].
  destruct (seq_of f =? i); [reflexivity | exact IH].
Qed.

Lemma terminal_header (l : list InverterPacketFragment.t) (e : InverterPacketFragment.t) :
  Forall has_header l -> terminal l = Some e -> has_header e.
Proof.
  intros Hl He. apply List.find_some in He. destruct He as [Hin _].
  exact (proj1 (List.Forall_forall _ _) Hl e Hin).
Qed.

(** * The retransmit request *)

Lemma retransmit_frame_queued (self : InverterTransaction.t) (frame_id : Z)
    (inverter_hm dtu_hm : bytes) (w : World) :
  InverterTransaction.radio self = true ->
  ser_to_hm_addr (InverterTransaction.inverter_ser self) = Ok inverter_hm ->
  ser_to_hm_addr (InverterTransaction.dtu_ser self) = Ok dtu_hm ->
  -128 <= frame_id < 128 ->
  InverterTransaction.retransmit_frame self frame_id w
  = (Ok (Some true),
     set_tx_queue (tx_queue w ++ [retransmit_request inverter_hm dtu_hm frame_id]) w).
Proof.
  intros Hradio Hinv Hdtu Hid.
  unfold InverterTransaction.retransmit_frame. rewrite Hradio. cbn [negb].
  unfold mbind, lift. rewrite to_bytes_1_ok by lia.
  unfold compose_esb_fragment. cbn [length Nat.ltb Nat.leb].
  rewrite Hinv, Hdtu. cbn [rbind].
  destruct (ser_to_hm_addr_bytes _ _ Hinv) as [_ Hbi].
  destruct (ser_to_hm_addr_bytes _ _ Hdtu) as [_ Hbd].
  rewrite pack_B_ok.
  - cbn [rbind]. unfold InverterTransaction.queue_tx. rewrite Hradio. cbn [negb].
    unfold mret, retransmit_request. cbn zeta.
    repeat rewrite app_nil_r. repeat rewrite <- app_assoc. reflexivity.
  - apply f_crc8_range. repeat rewrite app_nil_r.
    repeat apply Forall_app_2; try assumption; repeat constructor; lia.
Qed.

(** * Reassembly *)

Lemma z_range_shift (a : Z) (s m : nat) :
  map (fun k => a + Z.of_nat k) (seq s m)
  = map (fun k => a + Z.of_nat s + Z.of_nat k) (seq 0 m).
Proof.
  revert s. induction m as [|m IH]; intros s; [reflexivity|].
  cbn [seq map]. f_equal; [lia|].
  rewrite (IH (S s)), <- (seq_shift m 0), List.map_map. apply map_ext. intros k. lia.
Qed.

Lemma z_range_In (a b i : Z) : In i (z_range a b) <-> a <= i < b.
Proof.
  unfold z_range. rewrite in_map_iff. split.
  - intros (k & <- & Hk). apply in_seq in Hk. lia.
  - intros Hi. exists (Z.to_nat (i - a)). split; [lia|]. apply in_seq. lia.
Qed.

Lemma z_range_split (a b i : Z) :
  a <= i < b -> z_range a b = z_range a i ++ i :: z_range (i + 1) b.
Proof.
  intros Hi. unfold z_range.
  replace (Z.to_nat (b - a)) with (Z.to_nat (i - a) + S (Z.to_nat (b - (i + 1))))%nat by lia.
  rewrite seq_app, map_app. f_equal. cbn [seq map]. f_equal; [lia|].
  rewrite z_range_shift. apply map_ext. intros k. lia.
Qed.

Lemma first_with_seq_none (i : Z) (frames : list InverterPacketFragment.t) :
  Forall (fun f => seq_of f <> i) frames -> first_with_seq i frames = None.
Proof.
  induction 1 as [|f l Hf _ IH]; [reflexivity|].
  unfold first_with_seq. cbn [find].
  destruct (seq_of f =? i) eqn:Heq; [apply Z.eqb_eq in Heq; contradiction | exact IH].
Qed.

Lemma first_with_seq_some (i : Z) (frames : list InverterPacketFragment.t) :
  Exists (fun f => seq_of f = i) frames -> first_with_seq i frames <> None.
Proof.
  induction 1 as [f l Hf|f l _ IH]; unfold first_with_seq; cbn [find].
  - apply Z.eqb_eq in Hf. rewrite Hf. discriminate.
  - destruct (seq_of f =? i); [discriminate | exact IH].
Qed.

Lemma data_of_seqs_cons (frames : list InverterPacketFragment.t) (i : Z) (ids : list Z)
    (f : InverterPacketFragment.t) :
  first_with_seq i frames = Some f ->
  data_of_seqs frames (i :: ids) = InverterPacketFragment.data f ++ data_of_seqs frames ids.
Proof. intros Hf. unfold data_of_seqs. cbn [flat_map]. rewrite Hf. reflexivity. Qed.

Lemma rebuild_found (self : InverterTransaction.t) (frames : list InverterPacketFragment.t)
    (ids : list Z) (acc : bytes) (w : World) :
  Forall has_header frames ->
  Forall (fun i => first_with_seq i frames <> None) ids ->
  InverterTransaction.rebuild self frames ids acc w = (Ok (acc ++ data_of_seqs frames ids), w).
Proof.
  intros Hh Hids. revert acc. induction Hids as [|i ids Hi _ IH]; intros acc.
  - cbn. rewrite app_nil_r. reflexivity.
  - cbn [InverterTransaction.rebuild]. unfold mbind at 1, lift at 1.
    rewrite (next_r_first_with_seq i frames Hh).
    destruct (first_with_seq i frames) as [f|] eqn:Hf; [|contradiction].
    rewrite IH, (data_of_seqs_cons _ _ _ _ Hf), app_assoc. reflexivity.
Qed.

Lemma rebuild_missing (self : InverterTransaction.t) (frames : list InverterPacketFragment.t)
    (ids1 ids2 : list Z) (i : Z) (acc inverter_hm dtu_hm : bytes) (w : World) :
  Forall has_header frames ->
  Forall (fun j => first_with_seq j frames <> None) ids1 ->
  first_with_seq i frames = None ->
  InverterTransaction.radio self = true ->
  ser_to_hm_addr (InverterTransaction.inverter_ser self) = Ok inverter_hm ->
  ser_to_hm_addr (InverterTransaction.dtu_ser self) = Ok dtu_hm ->
  -128 <= i < 128 ->
  InverterTransaction.rebuild self frames (ids1 ++ i :: ids2) acc w
  = (Raise (BufferError (FrameMissing i)),
     set_tx_queue (tx_queue w ++ [retransmit_request inverter_hm dtu_hm i]) w).
Proof.
  intros Hh Hids Hi Hradio Hinv Hdtu Hrange. revert acc.
  induction Hids as [|j ids1 Hj _ IH]; intros acc.
  - cbn [app InverterTransaction.rebuild]. unfold mbind at 1, lift at 1.
    rewrite (next_r_first_with_seq i frames Hh), Hi.
    unfold mbind, lift.
    rewrite (retransmit_frame_queued self i inverter_hm dtu_hm w Hradio Hinv Hdtu Hrange).
    reflexivity.
  - cbn [app InverterTransaction.rebuild]. unfold mbind at 1, lift at 1.
    rewrite (next_r_first_with_seq j frames Hh).
    destruct (first_with_seq j frames) as [f|] eqn:Hf; [apply IH | contradiction].
Qed.

Lemma crc_m_valid_check (payload : bytes) :
  crc_m_valid payload ->
  exists pcrc, unpack_H (last_n 2 payload) = Ok pcrc
               /\ (f_crc_m (but_last 2 payload) =? pcrc) = true.
Proof.
  intros (hi & lo & Hl & Hc). exists (hi * 256 + lo). rewrite Hl. split; [reflexivity|].
  apply Z.eqb_eq. exact Hc.
Qed.

(** What [get_payload] returns when the fragments are there and the
    checksum holds. *)
Lemma get_payload_reassembles (self : InverterTransaction.t) (src : pyaddr) (w : World)
    (end_frame : InverterPacketFragment.t) (n : Z) :
  Forall has_header (scratch_of self w) ->
  terminal (from_src (effective_src self src) (scratch_of self w)) = Some end_frame ->
  seq_of end_frame = 0x80 + n ->
  (forall i, 1 <= i < n ->
     first_with_seq i (from_src (effective_src self src) (scratch_of self w)) <> None) ->
  crc_m_valid (reassembled (from_src (effective_src self src) (scratch_of self w)) end_frame n) ->
  InverterTransaction.get_payload self src w
  = (Ok (main_cmd_of end_frame,
         reassembled (from_src (effective_src self src) (scratch_of self w)) end_frame n),
     InverterTransaction.set_time_rx (InverterPacketFragment.time_rx end_frame) self, w).
Proof.
  intros Hh Hend Hseq Hall Hcrc.
  unfold InverterTransaction.get_payload.
  change (if negb (addr_truthy src) then InverterTransaction.inverter_addr self else src)
    with (effective_src self src).
  change (read_list w (InverterTransaction.scratch self)) with (scratch_of self w).
  set (frames := from_src (effective_src self src) (scratch_of self w)) in *.
  rewrite (filter_r_from_src _ _ Hh). fold frames.
  assert (Hfh : Forall has_header frames) by (apply from_src_header; exact Hh).
  rewrite (next_r_terminal _ Hfh), Hend.
  assert (Heh : has_header end_frame) by (eapply terminal_header; eauto).
  unfold mbind at 1, lift at 1. rewrite (header_seq _ Heh), Hseq.
  replace (128 + n - 128) with n by lia.
  unfold mbind at 1. rewrite rebuild_found; [|exact Hfh|].
  - cbn [app]. fold (reassembled frames end_frame n).
    destruct (crc_m_valid_check _ Hcrc) as (pcrc & Hu & Hc).
    unfold mbind at 1, lift at 1. rewrite Hu, Hc. cbn [negb].
    unfold mbind, lift, mret. rewrite (header_main_cmd _ Heh). reflexivity.
  - apply List.Forall_forall. intros i Hi. apply z_range_In in Hi. apply Hall. exact Hi.
Qed.

(** What [get_payload] does when fragment [i] is the first one missing. *)
Lemma get_payload_requests_missing (self : InverterTransaction.t) (src : pyaddr) (w : World)
    (end_frame : InverterPacketFragment.t) (n i : Z) (inverter_hm dtu_hm : bytes) :
  Forall has_header (scratch_of self w) ->
  terminal (from_src (effective_src self src) (scratch_of self w)) = Some end_frame ->
  seq_of end_frame = 0x80 + n ->
  1 <= i < n -> n <= 128 ->
  (forall j, 1 <= j < i ->
     first_with_seq j (from_src (effective_src self src) (scratch_of self w)) <> None) ->
  first_with_seq i (from_src (effective_src self src) (scratch_of self w)) = None ->
  InverterTransaction.radio self = true ->
  ser_to_hm_addr (InverterTransaction.inverter_ser self) = Ok inverter_hm ->
  ser_to_hm_addr (InverterTransaction.dtu_ser self) = Ok dtu_hm ->
  InverterTransaction.get_payload self src w
  = (Raise (BufferError (FrameMissing i)),
     InverterTransaction.set_time_rx (InverterPacketFragment.time_rx end_frame) self,
     set_tx_queue (tx_queue w ++ [retransmit_request inverter_hm dtu_hm i]) w).
Proof.
  intros Hh Hend Hseq Hi Hn Hbefore Hmiss Hradio Hinv Hdtu.
  unfold InverterTransaction.get_payload.
  change (if negb (addr_truthy src) then InverterTransaction.inverter_addr self else src)
    with (effective_src self src).
  change (read_list w (InverterTransaction.scratch self)) with (scratch_of self w).
  set (frames := from_src (effective_src self src) (scratch_of self w)) in *.
  rewrite (filter_r_from_src _ _ Hh). fold frames.
  assert (Hfh : Forall has_header frames) by (apply from_src_header; exact Hh).
  rewrite (next_r_terminal _ Hfh), Hend.
  assert (Heh : has_header end_frame) by (eapply terminal_header; eauto).
  unfold mbind at 1, lift at 1. rewrite (header_seq _ Heh), Hseq.
  replace (128 + n - 128) with n by lia.
  rewrite (z_range_split 1 n i Hi).
  unfold mbind at 1.
  rewrite (rebuild_missing
             (InverterTransaction.set_time_rx (InverterPacketFragment.time_rx end_frame) self)
             frames (z_range 1 i) (z_range (i + 1) n) i [] inverter_hm dtu_hm w);
    try assumption; try lia; [reflexivity|].
  apply List.Forall_forall. intros j Hj. apply z_range_In in Hj. apply Hbefore. exact Hj.
Qed.

Lemma retransmit_request_layout (inverter_hm dtu_hm : bytes) (i : Z) :
  length inverter_hm = 4%nat -> length dtu_hm = 4%nat ->
  let request := fragment_of (retransmit_request inverter_hm dtu_hm i) in
  InverterPacketFragment.main_cmd request = Ok 0x15
  /\ slice 1 5 (InverterPacketFragment.frame request) = inverter_hm
  /\ slice 5 9 (InverterPacketFragment.frame request) = dtu_hm
  /\ InverterPacketFragment.seq request = Ok (0x80 + i)
  /\ InverterPacketFragment.data request = [].
Proof.
  destruct inverter_hm as [|t3 [|t2 [|t1 [|t0 [|? ?]]]]]; try discriminate.
  destruct dtu_hm as [|s3 [|s2 [|s1 [|s0 [|? ?]]]]]; try discriminate.
  intros _ _. repeat split.
Qed.

(** C6, as stated, fails in two ways. A radio is not enough: a
    transaction made from a request alone has no serials, and with the
    third and the first logged reply in its scratch (terminal [0x83],
    fragment 2 missing) [get_payload] raises the [ValueError] of
    [ser_to_hm_addr] and queues nothing. And not any terminal fragment
    counts: with an earlier terminal fragment [0x82] in the scratch the
    code reassembles two fragments and fails the CRC check, though the
    terminal fragment [0x83] is there and fragment 2 is missing. *)
Lemma missing_fragment_needs_serials_and_first_terminal :
  (let '(r, w0) := InverterTransaction.init 0 None SerNone SerNone true None None
                     (Some log_tx) world_start in
   match r with
   | Ok self =>
       let w := append_all self [fragment_of log_rx3; fragment_of log_rx1] w0 in
       InverterTransaction.radio self = true
       /\ scratch_of self w = [fragment_of log_rx3; fragment_of log_rx1]
       /\ from_src (effective_src self ANone) (scratch_of self w) = scratch_of self w
       /\ seq_of (fragment_of log_rx3) = 0x80 + 3
       /\ seq_of (fragment_of log_rx1) = 1
       /\ fst (fst (InverterTransaction.get_payload self ANone w))
          = Raise (ValueError InvalidLiteral)
       /\ tx_queue (snd (InverterTransaction.get_payload self ANone w)) = tx_queue w
   | Raise _ => False
   end)
  /\ (let w := world_with [fragment_of early_terminal_frame; fragment_of log_rx3;
                           fragment_of log_rx1] in
      parse 0 early_terminal_frame = Ok (fragment_of early_terminal_frame)
      /\ from_src (effective_src log_transaction ANone) (scratch_of log_transaction w)
         = scratch_of log_transaction w
      /\ seq_of (fragment_of early_terminal_frame) = 0x80 + 2
      /\ seq_of (fragment_of log_rx3) = 0x80 + 3
      /\ seq_of (fragment_of log_rx1) = 1
      /\ InverterTransaction.radio log_transaction = true
      /\ fst (fst (InverterTransaction.get_payload log_transaction ANone w))
         = Raise (ValueError PayloadFailedCrc)
      /\ tx_queue (snd (InverterTransaction.get_payload log_transaction ANone w))
         = tx_queue w).
Proof. vm_compute. repeat split. Qed.

(** C6, amended: on a transaction with a radio whose two serials convert
    to addresses and whose scratch holds fragments of at least ten bytes,
    when the first terminal fragment from the source announces [n >= 2]
    fragments and [i] is the least number in [1, n) that no fragment from
    the source carries, [get_payload] raises [BufferError] for frame [i]
    and appends one request to the queue: preamble [0x15], the inverter
    address, the DTU address, the byte [0x80 + i], no data, the CRC-8. The
    list objects, the scratch among them, are as before. *)
Theorem get_payload_missing_fragment (self : InverterTransaction.t) (src : pyaddr)
    (w : World) (end_frame : InverterPacketFragment.t) (n i : Z)
    (inverter_hm dtu_hm : bytes) :
  InverterTransaction.radio self = true ->
  ser_to_hm_addr (InverterTransaction.inverter_ser self) = Ok inverter_hm ->
  ser_to_hm_addr (InverterTransaction.dtu_ser self) = Ok dtu_hm ->
  Forall has_header (scratch_of self w) ->
  terminal (from_src (effective_src self src) (scratch_of self w)) = Some end_frame ->
  seq_of end_frame = 0x80 + n -> is_byte (seq_of end_frame) -> 2 <= n ->
  1 <= i < n ->
  (forall j, 1 <= j < i ->
     Exists (fun f => seq_of f = j) (from_src (effective_src self src) (scratch_of self w))) ->
  Forall (fun f => seq_of f <> i) (from_src (effective_src self src) (scratch_of self w)) ->
  exists request w',
    InverterTransaction.get_payload self src w
    = (Raise (BufferError (FrameMissing i)),
       InverterTransaction.set_time_rx (InverterPacketFragment.time_rx end_frame) self, w')
    /\ tx_queue w' = tx_queue w ++ [request]
    /\ lists w' = lists w
    /\ scratch_of self w' = scratch_of self w
    /\ request = [0x15] ++ inverter_hm ++ dtu_hm ++ [0x80 + i]
                 ++ [f_crc8 ([0x15] ++ inverter_hm ++ dtu_hm ++ [0x80 + i])]
    /\ InverterPacketFragment.main_cmd (fragment_of request) = Ok 0x15
    /\ slice 1 5 request = inverter_hm
    /\ slice 5 9 request = dtu_hm
    /\ InverterPacketFragment.seq (fragment_of request) = Ok (0x80 + i)
    /\ InverterPacketFragment.data (fragment_of request) = [].
Proof.
  intros Hradio Hinv Hdtu Hh Hend Hseq Hbyte Hn Hi Hbefore Hmiss.
  exists (retransmit_request inverter_hm dtu_hm i).
  exists (set_tx_queue (tx_queue w ++ [retransmit_request inverter_hm dtu_hm i]) w).
  destruct (ser_to_hm_addr_bytes _ _ Hinv) as [Hli _].
  destruct (ser_to_hm_addr_bytes _ _ Hdtu) as [Hld _].
  destruct (retransmit_request_layout inverter_hm dtu_hm i Hli Hld) as (L1 & L2 & L3 & L4 & L5).
  split.
  - apply (get_payload_requests_missing self src w end_frame n i inverter_hm dtu_hm);
      try assumption.
    + unfold is_byte in Hbyte. lia.
    + intros j Hj. apply first_with_seq_some. apply Hbefore. exact Hj.
    + apply first_with_seq_none. exact Hmiss.
  - repeat split; try assumption.
    unfold retransmit_request. cbn zeta. repeat rewrite <- app_assoc. reflexivity.
Qed.

Lemma get_payload_missing_fragment_witness :
  exists request w',
    InverterTransaction.get_payload log_transaction ANone
      (world_with [fragment_of log_rx3; fragment_of log_rx1])
    = (Raise (BufferError (FrameMissing 2)),
       InverterTransaction.set_time_rx 0 log_transaction, w')
    /\ tx_queue w' = [] ++ [request]
    /\ lists w' = lists (world_with [fragment_of log_rx3; fragment_of log_rx1])
    /\ scratch_of log_transaction w' = [fragment_of log_rx3; fragment_of log_rx1]
    /\ request = [0x15] ++ [0x72; 0x22; 0x01; 0x43] ++ [0x78; 0x56; 0x34; 0x12] ++ [0x80 + 2]
                 ++ [f_crc8 ([0x15] ++ [0x72; 0x22; 0x01; 0x43] ++ [0x78; 0x56; 0x34; 0x12]
                             ++ [0x80 + 2])]
    /\ InverterPacketFragment.main_cmd (fragment_of request) = Ok 0x15
    /\ slice 1 5 request = [0x72; 0x22; 0x01; 0x43]
    /\ slice 5 9 request = [0x78; 0x56; 0x34; 0x12]
    /\ InverterPacketFragment.seq (fragment_of request) = Ok (0x80 + 2)
    /\ InverterPacketFragment.data (fragment_of request) = [].
Proof.
  apply (get_payload_missing_fragment log_transaction ANone
           (world_with [fragment_of log_rx3; fragment_of log_rx1])
           (fragment_of log_rx3) 3 2 [0x72; 0x22; 0x01; 0x43] [0x78; 0x56; 0x34; 0x12]).
  - reflexivity.
  - vm_compute. reflexivity.
  - vm_compute. reflexivity.
  - vm_compute. repeat constructor; lia.
  - vm_compute. reflexivity.
  - vm_compute. reflexivity.
  - unfold is_byte.
    replace (seq_of (fragment_of log_rx3)) with 131 by (vm_compute; reflexivity). lia.
  - lia.
  - lia.
  - intros j Hj. assert (j = 1) as -> by lia.
    vm_compute. apply Exists_cons_tl. apply Exists_cons_hd. reflexivity.
  - vm_compute. repeat constructor; discriminate.
Defined.

(** C1, as stated, fails: for a scratch that holds one terminal fragment
    ([seq = 0x81]) whose data end in their Modbus CRC-16, [get_payload]
    returns the data with these two bytes, not without them. *)
Lemma get_payload_keeps_crc :
  let f := fragment_of single_fragment_frame in
  let w := world_with [f] in
  terminal (from_src (effective_src log_transaction ANone) (scratch_of log_transaction w)) = Some f
  /\ seq_of f = 0x80 + 1
  /\ crc_m_valid (InverterPacketFragment.data f)
  /\ fst (fst (InverterTransaction.get_payload log_transaction ANone w))
     = Ok (0x15, InverterPacketFragment.data f)
  /\ fst (fst (InverterTransaction.get_payload log_transaction ANone w))
     <> Ok (0x15, but_last 2 (InverterPacketFragment.data f)).
Proof.
  cbn zeta. split; [vm_compute; reflexivity|]. split; [vm_compute; reflexivity|].
  split; [exists 0x7e, 0x58; vm_compute; split; reflexivity|].
  split; [vm_compute; reflexivity|]. vm_compute. discriminate.
Qed.

(** C1, amended: when the first terminal fragment from the source
    announces [n] fragments, every number in [1, n) is carried by a
    fragment from the source, and the data regions, in sequence order and
    each taken from the first fragment that carries the number, end in the
    Modbus CRC-16 of what precedes, [get_payload] returns the terminal
    fragment's [main_cmd] with that concatenation, the two CRC bytes
    included; for [n = 1] this is the terminal fragment's data. *)
Theorem get_payload_returns_payload_with_crc (self : InverterTransaction.t) (src : pyaddr)
    (w : World) (end_frame : InverterPacketFragment.t) (n : Z) :
  Forall has_header (scratch_of self w) ->
  terminal (from_src (effective_src self src) (scratch_of self w)) = Some end_frame ->
  seq_of end_frame = 0x80 + n ->
  (forall i, 1 <= i < n ->
     Exists (fun f => seq_of f = i) (from_src (effective_src self src) (scratch_of self w))) ->
  crc_m_valid
    (reassembled (from_src (effective_src self src) (scratch_of self w)) end_frame n) ->
  InverterTransaction.get_payload self src w
  = (Ok (main_cmd_of end_frame,
         reassembled (from_src (effective_src self src) (scratch_of self w)) end_frame n),
     InverterTransaction.set_time_rx (InverterPacketFragment.time_rx end_frame) self, w)
  /\ (n = 1 ->
      reassembled (from_src (effective_src self src) (scratch_of self w)) end_frame n
      = InverterPacketFragment.data end_frame).
Proof.
  intros Hh Hend Hseq Hall Hcrc. split.
  - apply get_payload_reassembles; try assumption.
    intros i Hi. apply first_with_seq_some. apply Hall. exact Hi.
  - intros ->. reflexivity.
Qed.

Lemma get_payload_returns_payload_with_crc_witness :
  InverterTransaction.get_payload log_transaction ANone
    (world_with [fragment_of log_rx3; fragment_of log_rx1; fragment_of log_rx2])
  = (Ok (0x95, log_status_payload ++ [0x0c; 0x35]),
     InverterTransaction.set_time_rx 0 log_transaction,
     world_with [fragment_of log_rx3; fragment_of log_rx1; fragment_of log_rx2]).
Proof.
  refine (eq_trans (proj1 (get_payload_returns_payload_with_crc log_transaction ANone
           (world_with [fragment_of log_rx3; fragment_of log_rx1; fragment_of log_rx2])
           (fragment_of log_rx3) 3 _ _ _ _ _)) _).
  - vm_compute. repeat constructor; lia.
  - vm_compute. reflexivity.
  - vm_compute. reflexivity.
  - intros i Hi. assert (i = 1 \/ i = 2) as [-> | ->] by lia.
    + vm_compute. apply Exists_cons_tl. apply Exists_cons_hd. reflexivity.
    + vm_compute. apply Exists_cons_tl. apply Exists_cons_tl. apply Exists_cons_hd. reflexivity.
  - exists 0x0c, 0x35. vm_compute. split; reflexivity.
  - vm_compute. reflexivity.
Defined.

(** * Duplicates in the scratch *)

Lemma get_payload_unfold (self : InverterTransaction.t) (src : pyaddr) (w : World) :
  InverterTransaction.get_payload self src w
  = match filter_r (InverterTransaction.src_is (effective_src self src)) (scratch_of self w) with
    | Raise e => (Raise e, self, w)
    | Ok frames =>
        match next_r InverterTransaction.seq_is_end frames with
        | Raise e => (Raise e, self, w)
        | Ok None => let '(r, w) := without_end_frame self frames w in (r, self, w)
        | Ok (Some end_frame) =>
            let self :=
              InverterTransaction.set_time_rx (InverterPacketFragment.time_rx end_frame) self in
            let '(r, w) := with_end_frame self frames end_frame w in (r, self, w)
        end
    end.
Proof. reflexivity. Qed.

Lemma queue_only_lift {A} (r : res A) : queue_only (lift r).
Proof. intros q n. exists r, q. reflexivity. Qed.

Lemma queue_only_mret {A} (a : A) : queue_only (mret a).
Proof. intros q n. exists (Ok a), q. reflexivity. Qed.

Lemma queue_only_mbind {A B} (m : M A) (k : A -> M B) :
  queue_only m -> (forall a, queue_only (k a)) -> queue_only (mbind m k).
Proof.
  intros Hm Hk q n. destruct (Hm q n) as (r & q1 & H1). destruct r as [a|e].
  - destruct (Hk a q1 n) as (r2 & q2 & H2). exists r2, q2. intros ls.
    unfold mbind. rewrite H1. apply H2.
  - exists (Raise e), q1. intros ls. unfold mbind. rewrite H1. reflexivity.
Qed.

Lemma queue_only_queue_tx (self : InverterTransaction.t) (frame : bytes) :
  queue_only (InverterTransaction.queue_tx self frame).
Proof.
  intros q n. unfold InverterTransaction.queue_tx.
  destruct (negb (InverterTransaction.radio self)).
  - exists (Ok false), q. reflexivity.
  - exists (Ok true), (q ++ [frame]). reflexivity.
Qed.

Lemma queue_only_retransmit_frame (self : InverterTransaction.t) (frame_id : Z) :
  queue_only (InverterTransaction.retransmit_frame self frame_id).
Proof.
  unfold InverterTransaction.retransmit_frame.
  destruct (negb (InverterTransaction.radio self)); [apply queue_only_mret|].
  apply queue_only_mbind; [apply queue_only_lift|]. intros subcmd.
  apply queue_only_mbind; [apply queue_only_lift|]. intros packet.
  apply queue_only_mbind; [apply queue_only_queue_tx|]. intros queued.
  apply queue_only_mret.
Qed.

Lemma queue_only_rebuild (self : InverterTransaction.t)
    (frames : list InverterPacketFragment.t) (ids : list Z) (acc : bytes) :
  queue_only (InverterTransaction.rebuild self frames ids acc).
Proof.
  revert acc. induction ids as [|i ids IH]; intros acc; [apply queue_only_mret|].
  cbn [InverterTransaction.rebuild].
  apply queue_only_mbind; [apply queue_only_lift|]. intros [f|]; [apply IH|].
  apply queue_only_mbind; [apply queue_only_retransmit_frame|]. intros _.
  apply queue_only_lift.
Qed.

Lemma queue_only_with_end_frame (self : InverterTransaction.t)
    (frames : list InverterPacketFragment.t) (end_frame : InverterPacketFragment.t) :
  queue_only (with_end_frame self frames end_frame).
Proof.
  unfold with_end_frame.
  apply queue_only_mbind; [apply queue_only_lift|]. intros q.
  apply queue_only_mbind; [apply queue_only_rebuild|]. intros payload.
  apply queue_only_mbind; [apply queue_only_lift|]. intros pcrc.
  destruct (negb _); [apply queue_only_lift|].
  apply queue_only_mbind; [apply queue_only_lift|]. intros mc. apply queue_only_mret.
Qed.

(** appending to a list object commutes with a computation on the queue *)
Lemma queue_only_set_list {A} (m : M A) (l : loc) (fs : list InverterPacketFragment.t)
    (w : World) :
  queue_only m ->
  m (set_list l fs w) = (fst (m w), set_list l fs (snd (m w)))
  /\ lists (snd (m w)) = lists w.
Proof.
  intros Hm. destruct (Hm (tx_queue w) (nrf w)) as (r & q' & H).
  destruct w as [q ls n]. cbn in H. unfold set_list. cbn [tx_queue lists nrf].
  rewrite (H ls), (H (<[l:=fs]> ls)). split; reflexivity.
Qed.

Lemma from_src_app (a : pyaddr) (l : list InverterPacketFragment.t)
    (x : InverterPacketFragment.t) :
  from_src a (l ++ [x]) = from_src a l ++ (if int_eq (src_of x) a then [x] else []).
Proof. unfold from_src. rewrite List.filter_app. reflexivity. Qed.

Lemma find_app_some {A} (p : A -> bool) (l l2 : list A) (x : A) :
  find p l = Some x -> find p (l ++ l2) = Some x.
Proof.
  induction l as [|y l IH]; [discriminate|]. cbn [app find].
  destruct (p y); [trivial | exact IH].
Qed.

Lemma find_app_false {A} (p : A -> bool) (l : list A) (x : A) :
  p x = false -> find p (l ++ [x]) = find p l.
Proof.
  intros Hx. induction l as [|y l IH]; cbn [app find]; [rewrite Hx; reflexivity|].
  destruct (p y); [reflexivity | exact IH].
Qed.

(** A search by sequence number does not see a fragment appended after
    one with the same number. *)
Lemma find_app_duplicate (p : InverterPacketFragment.t -> bool)
    (l : list InverterPacketFragment.t) (x : InverterPacketFragment.t) :
  (forall f g, seq_of f = seq_of g -> p f = p g) ->
  Exists (fun f => seq_of f = seq_of x) l ->
  find p (l ++ [x]) = find p l.
Proof.
  intros Hp Hdup. destruct (p x) eqn:Hx; [|apply find_app_false; exact Hx].
  apply List.Exists_exists in Hdup. destruct Hdup as (f & Hin & Hf).
  destruct (find p l) as [g|] eqn:Hg; [apply find_app_some; exact Hg|].
  pose proof (List.find_none _ _ Hg f Hin) as Hnone.
  rewrite (Hp f x Hf) in Hnone. congruence.
Qed.

Lemma terminal_app_duplicate (l : list InverterPacketFragment.t) (x : InverterPacketFragment.t) :
  Exists (fun f => seq_of f = seq_of x) l -> terminal (l ++ [x]) = terminal l.
Proof.
  apply find_app_duplicate. intros f g Hfg. rewrite Hfg. reflexivity.
Qed.

Lemma first_with_seq_app_duplicate (i : Z) (l : list InverterPacketFragment.t)
    (x : InverterPacketFragment.t) :
  Exists (fun f => seq_of f = seq_of x) l -> first_with_seq i (l ++ [x]) = first_with_seq i l.
Proof.
  apply find_app_duplicate. intros f g Hfg. rewrite Hfg. reflexivity.
Qed.

Lemma max_pick_app (best : InverterPacketFragment.t) (l : list InverterPacketFragment.t)
    (x : InverterPacketFragment.t) :
  max_pick best (l ++ [x])
  = if seq_of (max_pick best l) <? seq_of x then x else max_pick best l.
Proof.
  revert best. induction l as [|y l IH]; intros best; [reflexivity|].
  cbn [app max_pick]. destruct (seq_of best <? seq_of y); apply IH.
Qed.

Lemma max_pick_ge_best (best : InverterPacketFragment.t) (l : list InverterPacketFragment.t) :
  seq_of best <= seq_of (max_pick best l).
Proof.
  revert best. induction l as [|y l IH]; intros best; [cbn; lia|].
  cbn [max_pick]. destruct (seq_of best <? seq_of y) eqn:Hlt.
  - apply Z.ltb_lt in Hlt. specialize (IH y). lia.
  - apply IH.
Qed.

Lemma max_pick_ge (best : InverterPacketFragment.t) (l : list InverterPacketFragment.t)
    (f : InverterPacketFragment.t) :
  In f (best :: l) -> seq_of f <= seq_of (max_pick best l).
Proof.
  revert best. induction l as [|y l IH]; intros best [<-|Hin].
  - cbn. lia.
  - destruct Hin.
  - apply max_pick_ge_best.
  - cbn [max_pick]. destruct (seq_of best <? seq_of y) eqn:Hlt.
    + apply IH. destruct Hin as [<-|Hin]; [left; reflexivity | right; exact Hin].
    + apply Z.ltb_ge in Hlt. destruct Hin as [<-|Hin].
      * pose proof (max_pick_ge_best best l). lia.
      * apply IH. right. exact Hin.
Qed.

Lemma max_loop_pick (best : InverterPacketFragment.t) (l : list InverterPacketFragment.t) :
  Forall has_header l ->
  max_loop InverterPacketFragment.seq best (seq_of best) l = Ok (max_pick best l).
Proof.
  intros Hl. revert best. induction Hl as [|y l Hy _ IH]; intros best; [reflexivity|].
  cbn [max_loop max_pick]. rewrite (header_seq y Hy). cbn [rbind].
  destruct (seq_of best <? seq_of y); apply IH.
Qed.

Lemma max_r_app_duplicate (frames : list InverterPacketFragment.t)
    (x : InverterPacketFragment.t) :
  Forall has_header frames -> has_header x ->
  Exists (fun f => seq_of f = seq_of x) frames ->
  max_r InverterPacketFragment.seq (frames ++ [x]) = max_r InverterPacketFragment.seq frames.
Proof.
  intros Hh Hx Hdup. destruct frames as [|f0 l]; [inversion Hdup|].
  inversion Hh as [|? ? H0 Hl]; subst.
  cbn [app max_r]. rewrite (header_seq f0 H0). cbn [rbind].
  rewrite !max_loop_pick; [|exact Hl | apply Forall_app_2; [exact Hl | repeat constructor; exact Hx]].
  rewrite max_pick_app.
  apply List.Exists_exists in Hdup. destruct Hdup as (f & Hin & Hf).
  pose proof (max_pick_ge f0 l f Hin) as Hge.
  destruct (seq_of (max_pick f0 l) <? seq_of x) eqn:Hlt; [|reflexivity].
  apply Z.ltb_lt in Hlt. lia.
Qed.

Lemma rebuild_ext (self : InverterTransaction.t) (fr fr' : list InverterPacketFragment.t)
    (ids : list Z) (acc : bytes) (w : World) :
  Forall has_header fr -> Forall has_header fr' ->
  (forall i, first_with_seq i fr' = first_with_seq i fr) ->
  InverterTransaction.rebuild self fr' ids acc w = InverterTransaction.rebuild self fr ids acc w.
Proof.
  intros Hfr Hfr' Heq. revert acc w. induction ids as [|i ids IH]; intros acc w; [reflexivity|].
  cbn [InverterTransaction.rebuild]. unfold mbind at 1 3, lift at 1 2.
  rewrite (next_r_first_with_seq i fr' Hfr'), (next_r_first_with_seq i fr Hfr), Heq.
  destruct (first_with_seq i fr); [apply IH | reflexivity].
Qed.

Lemma py_int16_raises (s : string) (e : exc) :
  py_int16 s = Raise e -> e = ValueError InvalidLiteral.
Proof.
  unfold py_int16. intros H.
  repeat match type of H with
         | context [match ?x with _ => _ end] => destruct x
         end; inversion H; reflexivity.
Qed.

Lemma ser_to_hm_addr_raises (ser : serial) (e : exc) :
  ser_to_hm_addr ser = Raise e -> e = ValueError InvalidLiteral \/ e = StructError.
Proof.
  unfold ser_to_hm_addr. destruct (py_int16 _) as [bcd|e'] eqn:Hp; cbn [rbind].
  - unfold pack_L. destruct (_ && _); intros H; inversion H. right. reflexivity.
  - intros H. inversion H; subst. left. exact (py_int16_raises _ _ Hp).
Qed.

Lemma retransmit_frame_raises (self : InverterTransaction.t) (frame_id : Z)
    (w w2 : World) (e : exc) :
  InverterTransaction.retransmit_frame self frame_id w = (Raise e, w2) ->
  e = OverflowError \/ e = ValueError InvalidLiteral \/ e = StructError.
Proof.
  unfold InverterTransaction.retransmit_frame.
  destruct (negb (InverterTransaction.radio self)); [discriminate|].
  unfold mbind, lift, to_bytes_1.
  destruct (_ && _); [|intros H; inversion H; auto].
  unfold compose_esb_fragment. cbn [length Nat.ltb Nat.leb].
  destruct (ser_to_hm_addr (InverterTransaction.inverter_ser self)) as [a|e1] eqn:H1;
    cbn [rbind].
  2:{ intros H; inversion H; subst. right. exact (ser_to_hm_addr_raises _ _ H1). }
  destruct (ser_to_hm_addr (InverterTransaction.dtu_ser self)) as [b|e2] eqn:H2;
    cbn [rbind].
  2:{ intros H; inversion H; subst. right. exact (ser_to_hm_addr_raises _ _ H2). }
  unfold pack_B. destruct (_ && _); cbn [rbind].
  - unfold InverterTransaction.queue_tx, mret.
    destruct (negb (InverterTransaction.radio self)); discriminate.
  - intros H; inversion H; auto.
Qed.

Lemma max_pick_header (best : InverterPacketFragment.t) (l : list InverterPacketFragment.t) :
  has_header best -> Forall has_header l -> has_header (max_pick best l).
Proof.
  intros Hb Hl. revert best Hb. induction Hl as [|y l Hy _ IH]; intros best Hb; [exact Hb|].
  cbn [max_pick]. destruct (seq_of best <? seq_of y); apply IH; assumption.
Qed.

Lemma without_end_frame_append (self : InverterTransaction.t)
    (frames : list InverterPacketFragment.t) (f' : InverterPacketFragment.t) (w : World) :
  Forall has_header frames ->
  without_end_frame self frames (snd (InverterTransaction.frame_append self f' w))
  = (one_more_in_scratch (fst (without_end_frame self frames w)),
     snd (InverterTransaction.frame_append self f' (snd (without_end_frame self frames w)))).
Proof.
  intros Hh. unfold without_end_frame, mbind, lift.
  destruct frames as [|f0 l].
  { reflexivity. }
  inversion Hh as [|? ? H0 Hl]; subst.
  cbn [max_r]. rewrite (header_seq f0 H0). cbn [rbind].
  rewrite (max_loop_pick f0 l Hl).
  rewrite (header_seq _ (max_pick_header f0 l H0 Hl)).
  set (i := seq_of (max_pick f0 l) + 1).
  unfold InverterTransaction.frame_append. cbn [snd].
  destruct (queue_only_set_list (InverterTransaction.retransmit_frame self i)
              (InverterTransaction.scratch self)
              (read_list w (InverterTransaction.scratch self) ++ [f']) w
              (queue_only_retransmit_frame self i)) as [Hc Hls].
  rewrite Hc.
  destruct (InverterTransaction.retransmit_frame self i w) as [[x|e] w2] eqn:Hr; cbn [fst snd] in *.
  - cbn [one_more_in_scratch]. unfold read_list, set_list. cbn [lists].
    rewrite lookup_insert_eq, Hls. cbn [default]. unfold id.
    rewrite length_app, Nat.add_1_r. reflexivity.
  - destruct (retransmit_frame_raises _ _ _ _ _ Hr) as [->|[->| ->]];
      cbn [one_more_in_scratch]; unfold read_list; rewrite Hls; reflexivity.
Qed.

Lemma with_end_frame_ext (self : InverterTransaction.t)
    (fr fr' : list InverterPacketFragment.t) (e : InverterPacketFragment.t) (w : World) :
  Forall has_header fr -> Forall has_header fr' ->
  (forall i, first_with_seq i fr' = first_with_seq i fr) ->
  with_end_frame self fr' e w = with_end_frame self fr e w.
Proof.
  intros Hfr Hfr' Heq. unfold with_end_frame, mbind at 1 5, lift at 1 4.
  destruct (InverterPacketFragment.seq e) as [q|err]; [|reflexivity].
  unfold mbind at 1 4. rewrite (rebuild_ext self fr fr' _ _ w Hfr Hfr' Heq). reflexivity.
Qed.

Lemma with_end_frame_append (self : InverterTransaction.t)
    (frames : list InverterPacketFragment.t) (e f' : InverterPacketFragment.t)
    (owner : InverterTransaction.t) (w : World) :
  with_end_frame self frames e (snd (InverterTransaction.frame_append owner f' w))
  = (fst (with_end_frame self frames e w),
     snd (InverterTransaction.frame_append owner f' (snd (with_end_frame self frames e w)))).
Proof.
  unfold InverterTransaction.frame_append. cbn [snd].
  destruct (queue_only_set_list (with_end_frame self frames e)
              (InverterTransaction.scratch owner)
              (read_list w (InverterTransaction.scratch owner) ++ [f']) w
              (queue_only_with_end_frame self frames e)) as [Hc Hls].
  rewrite Hc. unfold read_list. rewrite Hls. reflexivity.
Qed.

Lemma without_end_frame_ext (self : InverterTransaction.t)
    (frames : list InverterPacketFragment.t) (x : InverterPacketFragment.t) (w : World) :
  Forall has_header frames -> has_header x ->
  Exists (fun f => seq_of f = seq_of x) frames ->
  without_end_frame self (frames ++ [x]) w = without_end_frame self frames w.
Proof.
  intros Hh Hx Hdup. unfold without_end_frame, mbind at 1 4, lift at 1 3.
  rewrite (max_r_app_duplicate frames x Hh Hx Hdup). reflexivity.
Qed.

(** C7, as stated, fails: a second fragment with the [(src, seq)] of one
    in the scratch is appended after it, both stay, and [get_payload]
    reassembles from the data of the one that came first. *)
Lemma duplicate_does_not_replace :
  let f1 := fragment_of single_fragment_frame in
  let f2 := fragment_of second_fragment_frame in
  let w1 := snd (InverterTransaction.frame_append log_transaction f1 (world_with [])) in
  let w2 := snd (InverterTransaction.frame_append log_transaction f2 w1) in
  src_of f1 = src_of f2 /\ seq_of f1 = seq_of f2
  /\ InverterPacketFragment.data f1 <> InverterPacketFragment.data f2
  /\ crc_m_valid (InverterPacketFragment.data f2)
  /\ scratch_of log_transaction w2 = [f1; f2]
  /\ fst (fst (InverterTransaction.get_payload log_transaction ANone w2))
     = Ok (0x15, InverterPacketFragment.data f1)
  /\ fst (fst (InverterTransaction.get_payload log_transaction ANone w2))
     <> Ok (0x15, InverterPacketFragment.data f2).
Proof.
  cbn zeta. split; [vm_compute; reflexivity|]. split; [vm_compute; reflexivity|].
  split; [vm_compute; discriminate|].
  split; [exists 0x61, 0x61; vm_compute; split; reflexivity|].
  split; [vm_compute; reflexivity|]. split; [vm_compute; reflexivity|].
  vm_compute. discriminate.
Qed.

(** C7, amended: [frame_append] puts the fragment at the end of the
    scratch and keeps every entry. When the scratch already holds a
    fragment with the same [(src, seq)], [get_payload] does afterwards what
    it did before: the same result, from the data of the earlier fragment,
    the same update of the instance and the same requests queued; only the
    'Missing packet' message raised for want of a terminal fragment counts
    one fragment more. *)
Theorem duplicate_fragment_is_appended_and_ignored (self : InverterTransaction.t)
    (src : pyaddr) (w : World) (f' : InverterPacketFragment.t) :
  Forall has_header (scratch_of self w) -> has_header f' ->
  Exists (fun f => src_of f = src_of f' /\ seq_of f = seq_of f') (scratch_of self w) ->
  scratch_of self (snd (InverterTransaction.frame_append self f' w))
  = scratch_of self w ++ [f']
  /\ InverterTransaction.get_payload self src (snd (InverterTransaction.frame_append self f' w))
     = (match terminal (from_src (effective_src self src) (scratch_of self w)) with
        | Some _ => fst (fst (InverterTransaction.get_payload self src w))
        | None => one_more_in_scratch (fst (fst (InverterTransaction.get_payload self src w)))
        end,
        snd (fst (InverterTransaction.get_payload self src w)),
        snd (InverterTransaction.frame_append self f'
               (snd (InverterTransaction.get_payload self src w)))).
Proof.
  intros Hh Hf' Hdup.
  destruct (frame_append_scratch self f' w) as [Hscr _].
  split; [exact Hscr|].
  rewrite !get_payload_unfold, Hscr.
  set (a := effective_src self src).
  assert (Hh' : Forall has_header (scratch_of self w ++ [f'])).
  { apply Forall_app_2; [exact Hh | repeat constructor; exact Hf']. }
  rewrite (filter_r_from_src a _ Hh'), (filter_r_from_src a _ Hh), from_src_app.
  set (frames := from_src a (scratch_of self w)).
  assert (Hfh : Forall has_header frames) by (apply from_src_header; exact Hh).
  assert (Hsame : forall frames',
            frames' = frames ++ (if int_eq (src_of f') a then [f'] else []) ->
            Forall has_header frames'
            /\ terminal frames' = terminal frames
            /\ (forall i, first_with_seq i frames' = first_with_seq i frames)
            /\ (forall w0, without_end_frame self frames' w0 = without_end_frame self frames w0)).
  { intros frames' ->. destruct (int_eq (src_of f') a) eqn:Hsrc.
    - assert (Hd : Exists (fun f => seq_of f = seq_of f') frames).
      { apply List.Exists_exists in Hdup. destruct Hdup as (f & Hin & Hs & Hq).
        apply List.Exists_exists. exists f. split; [|exact Hq].
        apply List.filter_In. split; [exact Hin|]. rewrite Hs. exact Hsrc. }
      split; [apply Forall_app_2; [exact Hfh | repeat constructor; exact Hf']|].
      split; [apply terminal_app_duplicate; exact Hd|].
      split; [intros i; apply first_with_seq_app_duplicate; exact Hd|].
      intros w0. apply without_end_frame_ext; assumption.
    - rewrite app_nil_r. repeat split. exact Hfh. }
  destruct (Hsame _ eq_refl) as (Hfh' & Hterm & Hfirst & Hwo).
  set (frames' := frames ++ (if int_eq (src_of f') a then [f'] else [])) in *.
  rewrite (next_r_terminal _ Hfh'), (next_r_terminal _ Hfh), Hterm.
  destruct (terminal frames) as [e|].
  - cbn zeta.
    rewrite (with_end_frame_ext _ frames frames' e _ Hfh Hfh' Hfirst).
    rewrite with_end_frame_append.
    destruct (with_end_frame _ frames e w) as [r1 w1]. reflexivity.
  - rewrite Hwo, (without_end_frame_append self frames f' w Hfh).
    destruct (without_end_frame self frames w) as [r1 w1]. reflexivity.
Qed.

Lemma duplicate_fragment_is_appended_and_ignored_witness :
  scratch_of log_transaction
    (snd (InverterTransaction.frame_append log_transaction
            (fragment_of second_fragment_frame)
            (world_with [fragment_of single_fragment_frame])))
  = [fragment_of single_fragment_frame; fragment_of second_fragment_frame]
  /\ fst (fst (InverterTransaction.get_payload log_transaction ANone
                 (snd (InverterTransaction.frame_append log_transaction
                         (fragment_of second_fragment_frame)
                         (world_with [fragment_of single_fragment_frame])))))
     = Ok (0x15, InverterPacketFragment.data (fragment_of single_fragment_frame)).
Proof.
  destruct (duplicate_fragment_is_appended_and_ignored log_transaction ANone
              (world_with [fragment_of single_fragment_frame])
              (fragment_of second_fragment_frame)) as [H1 H2].
  - vm_compute. repeat constructor; lia.
  - vm_compute. lia.
  - apply Exists_cons_hd. vm_compute. split; reflexivity.
  - split; [rewrite H1; vm_compute; reflexivity|].
    rewrite H2. vm_compute. reflexivity.
Defined.

(** * The HM600 status decoder *)

Lemma ok_float_ne (x y : float) :
  PrimFloat.Leibniz.eqb x y = false -> PrimFloat.Leibniz.eqb y y = true -> Ok x <> Ok y.
Proof. intros Hne Hrefl Heq. inversion Heq as [H]. subst y. congruence. Qed.

(** C3, as stated, fails: at the offsets of [Hm600Decode0B] the 41 bytes
    printed in the specification do not give the values it lists; the
    first string's voltage, the big-endian u16 at offset 2, is 25.7. *)
Lemma spec_status_payload_decodes_otherwise :
  length spec_status_payload = 41%nat
  /\ Hm600Decode0B.dc_voltage_0 spec_status_payload = Ok 25.7%float
  /\ Hm600Decode0B.dc_voltage_0 spec_status_payload <> Ok 33.4%float
  /\ Hm600Decode0B.dc_current_0 spec_status_payload <> Ok 1.57%float
  /\ Hm600Decode0B.ac_voltage_0 spec_status_payload <> Ok 227.4%float.
Proof.
  split; [reflexivity|]. split; [vm_compute; reflexivity|].
  repeat split; vm_compute; apply ok_float_ne; vm_compute; reflexivity.
Qed.

(** The payload the decoder is written for is the one [get_payload]
    reassembles from the three logged replies. *)
Example log_status_payload_reassembled :
  fst (fst (InverterTransaction.get_payload log_transaction ANone
              (world_with [fragment_of log_rx1; fragment_of log_rx2; fragment_of log_rx3])))
  = Ok (0x95, log_status_payload ++ [0x0c; 0x35]).
Proof. vm_compute. reflexivity. Qed.

(** The phase current of the HM600 decoder is the raw value over 10; the
    HM300 and HM1200 decoders divide theirs by 100. *)
Example hm600_ac_current_over_10 :
  Hm600Decode0B.ac_current_0 log_status_payload = Ok (py_truediv 44 10)
  /\ Hm600Decode0B.ac_current_0 log_status_payload = Ok 4.4%float
  /\ Hm600Decode0B.ac_current_0 log_status_payload <> Ok 0.44%float.
Proof.
  split; [vm_compute; reflexivity|]. split; [vm_compute; reflexivity|].
  vm_compute. apply ok_float_ne; vm_compute; reflexivity.
Qed.

(** C3, amended: decoding the 42 payload bytes of the three logged replies
    (data regions in sequence order, 00 01 01 4E ... 00 D8 00 06) gives
    string 1 V=33.4, I=1.57, P=52.2, string 2 V=33.6, I=1.57, P=52.8, AC
    V=227.4, 50.01 Hz, P=100.3 and 21.6 degrees; each string current is the
    big-endian u16 at its offset (4 and 10) divided by 100. *)
Theorem hm600_status_decoded :
  length log_status_payload = 42%nat
  /\ Hm600Decode0B.dc_voltage_0 log_status_payload = Ok 33.4%float
  /\ Hm600Decode0B.dc_current_0 log_status_payload = Ok 1.57%float
  /\ Hm600Decode0B.dc_power_0 log_status_payload = Ok 52.2%float
  /\ Hm600Decode0B.dc_voltage_1 log_status_payload = Ok 33.6%float
  /\ Hm600Decode0B.dc_current_1 log_status_payload = Ok 1.57%float
  /\ Hm600Decode0B.dc_power_1 log_status_payload = Ok 52.8%float
  /\ Hm600Decode0B.ac_voltage_0 log_status_payload = Ok 227.4%float
  /\ Hm600Decode0B.frequency log_status_payload = Ok 50.01%float
  /\ Hm600Decode0B.ac_power_0 log_status_payload = Ok 100.3%float
  /\ Hm600Decode0B.temperature log_status_payload = Ok 21.6%float
  /\ (forall response raw,
        StatusResponse.unpack_H_at response 4 = Ok raw ->
        Hm600Decode0B.dc_current_0 response = Ok (py_truediv raw 100))
  /\ (forall response raw,
        StatusResponse.unpack_H_at response 10 = Ok raw ->
        Hm600Decode0B.dc_current_1 response = Ok (py_truediv raw 100)).
Proof.
  repeat split; try (vm_compute; reflexivity).
  - intros response raw H. unfold Hm600Decode0B.dc_current_0. rewrite H. reflexivity.
  - intros response raw H. unfold Hm600Decode0B.dc_current_1. rewrite H. reflexivity.
Qed.

(** * Reassembly of a complete set of fragments, in any order *)

Lemma find_unique {A} (p : A -> bool) (l : list A) (x : A) :
  In x l -> p x = true -> (forall y, In y l -> p y = true -> y = x) -> find p l = Some x.
Proof.
  intros Hin Hx Huniq. induction l as [|a l IH]; [destruct Hin|].
  cbn [find]. destruct (p a) eqn:Ha.
  - f_equal. apply Huniq; [left; reflexivity | exact Ha].
  - destruct Hin as [->|Hin]; [congruence|].
    apply IH; [exact Hin|]. intros y Hy. apply Huniq. right. exact Hy.
Qed.

Lemma from_src_all (a : pyaddr) (l : list InverterPacketFragment.t) :
  Forall (fun f => int_eq (src_of f) a = true) l -> from_src a l = l.
Proof.
  induction 1 as [|f l Hf _ IH]; [reflexivity|].
  unfold from_src in *. cbn [List.filter]. rewrite Hf, IH. reflexivity.
Qed.

Lemma seq_byte_terminal (n k : nat) :
  (k < n)%nat -> (n <= 127)%nat -> (0x80 <? seq_byte n k) = true -> S k = n.
Proof.
  intros Hk Hn. unfold seq_byte. destruct (S k =? n)%nat eqn:He.
  - intros _. apply Nat.eqb_eq. exact He.
  - intros H. apply Z.ltb_lt in H. lia.
Qed.

Lemma seq_byte_number (n k : nat) (i : Z) :
  (k < n)%nat -> (n <= 127)%nat -> 1 <= i < Z.of_nat n -> seq_byte n k = i ->
  i = Z.of_nat (S k).
Proof.
  intros Hk Hn Hi. unfold seq_byte. destruct (S k =? n)%nat; lia.
Qed.

Section Family.
Variable g : nat -> InverterPacketFragment.t.
Variable n : nat.
Variable s : Z.
Hypothesis n_range : (1 <= n <= 127)%nat.
Hypothesis g_header : forall k, (k < n)%nat -> has_header (g k).
Hypothesis g_src : forall k, (k < n)%nat -> src_of (g k) = s.
Hypothesis g_seq : forall k, (k < n)%nat -> seq_of (g k) = seq_byte n k.
Variable fragments : list InverterPacketFragment.t.
Hypothesis arrival : Permutation fragments (map g (seq 0 n)).

Lemma family_In (y : InverterPacketFragment.t) :
  In y fragments <-> exists k, (k < n)%nat /\ y = g k.
Proof.
  split.
  - intros Hy. apply (Permutation_in _ arrival) in Hy. apply in_map_iff in Hy.
    destruct Hy as (k & <- & Hk). apply in_seq in Hk. exists k. split; [lia | reflexivity].
  - intros (k & Hk & ->). apply (Permutation_in _ (Permutation_sym arrival)).
    apply in_map. apply in_seq. lia.
Qed.

Lemma family_header : Forall has_header fragments.
Proof.
  apply List.Forall_forall. intros y Hy. apply family_In in Hy.
  destruct Hy as (k & Hk & ->). apply g_header. exact Hk.
Qed.

Lemma family_from_src : from_src (AInt s) fragments = fragments.
Proof.
  apply from_src_all. apply List.Forall_forall. intros y Hy. apply family_In in Hy.
  destruct Hy as (k & Hk & ->). cbn [int_eq]. rewrite (g_src k Hk). apply Z.eqb_refl.
Qed.

Lemma family_terminal : terminal fragments = Some (g (n - 1)).
Proof.
  apply find_unique.
  - apply family_In. exists (n - 1)%nat. split; [lia | reflexivity].
  - rewrite g_seq by lia. unfold seq_byte.
    replace (S (n - 1) =? n)%nat with true by (symmetry; apply Nat.eqb_eq; lia).
    apply Z.ltb_lt. lia.
  - intros y Hy Hp. apply family_In in Hy. destruct Hy as (k & Hk & ->).
    rewrite (g_seq k Hk) in Hp.
    pose proof (seq_byte_terminal n k Hk ltac:(lia) Hp) as He.
    f_equal. lia.
Qed.

Lemma family_first_with_seq (k : nat) :
  (S k < n)%nat -> first_with_seq (Z.of_nat (S k)) fragments = Some (g k).
Proof.
  intros Hk. apply find_unique.
  - apply family_In. exists k. split; [lia | reflexivity].
  - rewrite g_seq by lia. unfold seq_byte.
    replace (S k =? n)%nat with false by (symmetry; apply Nat.eqb_neq; lia).
    apply Z.eqb_refl.
  - intros y Hy Hp. apply family_In in Hy. destruct Hy as (j & Hj & ->).
    apply Z.eqb_eq in Hp. rewrite (g_seq j Hj) in Hp.
    pose proof (seq_byte_number n j (Z.of_nat (S k)) Hj ltac:(lia) ltac:(lia) Hp) as He.
    f_equal. lia.
Qed.

Lemma family_data_of_seqs :
  data_of_seqs fragments (z_range 1 (Z.of_nat n))
  = flat_map (fun k => InverterPacketFragment.data (g k)) (seq 0 (n - 1)).
Proof.
  unfold data_of_seqs, z_range.
  replace (Z.to_nat (Z.of_nat n - 1)) with (n - 1)%nat by lia.
  rewrite !List.flat_map_concat_map, List.map_map. f_equal.
  apply map_ext_in. intros k Hk. apply in_seq in Hk.
  replace (1 + Z.of_nat k) with (Z.of_nat (S k)) by lia.
  rewrite family_first_with_seq by lia. reflexivity.
Qed.

Lemma family_reassembled :
  reassembled fragments (g (n - 1)) (Z.of_nat n)
  = flat_map (fun k => InverterPacketFragment.data (g k)) (seq 0 n).
Proof.
  unfold reassembled. rewrite family_data_of_seqs.
  assert (Hs : seq 0 n = seq 0 (n - 1) ++ [(n - 1)%nat]).
  { transitivity (seq 0 (n - 1 + 1)); [f_equal; lia | rewrite seq_app; reflexivity]. }
  rewrite Hs, flat_map_app. cbn [flat_map]. rewrite app_nil_r. reflexivity.
Qed.

(** Whatever the arrival order, [get_payload] returns the data regions in
    sequence order. *)
Lemma family_get_payload (self : InverterTransaction.t) (w : World) :
  scratch_of self w = fragments ->
  InverterTransaction.inverter_addr self = AInt s ->
  crc_m_valid (flat_map (fun k => InverterPacketFragment.data (g k)) (seq 0 n)) ->
  InverterTransaction.get_payload self ANone w
  = (Ok (main_cmd_of (g (n - 1)),
         flat_map (fun k => InverterPacketFragment.data (g k)) (seq 0 n)),
     InverterTransaction.set_time_rx (InverterPacketFragment.time_rx (g (n - 1))) self, w).
Proof.
  intros Hscr Haddr Hcrc.
  assert (Hsrc : effective_src self ANone = AInt s).
  { unfold effective_src. cbn. exact Haddr. }
  rewrite <- family_reassembled in *.
  pose proof (get_payload_reassembles self ANone w (g (n - 1)) (Z.of_nat n)) as H.
  rewrite Hsrc, Hscr, family_from_src in H. apply H.
  - exact family_header.
  - exact family_terminal.
  - rewrite g_seq by lia. unfold seq_byte.
    replace (S (n - 1) =? n)%nat with true by (symmetry; apply Nat.eqb_eq; lia). lia.
  - intros i Hi. replace i with (Z.of_nat (S (Z.to_nat (i - 1)))) by lia.
    rewrite family_first_with_seq by lia. discriminate.
  - exact Hcrc.
Qed.

End Family.

(** * The fragments the composer makes *)

Lemma slice_slice {A} (a b c : nat) (l : list A) :
  (a <= b)%nat -> (b <= c)%nat -> slice a b l ++ slice b c l = slice a c l.
Proof.
  intros Hab Hbc. unfold slice.
  replace (c - a)%nat with ((b - a) + (c - b))%nat by lia.
  rewrite <- take_take_drop, drop_drop. repeat f_equal. lia.
Qed.

Lemma chunks_concat (payload : bytes) (k0 c : nat) :
  flat_map (chunk payload) (seq k0 c) = slice (k0 * 16) ((k0 + c) * 16) payload.
Proof.
  revert k0. induction c as [|c IH]; intros k0.
  - cbn. unfold slice. replace ((k0 + 0) * 16 - k0 * 16)%nat with 0%nat by lia. reflexivity.
  - cbn [seq flat_map]. rewrite IH. unfold chunk.
    replace (k0 * 16 + 16)%nat with (S k0 * 16)%nat by lia.
    rewrite slice_slice by lia. f_equal. lia.
Qed.

Lemma chunks_all (payload : bytes) (n : nat) :
  (length payload <= n * 16)%nat -> flat_map (chunk payload) (seq 0 n) = payload.
Proof.
  intros Hlen. rewrite chunks_concat. unfold slice. cbn [drop Nat.mul].
  apply take_ge. lia.
Qed.

Lemma chunk_bytes (payload : bytes) (k : nat) :
  Forall is_byte payload -> Forall is_byte (chunk payload k).
Proof. intros Hp. unfold chunk, slice. apply Forall_take, Forall_drop, Hp. Qed.

Lemma seq_byte_range (n k : nat) : (k < n)%nat -> (n <= 127)%nat -> 0 <= seq_byte n k < 256.
Proof. intros Hk Hn. unfold seq_byte. destruct (S k =? n)%nat; lia. Qed.

Lemma fragment_packet_bytes (target source payload : bytes) (n k : nat) :
  Forall is_byte target -> Forall is_byte source -> Forall is_byte payload ->
  (k < n)%nat -> (n <= 127)%nat ->
  Forall is_byte (fragment_packet target source payload n k).
Proof.
  intros Ht Hs Hp Hk Hn. unfold fragment_packet.
  repeat apply Forall_app_2; try assumption.
  - repeat constructor; lia.
  - repeat constructor; apply (seq_byte_range n k Hk Hn).
  - apply chunk_bytes. exact Hp.
Qed.

Lemma iter_loop_closed (rf : RequestFactory.t) (payload : bytes) (n m k0 : nat) :
  RequestFactory._mtu rf = 16%nat ->
  length (RequestFactory._source rf) = 4%nat ->
  length (RequestFactory._target rf) = 4%nat ->
  (k0 + m = n)%nat -> (n <= 127)%nat ->
  (length payload <= n * 16)%nat -> ((n - 1) * 16 < length payload)%nat ->
  RequestFactory.iter_loop rf payload (map (fun k => (k * 16)%nat) (seq k0 m))
    (Z.of_nat k0)
  = Ok (map (fun k => ESBFrame.mk 4 [0x15] (RequestFactory._target rf)
                        (RequestFactory._source rf) ([seq_byte n k] ++ chunk payload k))
            (seq k0 m)).
Proof.
  intros Hmtu Hsrc Htgt Hsum Hn Hle Hgt. revert k0 Hsum.
  induction m as [|m IH]; intros k0 Hsum; [reflexivity|].
  cbn [seq map RequestFactory.iter_loop]. rewrite Hmtu.
  unfold ESBFrame.init. rewrite Hsrc, Htgt. cbn [Nat.eqb negb].
  unfold chunk at 1. cbn [Nat.add].
  destruct (Nat.leb_spec (length payload) (k0 * 16 + 16)) as [Hend|Hmore].
  - assert (m = 0%nat) by lia. subst m.
    rewrite pack_B_ok by lia. cbn [rbind seq map RequestFactory.iter_loop].
    assert (Hb : seq_byte n k0 = Z.of_nat k0 + 1 + 128).
    { unfold seq_byte.
      replace (S k0 =? n)%nat with true by (symmetry; apply Nat.eqb_eq; lia). lia. }
    rewrite Hb. reflexivity.
  - rewrite pack_B_ok by lia. cbn [rbind].
    replace (Z.of_nat k0 + 1) with (Z.of_nat (S k0)) by lia.
    rewrite (IH (S k0)) by lia. cbn [rbind].
    assert (Hb : seq_byte n k0 = Z.of_nat (S k0)).
    { unfold seq_byte.
      replace (S k0 =? n)%nat with false by (symmetry; apply Nat.eqb_neq; lia). reflexivity. }
    rewrite Hb. reflexivity.
Qed.

Lemma to_bytes_fragment (target source payload : bytes) (n k : nat) :
  Forall is_byte target -> Forall is_byte source -> Forall is_byte payload ->
  (k < n)%nat -> (n <= 127)%nat ->
  ESBFrame.to_bytes (ESBFrame.mk 4 [0x15] target source ([seq_byte n k] ++ chunk payload k))
  = Ok (fragment_raw target source payload n k).
Proof.
  intros Ht Hs Hp Hk Hn. unfold ESBFrame.to_bytes, ESBFrame.crc, ESBFrame.packet.
  cbn [ESBFrame.preamble ESBFrame.target ESBFrame.source ESBFrame.payload].
  fold (fragment_packet target source payload n k).
  rewrite pack_B_ok; [reflexivity|].
  apply f_crc8_range, fragment_packet_bytes; assumption.
Qed.

Lemma map_r_map {A B C} (f : B -> res C) (h : A -> B) (h' : A -> C) (l : list A) :
  (forall x, In x l -> f (h x) = Ok (h' x)) -> map_r f (map h l) = Ok (map h' l).
Proof.
  induction l as [|x l IH]; intros Hf; [reflexivity|].
  cbn [map map_r]. rewrite (Hf x) by (left; reflexivity). cbn [rbind].
  rewrite IH; [reflexivity|]. intros y Hy. apply Hf. right. exact Hy.
Qed.

Lemma but_last_snoc {A} (l : list A) (x : A) : but_last 1 (l ++ [x]) = l.
Proof.
  unfold but_last. rewrite length_app. cbn [length].
  apply take_app_length'. lia.
Qed.

Lemma but_last_2 {A} (l : list A) (x y : A) : but_last 2 (l ++ [x; y]) = l.
Proof.
  unfold but_last. rewrite length_app. cbn [length].
  apply take_app_length'. lia.
Qed.

Lemma last_n_2 {A} (l : list A) (x y : A) : last_n 2 (l ++ [x; y]) = [x; y].
Proof.
  unfold last_n. rewrite length_app. cbn [length].
  apply drop_app_length'. lia.
Qed.

Lemma data_of_raw (pre d : bytes) (c : Z) :
  length pre = 10%nat -> slice_to_last 10 1 (pre ++ d ++ [c]) = d.
Proof.
  intros Hpre. unfold slice_to_last. rewrite app_assoc, but_last_snoc.
  apply drop_app_length'. symmetry. exact Hpre.
Qed.

Lemma parse_fragment_raw (now : Z) (target source payload : bytes) (n k : nat) :
  parse now (fragment_raw target source payload n k)
  = Ok (InverterPacketFragment.mk now (fragment_raw target source payload n k) None None).
Proof.
  unfold parse, InverterPacketFragment.init, fragment_raw.
  rewrite last_snoc, but_last_snoc, Z.eqb_refl. reflexivity.
Qed.

Lemma raw_fields (tm t3 t2 t1 t0 s3 s2 s1 s0 sb c : Z) (d : bytes) :
  let f := InverterPacketFragment.mk tm
             ([0x15; t3; t2; t1; t0; s3; s2; s1; s0; sb] ++ d ++ [c]) None None in
  has_header f /\ src_of f = be32 [t3; t2; t1; t0] /\ seq_of f = sb
  /\ InverterPacketFragment.data f = d /\ main_cmd_of f = 0x15.
Proof.
  cbn zeta. split; [|split; [|split; [|split]]].
  - unfold has_header. cbn [InverterPacketFragment.frame]. rewrite length_app.
    cbn [length]. lia.
  - reflexivity.
  - reflexivity.
  - exact (data_of_raw [0x15; t3; t2; t1; t0; s3; s2; s1; s0; sb] d c eq_refl).
  - reflexivity.
Qed.

Lemma fragment_raw_fields (now : Z) (target source payload : bytes) (n k : nat) :
  length target = 4%nat -> length source = 4%nat ->
  let f := InverterPacketFragment.mk now (fragment_raw target source payload n k) None None in
  has_header f /\ src_of f = be32 target /\ seq_of f = seq_byte n k
  /\ InverterPacketFragment.data f = chunk payload k /\ main_cmd_of f = 0x15.
Proof.
  destruct target as [|t3 [|t2 [|t1 [|t0 [|? ?]]]]]; try discriminate.
  destruct source as [|s3 [|s2 [|s1 [|s0 [|? ?]]]]]; try discriminate.
  intros _ _. unfold fragment_raw, fragment_packet.
  generalize (f_crc8 ([21] ++ [t3; t2; t1; t0] ++ [s3; s2; s1; s0] ++ [seq_byte n k]
                      ++ chunk payload k)).
  generalize (chunk payload k). generalize (seq_byte n k). intros sb d c.
  exact (raw_fields now t3 t2 t1 t0 s3 s2 s1 s0 sb c d).
Qed.

Lemma map_r_ok {A B} (f : A -> res B) (h : A -> B) (l : list A) :
  (forall x, In x l -> f x = Ok (h x)) -> map_r f l = Ok (map h l).
Proof.
  induction l as [|x l IH]; intros Hf; [reflexivity|].
  cbn [map map_r]. rewrite (Hf x) by (left; reflexivity). cbn [rbind].
  rewrite IH; [reflexivity|]. intros y Hy. apply Hf. right. exact Hy.
Qed.

Lemma append_all_scratch (self : InverterTransaction.t)
    (fragments : list InverterPacketFragment.t) (w : World) :
  scratch_of self (append_all self fragments w) = scratch_of self w ++ fragments.
Proof.
  revert w. induction fragments as [|f fs IH]; intros w.
  - cbn. rewrite app_nil_r. reflexivity.
  - unfold append_all in *. cbn [fold_left]. rewrite IH.
    destruct (frame_append_scratch self f w) as [-> _]. rewrite <- app_assoc. reflexivity.
Qed.

Lemma crc_m_valid_framed (p : bytes) :
  Forall is_byte p -> crc_m_valid (p ++ [f_crc_m p / 256; f_crc_m p mod 256]).
Proof.
  intros Hp. exists (f_crc_m p / 256), (f_crc_m p mod 256).
  rewrite last_n_2, but_last_2. split; [reflexivity|].
  rewrite Z.mul_comm. apply Z.div_mod. lia.
Qed.

(** What the composer puts on air for a payload that fits 127 fragments. *)
Lemma compose_closed (p : bytes) (dtu_ser inverter_ser : serial) (rf : RequestFactory.t) :
  Forall is_byte p -> (length p <= 2030)%nat ->
  RequestFactory.init p (Some dtu_ser) (Some inverter_ser) None = Ok rf ->
  let payload := p ++ [f_crc_m p / 256; f_crc_m p mod 256] in
  let n := ((length payload + 15) / 16)%nat in
  compose rf
  = Ok (map (fragment_raw (RequestFactory._target rf) (RequestFactory._source rf) payload n)
            (seq 0 n))
  /\ length (RequestFactory._target rf) = 4%nat
  /\ length (RequestFactory._source rf) = 4%nat
  /\ (1 <= n <= 127)%nat /\ (length payload <= n * 16)%nat.
Proof.
  intros Hp Hlen Hinit. cbn zeta.
  unfold RequestFactory.init in Hinit.
  destruct (ser_to_hm_addr dtu_ser) as [source|] eqn:Hs; cbn [rbind] in Hinit; [|discriminate].
  destruct (ser_to_hm_addr inverter_ser) as [target|] eqn:Ht; cbn [rbind] in Hinit;
    [|discriminate].
  inversion Hinit; subst rf; clear Hinit.
  cbn [RequestFactory._target RequestFactory._source].
  destruct (ser_to_hm_addr_bytes _ _ Hs) as [Hls Hbs].
  destruct (ser_to_hm_addr_bytes _ _ Ht) as [Hlt Hbt].
  set (payload := p ++ [f_crc_m p / 256; f_crc_m p mod 256]).
  set (n := ((length payload + 15) / 16)%nat).
  assert (HL : length payload = (length p + 2)%nat).
  { subst payload. rewrite length_app. reflexivity. }
  assert (Hn : (1 <= n <= 127)%nat /\ (length payload <= n * 16)%nat
               /\ ((n - 1) * 16 < length payload)%nat).
  { subst n. rewrite HL.
    pose proof (Nat.div_mod_eq (length p + 2 + 15) 16) as Hd.
    pose proof (Nat.mod_upper_bound (length p + 2 + 15) 16 ltac:(lia)) as Hm.
    lia. }
  destruct Hn as (Hn & Hle & Hgt).
  assert (Hpb : Forall is_byte payload).
  { subst payload. apply Forall_app_2; [exact Hp|]. apply pack_H_bytes, f_crc_m_range, Hp. }
  repeat split; try assumption; try lia.
  unfold compose, RequestFactory.iter, RequestFactory.crc.
  cbn [RequestFactory._payload RequestFactory._mtu].
  rewrite pack_H_ok by (apply f_crc_m_range, Hp). cbn [rbind]. fold payload.
  assert (Hrange : py_range 0 (length payload) 16 = map (fun k => (k * 16)%nat) (seq 0 n)).
  { unfold py_range. subst n. rewrite Nat.sub_0_r.
    replace (length payload + 16 - 1)%nat with (length payload + 15)%nat by lia.
    reflexivity. }
  rewrite Hrange.
  rewrite (iter_loop_closed _ payload n n 0); try reflexivity; try assumption; try lia.
  cbn [rbind RequestFactory._target RequestFactory._source].
  apply map_r_map. intros k Hk. apply in_seq in Hk.
  apply to_bytes_fragment; try assumption; lia.
Qed.

(** * Composing, then reassembling *)

(** C2, as stated, fails twice: what [get_payload] yields for the
    fragments of [01 02 03] is the payload followed by its CRC-16, not the
    payload; and a payload of 2031 bytes, shorter than 16*127, needs 128
    fragments, whose last sequence byte [0x80 + 128] does not fit
    [struct.pack('>B', ...)]. *)
Lemma roundtrip_keeps_crc_and_has_a_limit :
  (exists rf raws fragments,
     RequestFactory.init [1; 2; 3] (Some (SerInt 99978563412)) (Some (SerInt 114172220143)) None
     = Ok rf
     /\ compose rf = Ok raws
     /\ map_r (parse 0) raws = Ok fragments
     /\ fst (fst (InverterTransaction.get_payload log_transaction ANone
                    (append_all log_transaction fragments (world_with []))))
        = Ok (0x15, [1; 2; 3; 0x61; 0x61])
     /\ forall main_cmd,
          fst (fst (InverterTransaction.get_payload log_transaction ANone
                      (append_all log_transaction fragments (world_with []))))
          <> Ok (main_cmd, [1; 2; 3]))
  /\ (length (repeat 0 2031) < 16 * 127)%nat
  /\ exists rf,
       RequestFactory.init (repeat 0 2031) (Some (SerInt 99978563412))
         (Some (SerInt 114172220143)) None = Ok rf
       /\ compose rf = Raise StructError.
Proof.
  split; [|split].
  - exists (RequestFactory.mk [0x15] [0x78; 0x56; 0x34; 0x12] [0x72; 0x22; 0x01; 0x43] []
              [1; 2; 3] 16).
    exists [second_fragment_frame], [fragment_of second_fragment_frame].
    split; [vm_compute; reflexivity|]. split; [vm_compute; reflexivity|].
    split; [vm_compute; reflexivity|]. split; [vm_compute; reflexivity|].
    intros main_cmd. vm_compute. intros H. inversion H.
  - rewrite repeat_length. lia.
  - exists (RequestFactory.mk [0x15] [0x78; 0x56; 0x34; 0x12] [0x72; 0x22; 0x01; 0x43] []
              (repeat 0 2031) 16).
    split; vm_compute; reflexivity.
Qed.

(** C2, amended: for a payload [p] of at most 2030 bytes (so that [p] and
    its CRC-16 fit 127 fragments of 16 bytes), the composer yields the
    fragments, each parses, and whatever the order in which they are
    appended to an empty scratch, [get_payload] succeeds with the preamble
    [0x15] and [p] followed by its Modbus CRC-16, big-endian. *)
Theorem compose_then_reassemble (p : bytes) (dtu_ser inverter_ser : serial)
    (rf : RequestFactory.t) :
  Forall is_byte p -> (length p <= 2030)%nat ->
  RequestFactory.init p (Some dtu_ser) (Some inverter_ser) None = Ok rf ->
  exists raws,
    compose rf = Ok raws
    /\ forall (arrival : list bytes) (now : Z) (self : InverterTransaction.t) (w : World),
         Permutation arrival raws ->
         scratch_of self w = [] ->
         InverterTransaction.inverter_addr self = AInt (be32 (RequestFactory._target rf)) ->
         exists fragments,
           map_r (parse now) arrival = Ok fragments
           /\ fst (fst (InverterTransaction.get_payload self ANone
                          (append_all self fragments w)))
              = Ok (0x15, p ++ [f_crc_m p / 256; f_crc_m p mod 256]).
Proof.
  intros Hp Hlen Hinit.
  destruct (compose_closed p dtu_ser inverter_ser rf Hp Hlen Hinit)
    as (Hc & Hlt & Hls & Hn & Hle).
  set (payload := p ++ [f_crc_m p / 256; f_crc_m p mod 256]) in *.
  set (n := ((length payload + 15) / 16)%nat) in *.
  set (target := RequestFactory._target rf) in *.
  set (source := RequestFactory._source rf) in *.
  eexists. split; [exact Hc|].
  intros arrival now self w Hperm Hscr Haddr.
  set (at_now := fun raw => InverterPacketFragment.mk now raw None None).
  set (g := fun k => at_now (fragment_raw target source payload n k)).
  exists (map at_now arrival). split.
  - apply map_r_ok. intros raw Hin.
    apply (Permutation_in _ Hperm) in Hin. apply in_map_iff in Hin.
    destruct Hin as (k & <- & _). apply parse_fragment_raw.
  - assert (Hfields : forall k,
              has_header (g k) /\ src_of (g k) = be32 target /\ seq_of (g k) = seq_byte n k
              /\ InverterPacketFragment.data (g k) = chunk payload k /\ main_cmd_of (g k) = 0x15).
    { intros k. exact (fragment_raw_fields now target source payload n k Hlt Hls). }
    assert (Hdata : flat_map (fun k => InverterPacketFragment.data (g k)) (seq 0 n) = payload).
    { rewrite (List.flat_map_ext _ (chunk payload)).
      - apply chunks_all. exact Hle.
      - intros k. apply (Hfields k). }
    assert (Harr : Permutation (map at_now arrival) (map g (seq 0 n))).
    { rewrite <- (List.map_map (fragment_raw target source payload n) at_now).
      apply Permutation_map. exact Hperm. }
    rewrite (family_get_payload g n (be32 target) Hn
               (fun k _ => proj1 (Hfields k))
               (fun k _ => proj1 (proj2 (Hfields k)))
               (fun k _ => proj1 (proj2 (proj2 (Hfields k))))
               (map at_now arrival) Harr self (append_all self (map at_now arrival) w)).
    + cbn [fst]. rewrite Hdata. destruct (Hfields (n - 1)%nat) as (_ & _ & _ & _ & ->).
      reflexivity.
    + rewrite append_all_scratch, Hscr. reflexivity.
    + exact Haddr.
    + rewrite Hdata. apply crc_m_valid_framed. exact Hp.
Qed.

Lemma compose_then_reassemble_witness :
  exists raws,
    compose (RequestFactory.mk [0x15] [0x78; 0x56; 0x34; 0x12] [0x72; 0x22; 0x01; 0x43] []
               (but_last 2 log_status_payload) 16) = Ok raws
    /\ forall (arrival : list bytes) (now : Z) (self : InverterTransaction.t) (w : World),
         Permutation arrival raws ->
         scratch_of self w = [] ->
         InverterTransaction.inverter_addr self = AInt (be32 [0x72; 0x22; 0x01; 0x43]) ->
         exists fragments,
           map_r (parse now) arrival = Ok fragments
           /\ fst (fst (InverterTransaction.get_payload self ANone
                          (append_all self fragments w)))
              = Ok (0x15, but_last 2 log_status_payload
                          ++ [f_crc_m (but_last 2 log_status_payload) / 256;
                              f_crc_m (but_last 2 log_status_payload) mod 256]).
Proof.
  apply (compose_then_reassemble (but_last 2 log_status_payload)
           (SerInt 99978563412) (SerInt 114172220143)).
  - vm_compute. repeat constructor; discriminate.
  - vm_compute. lia.
  - vm_compute. reflexivity.
Defined.

(** * The frame checksum is an exclusive-or *)

Lemma crc8_eight_shifts (x : Z) : 0 <= x < 256 -> Nat.iter 8 (crc_bit 0x80) x = x.
Proof.
  intros Hx.
  assert (Hall : forallb (fun y => Nat.iter 8 (crc_bit 0x80) y =? y) (z_range 0 256) = true)
    by (vm_compute; reflexivity).
  rewrite forallb_forall in Hall. apply Z.eqb_eq. apply Hall. apply z_range_In. exact Hx.
Qed.

Lemma fold_lxor_xor_all (data : bytes) (a : Z) :
  fold_left Z.lxor data a = Z.lxor a (xor_all data).
Proof.
  revert a. induction data as [|b data IH]; intros a; cbn [fold_left xor_all fold_right].
  - rewrite Z.lxor_0_r. reflexivity.
  - rewrite IH. fold (xor_all data). rewrite Z.lxor_assoc. reflexivity.
Qed.

Lemma f_crc8_xor_all (data : bytes) : Forall is_byte data -> f_crc8 data = xor_all data.
Proof.
  intros Hd. unfold f_crc8, crc_reflected.
  assert (Hgen : forall a, 0 <= a < 256 ->
            fold_left (crc_byte 0x80) data a = fold_left Z.lxor data a).
  { induction Hd as [|b data Hb _ IH]; intros a Ha; [reflexivity|].
    cbn [fold_left].
    assert (Hx : 0 <= Z.lxor a b < 2 ^ 8) by (apply lxor_range; unfold is_byte in Hb; lia).
    assert (Hstep : crc_byte 0x80 a b = Z.lxor a b).
    { unfold crc_byte. apply crc8_eight_shifts. exact Hx. }
    rewrite Hstep. apply IH. exact Hx. }
  rewrite Hgen by lia. rewrite fold_lxor_xor_all. apply Z.lxor_0_l.
Qed.

Lemma xor_all_app (l1 l2 : bytes) : xor_all (l1 ++ l2) = Z.lxor (xor_all l1) (xor_all l2).
Proof.
  induction l1 as [|b l1 IH]; cbn [app xor_all fold_right].
  - rewrite Z.lxor_0_l. reflexivity.
  - fold (xor_all (l1 ++ l2)) (xor_all l1). rewrite IH, Z.lxor_assoc. reflexivity.
Qed.

Lemma xor_all_perm (l1 l2 : bytes) : Permutation l1 l2 -> xor_all l1 = xor_all l2.
Proof.
  induction 1 as [|x l l' _ IH|x y l|l l' l'' _ IH1 _ IH2]; cbn [xor_all fold_right].
  - reflexivity.
  - fold (xor_all l) (xor_all l'). rewrite IH. reflexivity.
  - fold (xor_all l). rewrite <- !Z.lxor_assoc, (Z.lxor_comm y x). reflexivity.
  - congruence.
Qed.

Lemma lxor_cancel_l (a x y : Z) : Z.lxor a x = Z.lxor a y -> x = y.
Proof.
  intros H. apply (f_equal (Z.lxor a)) in H.
  rewrite <- !Z.lxor_assoc, Z.lxor_nilpotent, !Z.lxor_0_l in H. exact H.
Qed.

(** X1: a frame that differs from an accepted frame in one byte before
    the trailer is rejected with 'Frame kaputt'. *)
Theorem one_corrupted_byte_is_rejected (now : Z) (tm : option Z) (chrx chtx : option Z)
    (l1 l2 : bytes) (x y c : Z) (f : InverterPacketFragment.t) :
  Forall is_byte l1 -> Forall is_byte l2 -> is_byte x -> is_byte y -> x <> y ->
  InverterPacketFragment.init now tm (l1 ++ x :: l2 ++ [c]) chrx chtx = Ok f ->
  InverterPacketFragment.init now tm (l1 ++ y :: l2 ++ [c]) chrx chtx
  = Raise (BufferError FrameKaputt).
Proof.
  intros H1 H2 Hx Hy Hne Hok. unfold InverterPacketFragment.init in *.
  assert (Hshape : forall z, l1 ++ z :: l2 ++ [c] = (l1 ++ z :: l2) ++ [c]).
  { intros z. rewrite <- app_assoc. reflexivity. }
  rewrite Hshape in *. rewrite last_snoc, but_last_snoc in *.
  assert (Hb : forall z, is_byte z -> Forall is_byte (l1 ++ z :: l2)).
  { intros z Hz. apply Forall_app_2; [exact H1 | constructor; assumption]. }
  rewrite (f_crc8_xor_all _ (Hb x Hx)) in Hok. rewrite (f_crc8_xor_all _ (Hb y Hy)).
  destruct (xor_all (l1 ++ x :: l2) =? c) eqn:Hcx; cbn [negb] in Hok; [|discriminate].
  apply Z.eqb_eq in Hcx.
  destruct (xor_all (l1 ++ y :: l2) =? c) eqn:Hcy; [|reflexivity].
  apply Z.eqb_eq in Hcy. exfalso. apply Hne.
  rewrite <- Hcy in Hcx. rewrite !xor_all_app in Hcx. cbn [xor_all fold_right] in Hcx.
  fold (xor_all l2) in Hcx. apply lxor_cancel_l in Hcx.
  rewrite (Z.lxor_comm x), (Z.lxor_comm y) in Hcx. apply lxor_cancel_l in Hcx. exact Hcx.
Qed.

Lemma one_corrupted_byte_is_rejected_witness :
  InverterPacketFragment.init 0 None (but_last 3 log_rx3 ++ 0x0d :: [0x35] ++ [0x37]) None None
  = Raise (BufferError FrameKaputt).
Proof.
  apply (one_corrupted_byte_is_rejected 0 None None None (but_last 3 log_rx3) [0x35]
           0x0c 0x0d 0x37 (fragment_of log_rx3)).
  - vm_compute. repeat constructor; discriminate.
  - vm_compute. repeat constructor; discriminate.
  - unfold is_byte. lia.
  - unfold is_byte. lia.
  - lia.
  - vm_compute. reflexivity.
Defined.

(** X2: the checksum does not see the order of the bytes: when a frame is
    accepted, so is every frame with the same trailer whose other bytes
    are rearranged. *)
Theorem reordered_frame_is_accepted (now : Z) (tm : option Z) (chrx chtx : option Z)
    (data data' : bytes) (c : Z) (f : InverterPacketFragment.t) :
  Forall is_byte data -> Permutation data data' ->
  InverterPacketFragment.init now tm (data ++ [c]) chrx chtx = Ok f ->
  InverterPacketFragment.init now tm (data' ++ [c]) chrx chtx
  = Ok (InverterPacketFragment.mk (InverterPacketFragment.time_rx f) (data' ++ [c]) chrx chtx).
Proof.
  intros Hb Hperm Hok. unfold InverterPacketFragment.init in *.
  rewrite last_snoc, but_last_snoc in *.
  assert (Hb' : Forall is_byte data').
  { apply List.Forall_forall. intros z Hz.
    apply (Permutation_in _ (Permutation_sym Hperm)) in Hz.
    exact (proj1 (List.Forall_forall _ _) Hb z Hz). }
  rewrite (f_crc8_xor_all _ Hb) in Hok. rewrite (f_crc8_xor_all _ Hb').
  rewrite <- (xor_all_perm _ _ Hperm).
  destruct (xor_all data =? c); cbn [negb] in *; [|discriminate].
  inversion Hok; subst. reflexivity.
Qed.

Lemma reordered_frame_is_accepted_witness :
  InverterPacketFragment.init 0 None (rev (but_last 1 log_rx3) ++ [0x37]) None None
  = Ok (InverterPacketFragment.mk
          (InverterPacketFragment.time_rx (fragment_of log_rx3))
          (rev (but_last 1 log_rx3) ++ [0x37]) None None).
Proof.
  apply (reordered_frame_is_accepted 0 None None None (but_last 1 log_rx3)
           (rev (but_last 1 log_rx3)) 0x37 (fragment_of log_rx3)).
  - vm_compute. repeat constructor; discriminate.
  - apply Permutation_rev.
  - vm_compute. reflexivity.
Defined.

(** * Requests built by [compose_esb_fragment] *)

Lemma compose_esb_fragment_ok (fragment maincmd subcmd : bytes) (src dst : serial)
    (a_src a_dst : bytes) :
  (length fragment <= 17)%nat ->
  Forall is_byte fragment -> Forall is_byte maincmd -> Forall is_byte subcmd ->
  ser_to_hm_addr dst = Ok a_dst -> ser_to_hm_addr src = Ok a_src ->
  compose_esb_fragment fragment maincmd subcmd src dst
  = Ok ((maincmd ++ a_dst ++ a_src ++ subcmd ++ fragment)
        ++ [f_crc8 (maincmd ++ a_dst ++ a_src ++ subcmd ++ fragment)]).
Proof.
  intros Hlen Hf Hm Hs Hd Hsr. unfold compose_esb_fragment.
  replace (17 <? length fragment)%nat with false by (symmetry; apply Nat.ltb_ge; exact Hlen).
  rewrite Hd, Hsr. cbn [rbind app].
  destruct (ser_to_hm_addr_bytes _ _ Hd) as [_ Hbd].
  destruct (ser_to_hm_addr_bytes _ _ Hsr) as [_ Hbs].
  assert (Hshape : (((maincmd ++ a_dst) ++ a_src) ++ subcmd) ++ fragment
                   = maincmd ++ a_dst ++ a_src ++ subcmd ++ fragment).
  { repeat rewrite <- app_assoc. reflexivity. }
  rewrite Hshape. rewrite pack_B_ok; [reflexivity|].
  apply f_crc8_range. repeat apply Forall_app_2; assumption.
Qed.

Lemma raw_fields_any (tm m t3 t2 t1 t0 s3 s2 s1 s0 sq c : Z) (d : bytes)
    (chrx chtx : option Z) :
  let f := InverterPacketFragment.mk tm
             ([m; t3; t2; t1; t0; s3; s2; s1; s0; sq] ++ d ++ [c]) chrx chtx in
  InverterPacketFragment.main_cmd f = Ok m
  /\ InverterPacketFragment.src f = Ok (be32 [t3; t2; t1; t0])
  /\ slice 5 9 (InverterPacketFragment.frame f) = [s3; s2; s1; s0]
  /\ InverterPacketFragment.seq f = Ok sq
  /\ InverterPacketFragment.data f = d.
Proof.
  cbn zeta. split; [reflexivity|]. split; [reflexivity|]. split; [reflexivity|].
  split; [reflexivity|].
  exact (data_of_raw [m; t3; t2; t1; t0; s3; s2; s1; s0; sq] d c eq_refl).
Qed.

Lemma compose_esb_fragment_read_back (fragment rest : bytes) (m sq : Z) (src dst : serial)
    (pkt : bytes) (now : Z) (tm chrx chtx : option Z) :
  Forall is_byte fragment -> is_byte m -> is_byte sq -> Forall is_byte rest ->
  compose_esb_fragment fragment [m] (sq :: rest) src dst = Ok pkt ->
  exists f a_dst a_src,
    InverterPacketFragment.init now tm pkt chrx chtx = Ok f
    /\ InverterPacketFragment.frame f = pkt
    /\ ser_to_hm_addr dst = Ok a_dst /\ ser_to_hm_addr src = Ok a_src
    /\ InverterPacketFragment.main_cmd f = Ok m
    /\ InverterPacketFragment.src f = Ok (be32 a_dst)
    /\ slice 5 9 pkt = a_src
    /\ InverterPacketFragment.seq f = Ok sq
    /\ InverterPacketFragment.data f = rest ++ fragment
    /\ length pkt = (11 + length rest + length fragment)%nat.
Proof.
  intros Hf Hm Hsq Hrest Hc.
  assert (Hlen : (length fragment <= 17)%nat).
  { unfold compose_esb_fragment in Hc.
    destruct (17 <? length fragment)%nat eqn:Hlt; [discriminate|].
    apply Nat.ltb_ge. exact Hlt. }
  destruct (ser_to_hm_addr dst) as [a_dst|e] eqn:Hd.
  2:{ unfold compose_esb_fragment in Hc. rewrite Hd in Hc.
      destruct (17 <? length fragment)%nat; discriminate. }
  destruct (ser_to_hm_addr src) as [a_src|e] eqn:Hs.
  2:{ unfold compose_esb_fragment in Hc. rewrite Hd, Hs in Hc.
      destruct (17 <? length fragment)%nat; discriminate. }
  rewrite (compose_esb_fragment_ok fragment [m] (sq :: rest) src dst a_src a_dst) in Hc;
    try assumption;
    try (constructor; [assumption | first [constructor | assumption]]).
  set (packet := [m] ++ a_dst ++ a_src ++ (sq :: rest) ++ fragment) in Hc.
  assert (Hpkt : packet ++ [f_crc8 packet] = pkt) by congruence.
  clear Hc.
  set (time := match tm with Some t => t | None => now end).
  exists (InverterPacketFragment.mk time pkt chrx chtx), a_dst, a_src.
  split.
  { unfold InverterPacketFragment.init. rewrite <- Hpkt.
    rewrite last_snoc, but_last_snoc, Z.eqb_refl. reflexivity. }
  split; [reflexivity|]. split; [reflexivity|]. split; [reflexivity|].
  destruct (ser_to_hm_addr_bytes _ _ Hd) as [Hld _].
  destruct (ser_to_hm_addr_bytes _ _ Hs) as [Hls _].
  revert Hpkt. generalize (f_crc8 packet). subst packet. intros c Hpkt.
  destruct a_dst as [|t3 [|t2 [|t1 [|t0 [|? ?]]]]]; try discriminate Hld.
  destruct a_src as [|s3 [|s2 [|s1 [|s0 [|? ?]]]]]; try discriminate Hls.
  assert (Hshape : pkt = [m; t3; t2; t1; t0; s3; s2; s1; s0; sq] ++ (rest ++ fragment) ++ [c]).
  { rewrite <- Hpkt. cbn [app]. repeat rewrite <- app_assoc. reflexivity. }
  rewrite Hshape.
  destruct (raw_fields_any time m t3 t2 t1 t0 s3 s2 s1 s0 sq c (rest ++ fragment) chrx chtx)
    as (F1 & F2 & F3 & F4 & F5).
  split; [exact F1|]. split; [exact F2|]. split; [exact F3|]. split; [exact F4|].
  split; [exact F5|].
  cbn [length app]. rewrite !length_app. cbn [length]. lia.
Qed.

(** X3: what [compose_esb_fragment] builds for a one-byte preamble is
    accepted by the parser of received frames, which reads back the
    preamble as [main_cmd], the destination address as [src], the first
    opcode byte as [seq], and the other opcode bytes followed by the
    fragment as [data]. *)
Theorem compose_esb_fragment_parses (fragment rest : bytes) (m sq : Z) (src dst : serial)
    (pkt : bytes) (now : Z) (tm chrx chtx : option Z) :
  Forall is_byte fragment -> is_byte m -> is_byte sq -> Forall is_byte rest ->
  compose_esb_fragment fragment [m] (sq :: rest) src dst = Ok pkt ->
  exists f a_dst a_src,
    InverterPacketFragment.init now tm pkt chrx chtx = Ok f
    /\ InverterPacketFragment.frame f = pkt
    /\ ser_to_hm_addr dst = Ok a_dst /\ ser_to_hm_addr src = Ok a_src
    /\ InverterPacketFragment.main_cmd f = Ok m
    /\ InverterPacketFragment.src f = Ok (be32 a_dst)
    /\ slice 5 9 pkt = a_src
    /\ InverterPacketFragment.seq f = Ok sq
    /\ InverterPacketFragment.data f = rest ++ fragment
    /\ length pkt = (11 + length rest + length fragment)%nat.
Proof. exact (compose_esb_fragment_read_back fragment rest m sq src dst pkt now tm chrx chtx). Qed.

Lemma compose_esb_fragment_parses_witness :
  exists f a_dst a_src,
    InverterPacketFragment.init 0 None log_tx None None = Ok f
    /\ InverterPacketFragment.frame f = log_tx
    /\ ser_to_hm_addr (SerInt 114172220143) = Ok a_dst
    /\ ser_to_hm_addr (SerInt 99978563412) = Ok a_src
    /\ InverterPacketFragment.main_cmd f = Ok 0x15
    /\ InverterPacketFragment.src f = Ok (be32 a_dst)
    /\ slice 5 9 log_tx = a_src
    /\ InverterPacketFragment.seq f = Ok 0x80
    /\ InverterPacketFragment.data f = [] ++ slice 10 26 log_tx
    /\ length log_tx = (11 + length (@nil Z) + length (slice 10 26 log_tx))%nat.
Proof.
  apply (compose_esb_fragment_parses (slice 10 26 log_tx) [] 0x15 0x80
           (SerInt 99978563412) (SerInt 114172220143) log_tx 0 None None None).
  - vm_compute. repeat constructor; discriminate.
  - unfold is_byte. lia.
  - unfold is_byte. lia.
  - constructor.
  - vm_compute. reflexivity.
Defined.

(** X4: the ESB pipe address of a serial is [0x01] followed by its
    four-byte address, five bytes in all, and [ser_to_esb_addr] raises
    exactly when [ser_to_hm_addr] does, with the same exception. *)
Theorem ser_to_esb_addr_prefixes_one (ser : serial) :
  match ser_to_hm_addr ser with
  | Ok a => ser_to_esb_addr ser = Ok (0x01 :: a) /\ length (0x01 :: a) = 5%nat
            /\ Forall is_byte (0x01 :: a)
  | Raise e => ser_to_esb_addr ser = Raise e
  end.
Proof.
  unfold ser_to_esb_addr. destruct (ser_to_hm_addr ser) as [a|e] eqn:Ha; [|reflexivity].
  cbn [rbind]. destruct (ser_to_hm_addr_bytes _ _ Ha) as [Hl Hb].
  split; [|split].
  - rewrite rev_app_distr, rev_involutive. reflexivity.
  - cbn [length]. rewrite Hl. reflexivity.
  - constructor; [unfold is_byte; lia | exact Hb].
Qed.

(** * [compose_esb_packet] and the set-time request *)

Lemma map_r_related {A B C} (f : B -> res C) (g : A -> B) (R : A -> C -> Prop) (l : list A) :
  (forall x, In x l -> exists y, f (g x) = Ok y /\ R x y) ->
  exists ys, map_r f (map g l) = Ok ys /\ Forall2 R l ys.
Proof.
  induction l as [|x l IH]; intros Hf.
  - exists []. split; [reflexivity | constructor].
  - destruct (Hf x (or_introl eq_refl)) as (y & Hy & Rxy).
    destruct IH as (ys & Hys & Rl); [intros z Hz; apply Hf; right; exact Hz|].
    exists (y :: ys). cbn [map map_r]. rewrite Hy. cbn [rbind]. rewrite Hys.
    split; [reflexivity | constructor; assumption].
Qed.

(** X5: for a one-byte preamble [compose_esb_packet] cuts the packet
    into fragments of 17 bytes, the last one shorter, none for an empty
    packet; every fragment is accepted by the parser and carries the same
    opcode bytes: the fragments are not numbered, each reads back the same
    [seq]. *)
Theorem compose_esb_packet_fragments (packet rest : bytes) (m sq : Z) (src dst : serial)
    (a_src a_dst : bytes) (now : Z) :
  Forall is_byte packet -> is_byte m -> is_byte sq -> Forall is_byte rest ->
  ser_to_hm_addr dst = Ok a_dst -> ser_to_hm_addr src = Ok a_src ->
  exists frames,
    compose_esb_packet packet 17 [m] (sq :: rest) src dst = Ok frames
    /\ length frames = ((length packet + 16) / 17)%nat
    /\ Forall2 (fun k raw =>
                  exists f, parse now raw = Ok f
                            /\ InverterPacketFragment.seq f = Ok sq
                            /\ InverterPacketFragment.data f
                               = rest ++ slice (k * 17) (k * 17 + 17) packet)
               (seq 0 ((length packet + 16) / 17)) frames.
Proof.
  intros Hp Hm Hsq Hrest Hd Hs. unfold compose_esb_packet.
  change (17 =? 0) with false. change (17 <? 0) with false. cbv iota zeta.
  change (Z.to_nat 17) with 17%nat. unfold py_range.
  rewrite Nat.sub_0_r.
  replace (length packet + 17 - 1)%nat with (length packet + 16)%nat by lia.
  set (n := ((length packet + 16) / 17)%nat).
  destruct (map_r_related
              (fun i => compose_esb_fragment (slice i (i + 17) packet) [m] (sq :: rest) src dst)
              (fun k => (0 + k * 17)%nat)
              (fun k raw =>
                 exists f, parse now raw = Ok f
                           /\ InverterPacketFragment.seq f = Ok sq
                           /\ InverterPacketFragment.data f
                              = rest ++ slice (k * 17) (k * 17 + 17) packet)
              (seq 0 n)) as (frames & Hframes & Hrel).
  - intros k _. cbn [Nat.add].
    assert (Hsl : Forall is_byte (slice (k * 17) (k * 17 + 17) packet)).
    { unfold slice. apply Forall_take, Forall_drop, Hp. }
    assert (Hlen : (length (slice (k * 17) (k * 17 + 17) packet) <= 17)%nat).
    { unfold slice. rewrite length_take. lia. }
    eexists. split.
    + apply (compose_esb_fragment_ok _ [m] (sq :: rest) src dst a_src a_dst);
        try assumption; constructor; first [assumption | constructor].
    + destruct (compose_esb_fragment_read_back (slice (k * 17) (k * 17 + 17) packet) rest
                  m sq src dst _ now None None None Hsl Hm Hsq Hrest
                  (compose_esb_fragment_ok _ [m] (sq :: rest) src dst a_src a_dst Hlen Hsl
                     ltac:(constructor; [exact Hm | constructor])
                     ltac:(constructor; assumption) Hd Hs))
        as (f & ad & asrc & Hinit & _ & _ & _ & _ & _ & _ & Hseq & Hdata & _).
      exists f. unfold parse. repeat split; assumption.
  - exists frames. split; [exact Hframes|]. split; [|exact Hrel].
    rewrite <- (Forall2_length _ _ _ Hrel). apply length_seq.
Qed.

Lemma compose_esb_packet_fragments_witness :
  exists frames,
    compose_esb_packet (slice 10 26 log_tx) 17 [0x15] (0x80 :: [0x0b])
      (SerInt 99978563412) (SerInt 114172220143) = Ok frames
    /\ length frames = ((length (slice 10 26 log_tx) + 16) / 17)%nat
    /\ Forall2 (fun k raw =>
                  exists f, parse 0 raw = Ok f
                            /\ InverterPacketFragment.seq f = Ok 0x80
                            /\ InverterPacketFragment.data f
                               = [0x0b] ++ slice (k * 17) (k * 17 + 17) (slice 10 26 log_tx))
               (seq 0 ((length (slice 10 26 log_tx) + 16) / 17)) frames.
Proof.
  apply (compose_esb_packet_fragments (slice 10 26 log_tx) [0x0b] 0x15 0x80
           (SerInt 99978563412) (SerInt 114172220143)
           [0x78; 0x56; 0x34; 0x12] [0x72; 0x22; 0x01; 0x43] 0).
  - vm_compute. repeat constructor; discriminate.
  - unfold is_byte. lia.
  - unfold is_byte. lia.
  - repeat constructor; unfold is_byte; lia.
  - vm_compute. reflexivity.
  - vm_compute. reflexivity.
Defined.

Lemma pack_L_ok (z : Z) :
  0 <= z < 4294967296 ->
  pack_L z = Ok [z / 16777216; (z / 65536) mod 256; (z / 256) mod 256; z mod 256]
  /\ unpack_L [z / 16777216; (z / 65536) mod 256; (z / 256) mod 256; z mod 256] = Ok z.
Proof.
  intros Hz. split.
  - unfold pack_L. destruct (0 <=? z) eqn:H0; destruct (z <=? 4294967295) eqn:H1;
      try reflexivity; lia.
  - cbn [unpack_L]. f_equal. Z.div_mod_to_equations. lia.
Qed.

(** X6: for a timestamp of 32 bits [compose_set_time_payload] returns
    16 bytes: [0B 00], the timestamp big-endian, [00 00 00 05 00 00 00 00]
    and the Modbus CRC-16 of these 14 bytes, so that the payload passes
    the check [get_payload] makes and the timestamp reads back. A
    timestamp of [0] or [None] stands for the clock, and every timestamp
    of [2^32] or more, or below zero, raises [struct.error]. *)
Theorem compose_set_time_payload_layout (clock ts : Z) :
  0 < ts < 4294967296 ->
  exists payload,
    compose_set_time_payload clock (Some ts) = Ok payload
    /\ length payload = 16%nat
    /\ Forall is_byte payload
    /\ crc_m_valid payload
    /\ take 2 payload = [0x0b; 0x00]
    /\ unpack_L (slice 2 6 payload) = Ok ts
    /\ slice 6 14 payload = [0x00; 0x00; 0x00; 0x05; 0x00; 0x00; 0x00; 0x00]
    /\ compose_set_time_payload ts (Some 0) = Ok payload
    /\ compose_set_time_payload ts None = Ok payload
    /\ (forall big, 4294967296 <= big ->
          compose_set_time_payload clock (Some big) = Raise StructError)
    /\ (forall negative, negative < 0 ->
          compose_set_time_payload clock (Some negative) = Raise StructError).
Proof.
  intros Hts. unfold compose_set_time_payload. cbn [Z.eqb].
  replace (ts =? 0) with false by (symmetry; apply Z.eqb_neq; lia).
  destruct (pack_L_ok ts ltac:(lia)) as [Hpack Hunpack].
  rewrite Hpack. cbn [rbind app]. unfold frame_payload.
  set (b3 := ts / 16777216) in *. set (b2 := (ts / 65536) mod 256) in *.
  set (b1 := (ts / 256) mod 256) in *. set (b0 := ts mod 256) in *.
  set (body := [0x0b; 0x00; b3; b2; b1; b0; 0; 0; 0; 5; 0; 0; 0; 0]).
  assert (Hbody : Forall is_byte body).
  { destruct (pack_L_bytes ts _ Hpack) as [_ Hb].
    inversion Hb as [|? ? B3 Hb2]; subst. inversion Hb2 as [|? ? B2 Hb1]; subst.
    inversion Hb1 as [|? ? B1 Hb0]; subst. inversion Hb0 as [|? ? B0 _]; subst.
    subst body.
    repeat (apply List.Forall_cons; [first [assumption | unfold is_byte; lia]|]).
    apply List.Forall_nil. }
  rewrite pack_H_ok by (apply f_crc_m_range, Hbody). cbn [rbind].
  exists (body ++ [f_crc_m body / 256; f_crc_m body mod 256]).
  split; [reflexivity|]. split; [reflexivity|].
  split; [apply Forall_app_2; [exact Hbody | apply pack_H_bytes, f_crc_m_range, Hbody]|].
  split; [apply crc_m_valid_framed, Hbody|].
  split; [reflexivity|]. split; [exact Hunpack|]. split; [reflexivity|].
  split; [reflexivity|]. split; [reflexivity|].
  split.
  - intros big Hbig.
    replace (big =? 0) with false by (symmetry; apply Z.eqb_neq; lia).
    unfold pack_L.
    replace ((0 <=? big) && (big <=? 4294967295)) with false; [reflexivity|].
    symmetry. apply andb_false_iff. right. apply Z.leb_gt. lia.
  - intros negative Hneg.
    replace (negative =? 0) with false by (symmetry; apply Z.eqb_neq; lia).
    unfold pack_L.
    replace ((0 <=? negative) && (negative <=? 4294967295)) with false; [reflexivity|].
    symmetry. apply andb_false_iff. left. apply Z.leb_gt. lia.
Qed.

Lemma compose_set_time_payload_layout_witness :
  exists payload,
    compose_set_time_payload 0 (Some 0x626e60ee) = Ok payload
    /\ length payload = 16%nat
    /\ Forall is_byte payload
    /\ crc_m_valid payload
    /\ take 2 payload = [0x0b; 0x00]
    /\ unpack_L (slice 2 6 payload) = Ok 0x626e60ee
    /\ slice 6 14 payload = [0x00; 0x00; 0x00; 0x05; 0x00; 0x00; 0x00; 0x00]
    /\ compose_set_time_payload 0x626e60ee (Some 0) = Ok payload
    /\ compose_set_time_payload 0x626e60ee None = Ok payload
    /\ (forall big, 4294967296 <= big ->
          compose_set_time_payload 0 (Some big) = Raise StructError)
    /\ (forall negative, negative < 0 ->
          compose_set_time_payload 0 (Some negative) = Raise StructError).
Proof. apply (compose_set_time_payload_layout 0 0x626e60ee). lia. Defined.

Example compose_esb_packet_mtu_zero :
  compose_esb_packet (slice 10 26 log_tx) 0 [0x15] [0x80]
    (SerInt 99978563412) (SerInt 114172220143) = Raise (ValueError RangeStepZero).
Proof. reflexivity. Qed.
Example compose_esb_packet_mtu_negative :
  compose_esb_packet (slice 10 26 log_tx) (-1) [0x15] [0x80]
    (SerInt 99978563412) (SerInt 114172220143) = Ok [].
Proof. reflexivity. Qed.
Example compose_esb_packet_log_tx :
  compose_esb_packet (slice 10 26 log_tx) 17 [0x15] [0x80]
    (SerInt 99978563412) (SerInt 114172220143) = Ok [log_tx].
Proof. vm_compute. reflexivity. Qed.

Example compose_set_time_payload_log :
  compose_set_time_payload 0 (Some 0x626e60ee) = Ok (slice 10 26 log_tx).
Proof. vm_compute. reflexivity. Qed.

(** * Transactions: what [__init__] sets up *)

Lemma src_of_five_bytes (f : InverterPacketFragment.t) :
  (5 <= length (InverterPacketFragment.frame f))%nat ->
  exists v, InverterPacketFragment.src f = Ok v.
Proof.
  unfold InverterPacketFragment.src.
  destruct (InverterPacketFragment.frame f) as [|b0 [|b1 [|b2 [|b3 [|b4 rest]]]]];
    cbn [length]; intros Hlen; try lia.
  eexists. reflexivity.
Qed.

Lemma init_without_request_addr (now : Z) (request_time : option Z)
    (inverter_ser dtu_ser : serial) (radio : bool) (txpower_kw : option string)
    (scratch_kw : option loc) (w w' : World) (self : InverterTransaction.t) :
  InverterTransaction.init now request_time inverter_ser dtu_ser radio txpower_kw scratch_kw
    None w = (Ok self, w') ->
  forall n, InverterTransaction.inverter_addr self <> AInt n.
Proof.
  unfold InverterTransaction.init, mbind, new_list, lift, mret.
  destruct (ser_truthy inverter_ser); [destruct (ser_to_hm_addr inverter_ser)|];
    cbn [rbind]; try discriminate;
    (destruct (ser_truthy dtu_ser); [destruct (ser_to_hm_addr dtu_ser)|];
     cbn [rbind]; try discriminate);
    intros H; inversion H; subst; cbn [InverterTransaction.inverter_addr];
    intros n; discriminate.
Qed.

(** X7: a transaction made without the [request] keyword holds its
    inverter address as [bytes] (or [None]), which no integer [frame.src]
    equals: [get_payload()] with the default source selects nothing and
    raises the [ValueError] of [max] on an empty sequence, whatever
    fragments the scratch holds. *)
Theorem get_payload_default_src_without_request (now : Z) (request_time : option Z)
    (inverter_ser dtu_ser : serial) (radio : bool) (txpower_kw : option string)
    (scratch_kw : option loc) (w w' w2 : World) (self : InverterTransaction.t) :
  InverterTransaction.init now request_time inverter_ser dtu_ser radio txpower_kw scratch_kw
    None w = (Ok self, w') ->
  Forall (fun f => (5 <= length (InverterPacketFragment.frame f))%nat) (scratch_of self w2) ->
  InverterTransaction.get_payload self ANone w2
  = (Raise (ValueError MaxEmptySequence), self, w2).
Proof.
  intros Hinit Hfr. pose proof (init_without_request_addr _ _ _ _ _ _ _ _ _ _ Hinit) as Haddr.
  unfold InverterTransaction.get_payload. cbn [addr_truthy negb].
  rewrite (filter_r_none _ (read_list w2 (InverterTransaction.scratch self))); [reflexivity|].
  eapply Forall_impl; [exact Hfr|]. intros f Hlen.
  destruct (src_of_five_bytes f Hlen) as (v & Hv).
  unfold InverterTransaction.src_is. rewrite Hv. cbn [rbind].
  destruct (InverterTransaction.inverter_addr self) as [|b|n] eqn:Ha; try reflexivity.
  exfalso. exact (Haddr n eq_refl).
Qed.

Lemma get_payload_default_src_without_request_witness :
  InverterTransaction.get_payload
    (InverterTransaction.mk 0%nat (SerInt 114172220143) (ABytes [0x72; 0x22; 0x01; 0x43])
       (SerInt 99978563412) (Some (ABytes [0x78; 0x56; 0x34; 0x12])) None None true None None 7)
    ANone (world_with [fragment_of log_rx1; fragment_of log_rx2; fragment_of log_rx3])
  = (Raise (ValueError MaxEmptySequence),
     InverterTransaction.mk 0%nat (SerInt 114172220143) (ABytes [0x72; 0x22; 0x01; 0x43])
       (SerInt 99978563412) (Some (ABytes [0x78; 0x56; 0x34; 0x12])) None None true None None 7,
     world_with [fragment_of log_rx1; fragment_of log_rx2; fragment_of log_rx3]).
Proof.
  apply (get_payload_default_src_without_request 7 None (SerInt 114172220143)
           (SerInt 99978563412) true None None world_start
           (mkWorld [] {[ 0%nat := [] ]} HoymilesNRF.class_defaults)).
  - vm_compute. reflexivity.
  - vm_compute. repeat constructor; lia.
Defined.

Lemma lift_addr_ok (ser : serial) (a : bytes) :
  ser_to_hm_addr ser = Ok a ->
  (if ser_truthy ser then (x <-! ser_to_hm_addr ser; Ok (ABytes x))%res else Ok ANone)
  = Ok (if ser_truthy ser then ABytes a else ANone).
Proof. intros H. rewrite H. destruct (ser_truthy ser); reflexivity. Qed.

Lemma lift_dtu_addr_ok (ser : serial) (a : bytes) :
  ser_to_hm_addr ser = Ok a ->
  (if ser_truthy ser then (x <-! ser_to_hm_addr ser; Ok (Some (ABytes x)))%res else Ok None)
  = Ok (if ser_truthy ser then Some (ABytes a) else None).
Proof. intros H. rewrite H. destruct (ser_truthy ser); reflexivity. Qed.

Lemma fresh_list_unused (w : World) : lists w !! fresh (dom (lists w)) = None.
Proof. apply not_elem_of_dom. apply is_fresh. Qed.

(** X8: with the [request] keyword (a request of at least 11 bytes)
    [__init__] takes the addresses from the request, not from the serials:
    [inverter_addr] and [dtu_addr] are the integers of bytes 1..4 and 5..8,
    [req_type] is byte 10. The request is queued when there is a radio,
    and the scratch is a new, empty list that no other object refers to;
    the other lists are untouched. *)
Theorem init_with_request (now : Z) (request_time : option Z)
    (inverter_ser dtu_ser : serial) (radio : bool) (txpower_kw : option string)
    (request a_inv a_dtu : bytes) (w : World) :
  ser_to_hm_addr inverter_ser = Ok a_inv -> ser_to_hm_addr dtu_ser = Ok a_dtu ->
  (11 <= length request)%nat ->
  exists self w',
    InverterTransaction.init now request_time inverter_ser dtu_ser radio txpower_kw None
      (Some request) w = (Ok self, w')
    /\ InverterTransaction.inverter_addr self = AInt (be32 (slice 1 5 request))
    /\ InverterTransaction.dtu_addr self = Some (AInt (be32 (slice 5 9 request)))
    /\ InverterTransaction.req_type self = request !! 10%nat
    /\ InverterTransaction.request self = Some request
    /\ tx_queue w' = (if radio then tx_queue w ++ [request] else tx_queue w)
    /\ lists w !! InverterTransaction.scratch self = None
    /\ scratch_of self w' = []
    /\ (forall l, l <> InverterTransaction.scratch self -> lists w' !! l = lists w !! l).
Proof.
  intros Hinv Hdtu Hlen.
  unfold InverterTransaction.init, mbind, new_list, lift, mret.
  rewrite (lift_addr_ok _ _ Hinv), (lift_dtu_addr_ok _ _ Hdtu).
  unfold InverterTransaction.queue_tx. cbn [InverterTransaction.radio].
  destruct request as [|b0 [|b1 [|b2 [|b3 [|b4 [|b5 [|b6 [|b7 [|b8 [|b9 [|b10 rest]]]]]]]]]]];
    cbn [length] in Hlen; try lia.
  set (request := b0 :: b1 :: b2 :: b3 :: b4 :: b5 :: b6 :: b7 :: b8 :: b9 :: b10 :: rest).
  change (slice 1 11 request) with [b1; b2; b3; b4; b5; b6; b7; b8; b9; b10].
  destruct radio; cbn [negb]; eexists; eexists; (split; [reflexivity|]);
    cbn [InverterTransaction.inverter_addr InverterTransaction.dtu_addr
         InverterTransaction.req_type InverterTransaction.request
         InverterTransaction.scratch];
    (split; [reflexivity|]); (split; [reflexivity|]); (split; [reflexivity|]);
    (split; [reflexivity|]); (split; [reflexivity|]);
    (split; [apply fresh_list_unused|]);
    (split; [unfold scratch_of, read_list, set_tx_queue, set_list;
             cbn [lists InverterTransaction.scratch]; rewrite lookup_insert_eq; reflexivity|]);
    intros l Hl; unfold set_tx_queue, set_list; cbn [lists];
    apply lookup_insert_ne; congruence.
Qed.

Lemma init_with_request_witness :
  exists self w',
    InverterTransaction.init 0 None (SerInt 114172220143) (SerInt 99978563412) true None None
      (Some log_tx) world_start = (Ok self, w')
    /\ InverterTransaction.inverter_addr self = AInt (be32 (slice 1 5 log_tx))
    /\ InverterTransaction.dtu_addr self = Some (AInt (be32 (slice 5 9 log_tx)))
    /\ InverterTransaction.req_type self = log_tx !! 10%nat
    /\ InverterTransaction.request self = Some log_tx
    /\ tx_queue w' = (if true then tx_queue world_start ++ [log_tx] else tx_queue world_start)
    /\ lists world_start !! InverterTransaction.scratch self = None
    /\ scratch_of self w' = []
    /\ (forall l, l <> InverterTransaction.scratch self ->
                  lists w' !! l = lists world_start !! l).
Proof.
  apply (init_with_request 0 None (SerInt 114172220143) (SerInt 99978563412) true None
           log_tx [0x72; 0x22; 0x01; 0x43] [0x78; 0x56; 0x34; 0x12] world_start).
  - vm_compute. reflexivity.
  - vm_compute. reflexivity.
  - vm_compute. lia.
Defined.

(** X9: a request of fewer than 11 bytes makes [__init__] raise
    [struct.error], but only after [queue_tx]: with a radio the request
    stays in the queue that all transactions share. *)
Theorem init_with_short_request (now : Z) (request_time : option Z)
    (inverter_ser dtu_ser : serial) (radio : bool) (txpower_kw : option string)
    (scratch_kw : option loc) (request a_inv a_dtu : bytes) (w : World) :
  ser_to_hm_addr inverter_ser = Ok a_inv -> ser_to_hm_addr dtu_ser = Ok a_dtu ->
  (length request < 11)%nat ->
  exists w',
    InverterTransaction.init now request_time inverter_ser dtu_ser radio txpower_kw scratch_kw
      (Some request) w = (Raise StructError, w')
    /\ tx_queue w' = (if radio then tx_queue w ++ [request] else tx_queue w).
Proof.
  intros Hinv Hdtu Hlen.
  unfold InverterTransaction.init, mbind, new_list, lift, mret.
  rewrite (lift_addr_ok _ _ Hinv), (lift_dtu_addr_ok _ _ Hdtu).
  unfold InverterTransaction.queue_tx. cbn [InverterTransaction.radio].
  destruct request as [|b0 [|b1 [|b2 [|b3 [|b4 [|b5 [|b6 [|b7 [|b8 [|b9 [|b10 rest]]]]]]]]]]];
    cbn [length] in Hlen; try lia;
    destruct radio; cbn [negb]; eexists; split; reflexivity.
Qed.

Lemma init_with_short_request_witness :
  exists w',
    InverterTransaction.init 0 None (SerInt 114172220143) (SerInt 99978563412) true None None
      (Some (take 10 log_tx)) world_start = (Raise StructError, w')
    /\ tx_queue w' = (if true then tx_queue world_start ++ [take 10 log_tx]
                      else tx_queue world_start).
Proof.
  apply (init_with_short_request 0 None (SerInt 114172220143) (SerInt 99978563412) true None
           None (take 10 log_tx) [0x72; 0x22; 0x01; 0x43] [0x78; 0x56; 0x34; 0x12] world_start).
  - vm_compute. reflexivity.
  - vm_compute. reflexivity.
  - vm_compute. lia.
Defined.

(** * The receive loop and [rxtx] *)

Lemma rx_channel_in_range (r : HoymilesNRF.t) :
  (HoymilesNRF.rx_channel_id r < length (HoymilesNRF.rx_channel_list r))%nat ->
  exists c, HoymilesNRF.rx_channel r = Ok c /\ In c (HoymilesNRF.rx_channel_list r).
Proof.
  intros Hlt. unfold HoymilesNRF.rx_channel.
  destruct (lookup_lt_is_Some_2 _ _ Hlt) as [c Hc]. rewrite Hc. exists c.
  split; [reflexivity|]. apply list_elem_of_In. eapply list_elem_of_lookup_2. exact Hc.
Qed.

Lemma tx_channel_in_range (r : HoymilesNRF.t) :
  (HoymilesNRF.tx_channel_id r < length (HoymilesNRF.tx_channel_list r))%nat ->
  exists c, HoymilesNRF.tx_channel r = Ok c.
Proof.
  intros Hlt. unfold HoymilesNRF.tx_channel.
  destruct (lookup_lt_is_Some_2 _ _ Hlt) as [c Hc]. rewrite Hc. exists c. reflexivity.
Qed.

Lemma empty_poll_unacked (r : HoymilesNRF.t) (now : Z) :
  HoymilesNRF.rx_channel_ack r = false ->
  (HoymilesNRF.rx_channel_id r < length (HoymilesNRF.rx_channel_list r))%nat ->
  HoymilesNRF.receive_poll r now None
  = (Ok None,
     HoymilesNRF.set_rx
       ((HoymilesNRF.rx_channel_id r + 1) mod length (HoymilesNRF.rx_channel_list r))
       false (HoymilesNRF.rx_error r + 1) r).
Proof.
  intros Hack Hlt. destruct r as [txi txl rxi rxl ack err pw].
  cbn [HoymilesNRF.rx_channel_ack HoymilesNRF.rx_channel_id HoymilesNRF.rx_channel_list
       HoymilesNRF.rx_error] in *. subst ack.
  unfold HoymilesNRF.receive_poll, HoymilesNRF.set_rx.
  cbn [HoymilesNRF.rx_channel_ack HoymilesNRF.rx_channel_id HoymilesNRF.rx_channel_list
       HoymilesNRF.rx_error HoymilesNRF.tx_channel_id HoymilesNRF.tx_channel_list
       HoymilesNRF.txpower].
  assert (Hmod : (if (length rxl <=? rxi + 1)%nat then 0%nat else (rxi + 1)%nat)
                 = ((rxi + 1) mod length rxl)%nat).
  { destruct (Nat.leb_spec (length rxl) (rxi + 1)) as [Hle|Hgt].
    - replace (rxi + 1)%nat with (length rxl) by lia. rewrite Nat.Div0.mod_same. reflexivity.
    - rewrite Nat.mod_small by lia. reflexivity. }
  assert (Hin : ((rxi + 1) mod length rxl < length rxl)%nat)
    by (apply Nat.mod_upper_bound; lia).
  destruct (lookup_lt_is_Some_2 _ _ Hin) as [c Hc].
  destruct (1 <? err + 1);
    unfold HoymilesNRF.next_rx_channel, HoymilesNRF.set_rx, HoymilesNRF.rx_channel;
    cbn [HoymilesNRF.rx_channel_ack HoymilesNRF.rx_channel_id HoymilesNRF.rx_channel_list
         HoymilesNRF.rx_error HoymilesNRF.tx_channel_id HoymilesNRF.tx_channel_list
         HoymilesNRF.txpower negb];
    rewrite Hmod, Hc; reflexivity.
Qed.

(** X10: while the current channel is un-acked the receive loop walks
    the hop list round-robin: after [k] empty polls the index is
    [(i + k) mod len], the miss counter has grown by [k], nothing was
    yielded and nothing raised; after [len] empty polls the radio is back
    on the channel it started from. *)
Theorem empty_polls_cycle_hop_list (r : HoymilesNRF.t) (times : list Z) :
  HoymilesNRF.rx_channel_ack r = false ->
  (HoymilesNRF.rx_channel_id r < length (HoymilesNRF.rx_channel_list r))%nat ->
  HoymilesNRF.receive r (map (fun now => (now, None)) times)
  = ([], None,
     match times with
     | [] => r
     | _ => HoymilesNRF.set_rx
              ((HoymilesNRF.rx_channel_id r + length times)
               mod length (HoymilesNRF.rx_channel_list r))
              false (HoymilesNRF.rx_error r + Z.of_nat (length times)) r
     end).
Proof.
  intros Hack Hlt. unfold HoymilesNRF.receive.
  destruct (rx_channel_in_range r Hlt) as (c & -> & _).
  revert r Hack Hlt. induction times as [|now times IH]; intros r Hack Hlt; [reflexivity|].
  cbn [map HoymilesNRF.receive_loop]. rewrite (empty_poll_unacked r now Hack Hlt).
  set (r1 := HoymilesNRF.set_rx _ false (HoymilesNRF.rx_error r + 1) r).
  assert (Hlt1 : (HoymilesNRF.rx_channel_id r1 < length (HoymilesNRF.rx_channel_list r1))%nat).
  { subst r1. cbn. apply Nat.mod_upper_bound. lia. }
  rewrite (IH r1 eq_refl Hlt1). f_equal.
  destruct times as [|now' times]; subst r1.
  - cbn [length]. unfold HoymilesNRF.set_rx. f_equal.
  - unfold HoymilesNRF.set_rx.
    cbn [HoymilesNRF.rx_channel_id HoymilesNRF.rx_channel_list HoymilesNRF.rx_error
         HoymilesNRF.tx_channel_id HoymilesNRF.tx_channel_list HoymilesNRF.txpower].
    f_equal.
    + rewrite Nat.Div0.add_mod_idemp_l. f_equal. cbn [length]. lia.
    + cbn [length]. lia.
Qed.

Lemma empty_polls_cycle_hop_list_witness :
  HoymilesNRF.receive HoymilesNRF.class_defaults
    (map (fun now => (now, None)) [1; 2; 3; 4; 5])
  = ([], None,
     HoymilesNRF.set_rx
       ((HoymilesNRF.rx_channel_id HoymilesNRF.class_defaults + length [1; 2; 3; 4; 5])
        mod length (HoymilesNRF.rx_channel_list HoymilesNRF.class_defaults))
       false
       (HoymilesNRF.rx_error HoymilesNRF.class_defaults + Z.of_nat (length [1; 2; 3; 4; 5]))
       HoymilesNRF.class_defaults).
Proof.
  apply (empty_polls_cycle_hop_list HoymilesNRF.class_defaults [1; 2; 3; 4; 5]).
  - reflexivity.
  - cbn. lia.
Defined.

Lemma checksum_ok_last (payload : bytes) :
  checksum_ok payload = true ->
  exists trailer, last payload = Some trailer
                  /\ (f_crc8 (but_last 1 payload) =? trailer) = true.
Proof.
  unfold checksum_ok. destruct (last payload) as [trailer|]; [|discriminate].
  intros H. exists trailer. split; [reflexivity | exact H].
Qed.

Lemma receive_poll_accepted (r : HoymilesNRF.t) (now : Z) (payload : bytes) :
  channels_valid r -> checksum_ok payload = true ->
  exists c t,
    In c (HoymilesNRF.rx_channel_list r)
    /\ HoymilesNRF.tx_channel r = Ok t
    /\ HoymilesNRF.receive_poll r now (Some payload)
       = (Ok (Some (InverterPacketFragment.mk now payload (Some c) (Some t))),
          HoymilesNRF.set_rx (HoymilesNRF.rx_channel_id r) true 0 r).
Proof.
  intros [Hrx Htx] Hok.
  destruct (rx_channel_in_range r Hrx) as (c & Hc & Hin).
  destruct (tx_channel_in_range r Htx) as (t & Ht).
  destruct (checksum_ok_last payload Hok) as (trailer & Hl & Hcrc).
  exists c, t. split; [exact Hin|]. split; [exact Ht|].
  unfold HoymilesNRF.receive_poll.
  change (HoymilesNRF.rx_channel (HoymilesNRF.set_rx (HoymilesNRF.rx_channel_id r) true 0 r))
    with (HoymilesNRF.rx_channel r).
  change (HoymilesNRF.tx_channel (HoymilesNRF.set_rx (HoymilesNRF.rx_channel_id r) true 0 r))
    with (HoymilesNRF.tx_channel r).
  rewrite Hc, Ht. cbn [rbind]. unfold InverterPacketFragment.init.
  rewrite Hl, Hcrc. reflexivity.
Qed.

Lemma receive_poll_rejected (r : HoymilesNRF.t) (now : Z) (payload : bytes) :
  channels_valid r -> checksum_ok payload = false ->
  HoymilesNRF.receive_poll r now (Some payload)
  = (Raise (rejected_with payload),
     HoymilesNRF.set_rx (HoymilesNRF.rx_channel_id r) true 0 r).
Proof.
  intros [Hrx Htx] Hbad.
  destruct (rx_channel_in_range r Hrx) as (c & Hc & _).
  destruct (tx_channel_in_range r Htx) as (t & Ht).
  unfold HoymilesNRF.receive_poll.
  change (HoymilesNRF.rx_channel (HoymilesNRF.set_rx (HoymilesNRF.rx_channel_id r) true 0 r))
    with (HoymilesNRF.rx_channel r).
  change (HoymilesNRF.tx_channel (HoymilesNRF.set_rx (HoymilesNRF.rx_channel_id r) true 0 r))
    with (HoymilesNRF.tx_channel r).
  rewrite Hc, Ht. cbn [rbind]. unfold InverterPacketFragment.init.
  unfold checksum_ok in Hbad.
  destruct payload as [|b payload]; [reflexivity|].
  destruct (last (b :: payload)) as [trailer|] eqn:Hl.
  - rewrite Hbad. reflexivity.
  - apply last_None in Hl. discriminate Hl.
Qed.

Lemma receive_poll_nothing (r : HoymilesNRF.t) (now : Z) :
  channels_valid r ->
  exists r',
    HoymilesNRF.receive_poll r now None = (Ok None, r')
    /\ channels_valid r'
    /\ HoymilesNRF.rx_channel_list r' = HoymilesNRF.rx_channel_list r
    /\ HoymilesNRF.tx_channel r' = HoymilesNRF.tx_channel r.
Proof.
  intros [Hrx Htx]. destruct r as [txi txl rxi rxl ack err pw].
  cbn [HoymilesNRF.rx_channel_id HoymilesNRF.rx_channel_list HoymilesNRF.tx_channel_id
       HoymilesNRF.tx_channel_list] in Hrx, Htx.
  unfold HoymilesNRF.receive_poll, HoymilesNRF.set_rx.
  cbn [HoymilesNRF.rx_channel_ack HoymilesNRF.rx_channel_id HoymilesNRF.rx_channel_list
       HoymilesNRF.rx_error HoymilesNRF.tx_channel_id HoymilesNRF.tx_channel_list
       HoymilesNRF.txpower].
  assert (Hin : ((if (length rxl <=? rxi + 1)%nat then 0 else rxi + 1) < length rxl)%nat).
  { destruct (Nat.leb_spec (length rxl) (rxi + 1)); lia. }
  destruct (lookup_lt_is_Some_2 _ _ Hin) as [c Hc].
  destruct (1 <? err + 1), ack;
    unfold HoymilesNRF.next_rx_channel, HoymilesNRF.set_rx, HoymilesNRF.rx_channel;
    cbn [HoymilesNRF.rx_channel_ack HoymilesNRF.rx_channel_id HoymilesNRF.rx_channel_list
         HoymilesNRF.rx_error HoymilesNRF.tx_channel_id HoymilesNRF.tx_channel_list
         HoymilesNRF.txpower negb];
    try rewrite Hc; eexists; (split; [reflexivity|]);
    (split; [split; cbn; assumption|]); split; reflexivity.
Qed.

Lemma receive_loop_app (r : HoymilesNRF.t) (p1 p2 : list (Z * option bytes)) :
  HoymilesNRF.receive_loop r (p1 ++ p2)
  = let '(f1, e1, r1) := HoymilesNRF.receive_loop r p1 in
    match e1 with
    | Some e => (f1, Some e, r1)
    | None => let '(f2, e2, r2) := HoymilesNRF.receive_loop r1 p2 in (f1 ++ f2, e2, r2)
    end.
Proof.
  revert r. induction p1 as [|[now poll] p1 IH]; intros r.
  - cbn. destruct (HoymilesNRF.receive_loop r p2) as [[f2 e2] r2]. reflexivity.
  - cbn [app HoymilesNRF.receive_loop].
    destruct (HoymilesNRF.receive_poll r now poll) as [[yielded|e] r0]; [|reflexivity].
    rewrite IH. destruct (HoymilesNRF.receive_loop r0 p1) as [[f1 [e1|]] r1]; [reflexivity|].
    destruct (HoymilesNRF.receive_loop r1 p2) as [[f2 e2] r2].
    destruct yielded; reflexivity.
Qed.

Lemma receive_loop_accepted (r : HoymilesNRF.t) (polls : list (Z * option bytes)) :
  channels_valid r ->
  Forall (fun p => checksum_ok (snd p) = true) (received_at polls) ->
  exists fragments r',
    HoymilesNRF.receive_loop r polls = (fragments, None, r')
    /\ map (fun f => (InverterPacketFragment.time_rx f, InverterPacketFragment.frame f))
           fragments = received_at polls
    /\ Forall (fun f => (exists c, InverterPacketFragment.ch_rx f = Some c
                                   /\ In c (HoymilesNRF.rx_channel_list r))
                        /\ Ok (InverterPacketFragment.ch_tx f)
                           = (t <-! HoymilesNRF.tx_channel r; Ok (Some t))%res) fragments
    /\ channels_valid r'
    /\ HoymilesNRF.rx_channel_list r' = HoymilesNRF.rx_channel_list r
    /\ HoymilesNRF.tx_channel r' = HoymilesNRF.tx_channel r.
Proof.
  revert r. induction polls as [|[now [payload|]] polls IH]; intros r Hv Hok.
  - exists [], r. repeat split; try apply Hv. constructor.
  - cbn [received_at omap snd fst] in Hok.
    change (omap _ polls) with (received_at polls) in Hok.
    apply List.Forall_cons_iff in Hok. destruct Hok as [Hp Hok]. cbn [snd] in Hp.
    destruct (receive_poll_accepted r now payload Hv Hp) as (c & t & Hin & Ht & Hpoll).
    set (r1 := HoymilesNRF.set_rx (HoymilesNRF.rx_channel_id r) true 0 r) in *.
    assert (Hv1 : channels_valid r1) by exact Hv.
    destruct (IH r1 Hv1 Hok) as (fs & r' & Hloop & Hmap & Hch & Hv' & Hl' & Ht').
    exists (InverterPacketFragment.mk now payload (Some c) (Some t) :: fs), r'.
    cbn [HoymilesNRF.receive_loop]. rewrite Hpoll, Hloop.
    split; [reflexivity|]. split; [cbn; rewrite Hmap; reflexivity|].
    split; [|split; [exact Hv'|split; [exact Hl'|exact Ht']]].
    constructor; [|exact Hch].
    split; [exists c; split; [reflexivity|exact Hin]|]. rewrite Ht. reflexivity.
  - cbn [received_at omap snd] in Hok.
    change (omap _ polls) with (received_at polls) in Hok.
    destruct (receive_poll_nothing r now Hv) as (r1 & Hpoll & Hv1 & Hl1 & Ht1).
    destruct (IH r1 Hv1 Hok) as (fs & r' & Hloop & Hmap & Hch & Hv' & Hl' & Ht').
    exists fs, r'. cbn [HoymilesNRF.receive_loop]. rewrite Hpoll, Hloop.
    split; [reflexivity|]. split; [exact Hmap|].
    split; [|split; [exact Hv'|split; [congruence|congruence]]].
    rewrite <- Hl1, <- Ht1. exact Hch.
Qed.

Lemma append_all_frame (self : InverterTransaction.t)
    (fragments : list InverterPacketFragment.t) (w : World) :
  tx_queue (append_all self fragments w) = tx_queue w
  /\ nrf (append_all self fragments w) = nrf w
  /\ (forall l, l <> InverterTransaction.scratch self ->
                lists (append_all self fragments w) !! l = lists w !! l).
Proof.
  revert w. induction fragments as [|f fs IH]; intros w; [repeat split|].
  unfold append_all in *. cbn [fold_left].
  destruct (IH (snd (InverterTransaction.frame_append self f w))) as (Hq & Hn & Hl).
  rewrite Hq, Hn. split; [reflexivity|]. split; [reflexivity|].
  intros l Hne. rewrite (Hl l Hne). cbn. apply lookup_insert_ne. congruence.
Qed.

(** X11: with a radio and a request in the queue, [rxtx] takes the
    oldest request off the queue (first in, first out) and, when the
    channel indices are valid and every payload read carries its checksum,
    appends one fragment per payload to the scratch of the transaction, in
    the order of arrival, each with its frame and the time of its poll; it
    returns whether anything was received. No other list changes. *)
Theorem rxtx_sends_oldest_and_collects (self : InverterTransaction.t)
    (polls : list (Z * option bytes)) (w : World) (packet : bytes) (queue : list bytes) :
  InverterTransaction.radio self = true ->
  tx_queue w = packet :: queue ->
  channels_valid (nrf w) ->
  Forall (fun p => checksum_ok (snd p) = true) (received_at polls) ->
  exists fragments w',
    InverterTransaction.rxtx self polls w
    = (Ok (negb (length (received_at polls) =? 0)%nat), w')
    /\ tx_queue w' = queue
    /\ scratch_of self w' = scratch_of self w ++ fragments
    /\ map (fun f => (InverterPacketFragment.time_rx f, InverterPacketFragment.frame f))
           fragments = received_at polls
    /\ (forall l, l <> InverterTransaction.scratch self -> lists w' !! l = lists w !! l)
    /\ channels_valid (nrf w').
Proof.
  intros Hradio Hq Hv Hok.
  destruct (receive_loop_accepted (nrf w) polls Hv Hok)
    as (fs & r' & Hloop & Hmap & _ & Hv' & _ & _).
  destruct Hv as [Hrx Htx].
  destruct (rx_channel_in_range _ Hrx) as (c & Hc & _).
  destruct (tx_channel_in_range _ Htx) as (t & Ht).
  exists fs, (append_all self fs (set_nrf r' (set_tx_queue queue w))).
  unfold InverterTransaction.rxtx. rewrite Hradio, Hq. cbn [negb].
  unfold HoymilesNRF.transmit, HoymilesNRF.receive.
  cbn [nrf set_tx_queue]. rewrite Ht, Hc. cbn [rbind]. rewrite Hloop.
  fold (append_all self fs (set_nrf r' (set_tx_queue queue w))).
  destruct (append_all_frame self fs (set_nrf r' (set_tx_queue queue w))) as (Haq & Han & Hal).
  split; [rewrite <- Hmap, length_map; reflexivity|].
  split; [rewrite Haq; reflexivity|].
  split; [rewrite append_all_scratch; reflexivity|].
  split; [exact Hmap|].
  split; [intros l Hne; rewrite (Hal l Hne); reflexivity|].
  rewrite Han. exact Hv'.
Qed.

Lemma rxtx_sends_oldest_and_collects_witness :
  exists fragments w',
    InverterTransaction.rxtx log_transaction
      [(1, None); (2, Some log_rx1); (3, None); (4, Some log_rx2); (5, Some log_rx3)]
      (mkWorld [log_tx; single_fragment_frame] {[ 0%nat := [] ]} HoymilesNRF.class_defaults)
    = (Ok (negb (Nat.eqb (length (received_at [(1, None); (2, Some log_rx1); (3, None);
                                               (4, Some log_rx2); (5, Some log_rx3)]))
                         0)), w')
    /\ tx_queue w' = [single_fragment_frame]
    /\ scratch_of log_transaction w'
       = scratch_of log_transaction
           (mkWorld [log_tx; single_fragment_frame] {[ 0%nat := [] ]}
              HoymilesNRF.class_defaults) ++ fragments
    /\ map (fun f => (InverterPacketFragment.time_rx f, InverterPacketFragment.frame f))
           fragments
       = received_at [(1, None); (2, Some log_rx1); (3, None); (4, Some log_rx2);
                      (5, Some log_rx3)]
    /\ (forall l, l <> InverterTransaction.scratch log_transaction ->
                  lists w' !! l
                  = lists (mkWorld [log_tx; single_fragment_frame] {[ 0%nat := [] ]}
                             HoymilesNRF.class_defaults) !! l)
    /\ channels_valid (nrf w').
Proof.
  apply (rxtx_sends_oldest_and_collects log_transaction
           [(1, None); (2, Some log_rx1); (3, None); (4, Some log_rx2); (5, Some log_rx3)]
           (mkWorld [log_tx; single_fragment_frame] {[ 0%nat := [] ]}
              HoymilesNRF.class_defaults)
           log_tx [single_fragment_frame]).
  - reflexivity.
  - reflexivity.
  - split; cbn; lia.
  - change (Forall (fun p : Z * bytes => checksum_ok (snd p) = true)
              [(2, log_rx1); (4, log_rx2); (5, log_rx3)]).
    repeat (apply List.Forall_cons; [vm_compute; reflexivity|]). apply List.Forall_nil.
Defined.

(** X12: a payload without its checksum ends [rxtx] with the exception
    of the frame parser ([BufferError], or [IndexError] for an empty
    payload): only [TimeoutError] is caught. The request has left the queue
    by then and is not put back, the fragments received before stay in the
    scratch, and what the radio would have delivered afterwards is never
    read. *)
Theorem rxtx_rejected_frame_aborts (self : InverterTransaction.t)
    (good : list (Z * option bytes)) (now : Z) (bad : bytes) (w : World)
    (packet : bytes) (queue : list bytes) :
  InverterTransaction.radio self = true ->
  tx_queue w = packet :: queue ->
  channels_valid (nrf w) ->
  Forall (fun p => checksum_ok (snd p) = true) (received_at good) ->
  checksum_ok bad = false ->
  exists fragments w',
    (forall rest, InverterTransaction.rxtx self (good ++ (now, Some bad) :: rest) w
                  = (Raise (rejected_with bad), w'))
    /\ tx_queue w' = queue
    /\ scratch_of self w' = scratch_of self w ++ fragments
    /\ map (fun f => (InverterPacketFragment.time_rx f, InverterPacketFragment.frame f))
           fragments = received_at good.
Proof.
  intros Hradio Hq Hv Hok Hbad.
  destruct (receive_loop_accepted (nrf w) good Hv Hok)
    as (fs & r' & Hloop & Hmap & _ & Hv' & _ & _).
  destruct Hv as [Hrx Htx].
  destruct (rx_channel_in_range _ Hrx) as (c & Hc & _).
  destruct (tx_channel_in_range _ Htx) as (t & Ht).
  set (r2 := HoymilesNRF.set_rx (HoymilesNRF.rx_channel_id r') true 0 r').
  exists fs, (append_all self fs (set_nrf r2 (set_tx_queue queue w))).
  destruct (append_all_frame self fs (set_nrf r2 (set_tx_queue queue w))) as (Haq & _ & _).
  split; [|split; [rewrite Haq; reflexivity|
           split; [rewrite append_all_scratch; reflexivity|exact Hmap]]].
  intros rest.
  unfold InverterTransaction.rxtx. rewrite Hradio, Hq. cbn [negb].
  unfold HoymilesNRF.transmit, HoymilesNRF.receive.
  cbn [nrf set_tx_queue]. rewrite Ht, Hc. cbn [rbind].
  rewrite receive_loop_app, Hloop. cbn [HoymilesNRF.receive_loop].
  rewrite (receive_poll_rejected r' now bad Hv' Hbad). rewrite app_nil_r.
  reflexivity.
Qed.

Lemma rxtx_rejected_frame_aborts_witness :
  exists fragments w',
    (forall rest,
        InverterTransaction.rxtx log_transaction
          ([(1, Some log_rx1)] ++ (2, Some (but_last 1 log_rx2)) :: rest)
          (mkWorld [log_tx; single_fragment_frame] {[ 0%nat := [] ]}
             HoymilesNRF.class_defaults)
        = (Raise (rejected_with (but_last 1 log_rx2)), w'))
    /\ tx_queue w' = [single_fragment_frame]
    /\ scratch_of log_transaction w'
       = scratch_of log_transaction
           (mkWorld [log_tx; single_fragment_frame] {[ 0%nat := [] ]}
              HoymilesNRF.class_defaults) ++ fragments
    /\ map (fun f => (InverterPacketFragment.time_rx f, InverterPacketFragment.frame f))
           fragments = received_at [(1, Some log_rx1)].
Proof.
  apply (rxtx_rejected_frame_aborts log_transaction [(1, Some log_rx1)] 2
           (but_last 1 log_rx2)
           (mkWorld [log_tx; single_fragment_frame] {[ 0%nat := [] ]}
              HoymilesNRF.class_defaults)
           log_tx [single_fragment_frame]).
  - reflexivity.
  - reflexivity.
  - split; cbn; lia.
  - change (Forall (fun p : Z * bytes => checksum_ok (snd p) = true) [(1, log_rx1)]).
    repeat (apply List.Forall_cons; [vm_compute; reflexivity|]). apply List.Forall_nil.
  - vm_compute. reflexivity.
Defined.

(** * [get_payload]: the branches that raise *)

Lemma seq_of_byte (f : InverterPacketFragment.t) :
  has_header f -> Forall is_byte (InverterPacketFragment.frame f) -> 0 <= seq_of f < 256.
Proof.
  intros Hf Hb. destruct (header_frame f Hf) as (b0&b1&b2&b3&b4&b5&b6&b7&b8&b9&rest&Hfr).
  unfold seq_of, InverterPacketFragment.seq. rewrite Hfr in *. cbn.
  do 9 (apply List.Forall_cons_iff in Hb; destruct Hb as [_ Hb]).
  apply List.Forall_cons_iff in Hb. destruct Hb as [Hb _]. exact Hb.
Qed.

Lemma max_pick_In (best : InverterPacketFragment.t) (l : list InverterPacketFragment.t) :
  In (max_pick best l) (best :: l).
Proof.
  revert best. induction l as [|y l IH]; intros best; [left; reflexivity|].
  cbn [max_pick]. destruct (seq_of best <? seq_of y).
  - right. apply IH.
  - destruct (IH best) as [H|H]; [left; exact H | right; right; exact H].
Qed.

Lemma terminal_none (l : list InverterPacketFragment.t) (f : InverterPacketFragment.t) :
  terminal l = None -> In f l -> seq_of f <= 128.
Proof.
  intros Hn Hin. pose proof (List.find_none _ _ Hn f Hin) as H.
  apply Z.ltb_ge in H. exact H.
Qed.

Lemma retransmit_frame_overflow (self : InverterTransaction.t) (frame_id : Z) (w : World) :
  InverterTransaction.radio self = true -> 128 <= frame_id ->
  InverterTransaction.retransmit_frame self frame_id w = (Raise OverflowError, w).
Proof.
  intros Hradio Hid. unfold InverterTransaction.retransmit_frame. rewrite Hradio.
  cbn [negb]. unfold mbind, lift, to_bytes_1.
  replace (128 + frame_id <=? 255) with false by (symmetry; apply Z.leb_gt; lia).
  rewrite andb_false_r. reflexivity.
Qed.

Lemma retransmit_frame_result (self : InverterTransaction.t) (frame_id : Z) (w : World) :
  InverterTransaction.radio self = true -> -128 <= frame_id < 128 ->
  InverterTransaction.retransmit_frame self frame_id w
  = match ser_to_hm_addr (InverterTransaction.inverter_ser self),
          ser_to_hm_addr (InverterTransaction.dtu_ser self) with
    | Ok inverter_hm, Ok dtu_hm =>
        (Ok (Some true),
         set_tx_queue (tx_queue w ++ [retransmit_request inverter_hm dtu_hm frame_id]) w)
    | Ok _, Raise e => (Raise e, w)
    | Raise e, _ => (Raise e, w)
    end.
Proof.
  intros Hradio Hid.
  destruct (ser_to_hm_addr (InverterTransaction.inverter_ser self)) as [a|e] eqn:Hinv.
  - destruct (ser_to_hm_addr (InverterTransaction.dtu_ser self)) as [b|e] eqn:Hdtu.
    + exact (retransmit_frame_queued self frame_id a b w Hradio Hinv Hdtu Hid).
    + unfold InverterTransaction.retransmit_frame. rewrite Hradio. cbn [negb].
      unfold mbind, lift. rewrite to_bytes_1_ok by lia.
      unfold compose_esb_fragment. cbn [length Nat.ltb Nat.leb].
      rewrite Hinv, Hdtu. reflexivity.
  - unfold InverterTransaction.retransmit_frame. rewrite Hradio. cbn [negb].
    unfold mbind, lift. rewrite to_bytes_1_ok by lia.
    unfold compose_esb_fragment. cbn [length Nat.ltb Nat.leb].
    rewrite Hinv. reflexivity.
Qed.

(** X13: on a transaction with a radio whose scratch holds fragments
    of at least ten bytes, when the fragments from the source hold no
    terminal one (none with a sequence byte above [0x80]), [get_payload]
    asks for the fragment after the highest sequence number seen and
    raises [BufferError('Missing packet ...')] with the length of the
    whole scratch, provided both serials convert to addresses; if the
    inverter serial or else the DTU serial does not, the exception of
    [ser_to_hm_addr] comes out instead and nothing is queued. The highest
    number is at most 128; from 127 on the request cannot be encoded in
    one byte ([0x80 + 128 = 256]) and the call raises [OverflowError],
    whatever the serials, with nothing queued. *)
Theorem get_payload_without_terminal (self : InverterTransaction.t) (src : pyaddr)
    (w : World) (first : InverterPacketFragment.t) (others : list InverterPacketFragment.t) :
  Forall has_header (scratch_of self w) ->
  Forall (fun f => Forall is_byte (InverterPacketFragment.frame f)) (scratch_of self w) ->
  from_src (effective_src self src) (scratch_of self w) = first :: others ->
  terminal (first :: others) = None ->
  InverterTransaction.radio self = true ->
  seq_of (max_pick first others) <= 128
  /\ (forall f, In f (first :: others) -> seq_of f <= seq_of (max_pick first others))
  /\ InverterTransaction.get_payload self src w
     = if seq_of (max_pick first others) <? 127
       then match ser_to_hm_addr (InverterTransaction.inverter_ser self),
                  ser_to_hm_addr (InverterTransaction.dtu_ser self) with
            | Ok inverter_hm, Ok dtu_hm =>
                (Raise (BufferError (MissingPacket (length (scratch_of self w)))), self,
                 set_tx_queue
                   (tx_queue w ++ [retransmit_request inverter_hm dtu_hm
                                     (seq_of (max_pick first others) + 1)]) w)
            | Ok _, Raise e => (Raise e, self, w)
            | Raise e, _ => (Raise e, self, w)
            end
       else (Raise OverflowError, self, w).
Proof.
  intros Hh Hb Hfrom Hterm Hradio.
  assert (Hfh : Forall has_header (first :: others)).
  { rewrite <- Hfrom. apply from_src_header. exact Hh. }
  pose proof (max_pick_In first others) as Hin.
  assert (Hmh : has_header (max_pick first others)).
  { exact (proj1 (List.Forall_forall _ _) Hfh _ Hin). }
  assert (Hmb : 0 <= seq_of (max_pick first others) < 256).
  { apply seq_of_byte; [exact Hmh|].
    assert (Hs : In (max_pick first others) (scratch_of self w)).
    { rewrite <- Hfrom in Hin. unfold from_src in Hin. apply List.filter_In in Hin.
      exact (proj1 Hin). }
    exact (proj1 (List.Forall_forall _ _) Hb _ Hs). }
  split; [exact (terminal_none _ _ Hterm Hin)|].
  split; [intros f Hf; apply max_pick_ge; exact Hf|].
  rewrite get_payload_unfold, (filter_r_from_src _ _ Hh), Hfrom.
  rewrite (next_r_terminal _ Hfh), Hterm.
  unfold without_end_frame, mbind, lift. cbn [max_r].
  inversion Hfh as [|? ? H0 Hl]; subst.
  rewrite (header_seq first H0). cbn [rbind]. rewrite (max_loop_pick first others Hl).
  rewrite (header_seq _ Hmh).
  destruct (seq_of (max_pick first others) <? 127) eqn:Hlt.
  - apply Z.ltb_lt in Hlt.
    rewrite (retransmit_frame_result self _ w Hradio) by lia.
    destruct (ser_to_hm_addr (InverterTransaction.inverter_ser self)) as [a|e];
      [destruct (ser_to_hm_addr (InverterTransaction.dtu_ser self)) as [b|e]|];
      reflexivity.
  - apply Z.ltb_ge in Hlt.
    rewrite (retransmit_frame_overflow self _ w Hradio) by lia. reflexivity.
Qed.

Lemma get_payload_without_terminal_witness :
  seq_of (max_pick (fragment_of log_rx1) [fragment_of log_rx2]) <= 128
  /\ (forall f, In f [fragment_of log_rx1; fragment_of log_rx2] ->
                seq_of f <= seq_of (max_pick (fragment_of log_rx1) [fragment_of log_rx2]))
  /\ InverterTransaction.get_payload log_transaction ANone
       (world_with [fragment_of log_rx1; fragment_of log_rx2])
     = if seq_of (max_pick (fragment_of log_rx1) [fragment_of log_rx2]) <? 127
       then match ser_to_hm_addr (InverterTransaction.inverter_ser log_transaction),
                  ser_to_hm_addr (InverterTransaction.dtu_ser log_transaction) with
            | Ok inverter_hm, Ok dtu_hm =>
                (Raise (BufferError (MissingPacket
                          (length (scratch_of log_transaction
                                     (world_with [fragment_of log_rx1;
                                                  fragment_of log_rx2]))))),
                 log_transaction,
                 set_tx_queue
                   (tx_queue (world_with [fragment_of log_rx1; fragment_of log_rx2])
                    ++ [retransmit_request inverter_hm dtu_hm
                          (seq_of (max_pick (fragment_of log_rx1) [fragment_of log_rx2])
                           + 1)])
                   (world_with [fragment_of log_rx1; fragment_of log_rx2]))
            | Ok _, Raise e =>
                (Raise e, log_transaction,
                 world_with [fragment_of log_rx1; fragment_of log_rx2])
            | Raise e, _ =>
                (Raise e, log_transaction,
                 world_with [fragment_of log_rx1; fragment_of log_rx2])
            end
       else (Raise OverflowError, log_transaction,
             world_with [fragment_of log_rx1; fragment_of log_rx2]).
Proof.
  apply (get_payload_without_terminal log_transaction ANone
           (world_with [fragment_of log_rx1; fragment_of log_rx2])
           (fragment_of log_rx1) [fragment_of log_rx2]).
  - repeat (apply List.Forall_cons; [unfold has_header; cbn; lia|]). apply List.Forall_nil.
  - repeat (apply List.Forall_cons;
            [repeat (apply List.Forall_cons; [unfold is_byte; lia|]); apply List.Forall_nil|]).
    apply List.Forall_nil.
  - vm_compute. reflexivity.
  - vm_compute. reflexivity.
  - reflexivity.
Defined.

Example get_payload_without_terminal_log :
  InverterTransaction.get_payload log_transaction ANone
    (world_with [fragment_of log_rx1; fragment_of log_rx2])
  = (Raise (BufferError (MissingPacket 2)), log_transaction,
     set_tx_queue
       [retransmit_request [0x72; 0x22; 0x01; 0x43] [0x78; 0x56; 0x34; 0x12] 3]
       (world_with [fragment_of log_rx1; fragment_of log_rx2])).
Proof. vm_compute. reflexivity. Qed.

Lemma crc_m_invalid_check (payload : bytes) :
  ~ crc_m_valid payload ->
  ((length payload < 2)%nat /\ unpack_H (last_n 2 payload) = Raise StructError)
  \/ ((2 <= length payload)%nat
      /\ exists pcrc, unpack_H (last_n 2 payload) = Ok pcrc
                      /\ (f_crc_m (but_last 2 payload) =? pcrc) = false).
Proof.
  intros Hn.
  destruct (last_n 2 payload) as [|hi [|lo [|x rest]]] eqn:Hl.
  - left. split; [|reflexivity].
    apply (f_equal (@length Z)) in Hl. unfold last_n in Hl. rewrite length_drop in Hl.
    cbn in Hl. lia.
  - left. split; [|reflexivity].
    apply (f_equal (@length Z)) in Hl. unfold last_n in Hl. rewrite length_drop in Hl.
    cbn in Hl. lia.
  - right. split.
    + apply (f_equal (@length Z)) in Hl. unfold last_n in Hl. rewrite length_drop in Hl.
      cbn in Hl. lia.
    + exists (hi * 256 + lo). split; [reflexivity|].
      apply Z.eqb_neq. intros Heq. apply Hn. exists hi, lo. split; [exact Hl | exact Heq].
  - exfalso. apply (f_equal (@length Z)) in Hl. unfold last_n in Hl.
    rewrite length_drop in Hl. cbn in Hl. lia.
Qed.

(** X14: when every fragment is there but the reassembled payload does
    not end in its Modbus CRC, [get_payload] raises
    [ValueError('Payload failed CRC check.')] ([struct.error] when the
    payload has fewer than two bytes); no retransmission is requested, the
    queue and the scratch are as before, and [time_rx] has been set from
    the terminal fragment all the same. *)
Theorem get_payload_crc_mismatch (self : InverterTransaction.t) (src : pyaddr) (w : World)
    (end_frame : InverterPacketFragment.t) (n : Z) :
  Forall has_header (scratch_of self w) ->
  terminal (from_src (effective_src self src) (scratch_of self w)) = Some end_frame ->
  seq_of end_frame = 0x80 + n ->
  (forall i, 1 <= i < n ->
     first_with_seq i (from_src (effective_src self src) (scratch_of self w)) <> None) ->
  ~ crc_m_valid (reassembled (from_src (effective_src self src) (scratch_of self w))
                   end_frame n) ->
  InverterTransaction.get_payload self src w
  = (Raise (if (length (reassembled (from_src (effective_src self src) (scratch_of self w))
                          end_frame n) <? 2)%nat
            then StructError else ValueError PayloadFailedCrc),
     InverterTransaction.set_time_rx (InverterPacketFragment.time_rx end_frame) self, w).
Proof.
  intros Hh Hend Hseq Hall Hcrc.
  rewrite get_payload_unfold.
  set (frames := from_src (effective_src self src) (scratch_of self w)) in *.
  rewrite (filter_r_from_src _ _ Hh). fold frames.
  assert (Hfh : Forall has_header frames) by (apply from_src_header; exact Hh).
  rewrite (next_r_terminal _ Hfh), Hend.
  assert (Heh : has_header end_frame) by (eapply terminal_header; eauto).
  unfold with_end_frame.
  unfold mbind at 1, lift at 1. rewrite (header_seq _ Heh), Hseq.
  replace (128 + n - 128) with n by lia.
  unfold mbind at 1. rewrite rebuild_found; [|exact Hfh|].
  - cbn [app]. fold (reassembled frames end_frame n).
    unfold mbind at 1, lift at 1.
    destruct (crc_m_invalid_check _ Hcrc) as [[Hlen Hu]|[Hlen (pcrc & Hu & Hc)]].
    + rewrite Hu. apply Nat.ltb_lt in Hlen. rewrite Hlen. reflexivity.
    + rewrite Hu, Hc. cbn [negb]. unfold lift.
      replace (_ <? 2)%nat with false by (symmetry; apply Nat.ltb_ge; exact Hlen).
      reflexivity.
  - apply List.Forall_forall. intros i Hi. apply z_range_In in Hi. apply Hall. exact Hi.
Qed.

Lemma get_payload_crc_mismatch_witness :
  InverterTransaction.get_payload log_transaction ANone
    (world_with [fragment_of log_rx1; fragment_of log_rx3;
                 fragment_of (take 9 log_rx1 ++ 2 :: drop 10 log_rx1)])
  = (Raise (if Nat.ltb
                 (length (reassembled
                            (from_src (effective_src log_transaction ANone)
                               (scratch_of log_transaction
                                  (world_with
                                     [fragment_of log_rx1; fragment_of log_rx3;
                                      fragment_of (take 9 log_rx1 ++ 2 :: drop 10 log_rx1)])))
                            (fragment_of log_rx3) 3))
                 2
            then StructError else ValueError PayloadFailedCrc),
     InverterTransaction.set_time_rx (InverterPacketFragment.time_rx (fragment_of log_rx3))
       log_transaction,
     world_with [fragment_of log_rx1; fragment_of log_rx3;
                 fragment_of (take 9 log_rx1 ++ 2 :: drop 10 log_rx1)]).
Proof.
  apply (get_payload_crc_mismatch log_transaction ANone
           (world_with [fragment_of log_rx1; fragment_of log_rx3;
                        fragment_of (take 9 log_rx1 ++ 2 :: drop 10 log_rx1)])
           (fragment_of log_rx3) 3).
  - repeat (apply List.Forall_cons; [unfold has_header; cbn; lia|]). apply List.Forall_nil.
  - vm_compute. reflexivity.
  - vm_compute. reflexivity.
  - intros i Hi. assert (Hcases : i = 1 \/ i = 2) by lia.
    destruct Hcases as [-> | ->]; vm_compute; discriminate.
  - intros (hi & lo & Hl & Hc). vm_compute in Hl. inversion Hl; subst.
    vm_compute in Hc. discriminate Hc.
Defined.

(** * [get_payload]: what it leaves alone *)

Lemma retransmit_frame_footprint (self : InverterTransaction.t) (frame_id : Z) (w : World) :
  exists r w',
    InverterTransaction.retransmit_frame self frame_id w = (r, w')
    /\ (w' = w
        \/ (InverterTransaction.radio self = true
            /\ (exists x, r = Ok x)
            /\ exists request, w' = set_tx_queue (tx_queue w ++ [request]) w)).
Proof.
  unfold InverterTransaction.retransmit_frame.
  destruct (InverterTransaction.radio self) eqn:Hradio; cbn [negb];
    [|eexists; eexists; split; [reflexivity | left; reflexivity]].
  unfold mbind, lift.
  destruct (to_bytes_1 (128 + frame_id)) as [subcmd|e];
    [|eexists; eexists; split; [reflexivity | left; reflexivity]].
  destruct (compose_esb_fragment _ _ _ _ _) as [packet|e];
    [|eexists; eexists; split; [reflexivity | left; reflexivity]].
  unfold InverterTransaction.queue_tx, mret. rewrite Hradio. cbn [negb].
  eexists; eexists; split; [reflexivity|]. right.
  split; [reflexivity|]. split; [eexists; reflexivity|]. eexists; reflexivity.
Qed.

Lemma rebuild_footprint (self : InverterTransaction.t)
    (frames : list InverterPacketFragment.t) (ids : list Z) (acc : bytes) (w : World) :
  exists r w',
    InverterTransaction.rebuild self frames ids acc w = (r, w')
    /\ (w' = w
        \/ (InverterTransaction.radio self = true
            /\ (exists m, r = Raise (BufferError m))
            /\ exists request, w' = set_tx_queue (tx_queue w ++ [request]) w)).
Proof.
  revert acc. induction ids as [|i ids IH]; intros acc.
  - eexists; eexists; split; [reflexivity | left; reflexivity].
  - cbn [InverterTransaction.rebuild]. unfold mbind at 1, lift at 1.
    destruct (next_r (InverterTransaction.seq_is i) frames) as [[f|]|e].
    + apply IH.
    + unfold mbind, lift.
      destruct (retransmit_frame_footprint self i w) as (r & w' & Hr & Hw). rewrite Hr.
      destruct r as [x|e].
      * eexists; eexists; split; [reflexivity|].
        destruct Hw as [->|(Hradio & _ & Hreq)]; [left; reflexivity|].
        right. split; [exact Hradio|]. split; [eexists; reflexivity | exact Hreq].
      * eexists; eexists; split; [reflexivity|].
        destruct Hw as [->|(_ & (x & Hx) & _)]; [left; reflexivity | discriminate Hx].
    + eexists; eexists; split; [reflexivity | left; reflexivity].
Qed.

(** X15: whatever the scratch holds, [get_payload] leaves every list
    object and the radio as they are, and the queue too unless it raises a
    [BufferError] on a transaction with a radio: then exactly one request
    has been appended to the queue. A call that returns, or that raises
    anything else, changes nothing but [time_rx]. *)
Theorem get_payload_queues_at_most_one_request (self : InverterTransaction.t)
    (src : pyaddr) (w : World) :
  exists r self' w',
    InverterTransaction.get_payload self src w = (r, self', w')
    /\ (self' = self \/ exists tm, self' = InverterTransaction.set_time_rx tm self)
    /\ (w' = w
        \/ (InverterTransaction.radio self = true
            /\ (exists m, r = Raise (BufferError m))
            /\ exists request, w' = set_tx_queue (tx_queue w ++ [request]) w)).
Proof.
  rewrite get_payload_unfold.
  destruct (filter_r _ _) as [frames|e];
    [|eexists; eexists; eexists; split; [reflexivity|split; left; reflexivity]].
  destruct (next_r InverterTransaction.seq_is_end frames) as [[end_frame|]|e];
    [| |eexists; eexists; eexists; split; [reflexivity|split; left; reflexivity]].
  - set (self1 := InverterTransaction.set_time_rx _ self).
    assert (Hs : self1 = self \/ exists tm, self1 = InverterTransaction.set_time_rx tm self)
      by (right; eexists; reflexivity).
    unfold with_end_frame. unfold mbind at 1, lift at 1.
    destruct (InverterPacketFragment.seq end_frame) as [q|e];
      [|eexists; eexists; eexists; split; [reflexivity|split; [exact Hs|left; reflexivity]]].
    unfold mbind at 1.
    destruct (rebuild_footprint self1 frames (z_range 1 (q - 128)) [] w)
      as (r & w' & Hr & Hw).
    rewrite Hr. destruct r as [payload|e].
    + destruct Hw as [->|(_ & (m & Hm) & _)]; [|discriminate Hm].
      unfold mbind at 1, lift at 1.
      destruct (unpack_H _) as [pcrc|e];
        [|eexists; eexists; eexists; split;
          [reflexivity|split; [exact Hs|left; reflexivity]]].
      destruct (negb _);
        [eexists; eexists; eexists; split;
         [reflexivity|split; [exact Hs|left; reflexivity]]|].
      unfold mbind, lift, mret.
      destruct (InverterPacketFragment.main_cmd end_frame) as [mc|e];
        eexists; eexists; eexists; (split; [reflexivity|split; [exact Hs|left; reflexivity]]).
    + eexists; eexists; eexists. split; [reflexivity|]. split; [exact Hs|].
      subst self1. destruct Hw as [->|(Hradio & Hm & Hreq)]; [left; reflexivity|].
      right. split; [exact Hradio|]. split; [|exact Hreq].
      destruct Hm as (m & Hm). inversion Hm; subst. exists m. reflexivity.
  - unfold without_end_frame. unfold mbind at 1, lift at 1.
    destruct (max_r InverterPacketFragment.seq frames) as [m|e];
      [|eexists; eexists; eexists; split; [reflexivity|split; left; reflexivity]].
    unfold mbind at 1, lift at 1.
    destruct (InverterPacketFragment.seq m) as [seq_last|e];
      [|eexists; eexists; eexists; split; [reflexivity|split; left; reflexivity]].
    unfold mbind.
    destruct (retransmit_frame_footprint self (seq_last + 1) w) as (r & w' & Hr & Hw).
    rewrite Hr. destruct r as [x|e].
    + eexists; eexists; eexists. split; [reflexivity|]. split; [left; reflexivity|].
      destruct Hw as [->|(Hradio & _ & Hreq)]; [left; reflexivity|].
      right. split; [exact Hradio|]. split; [eexists; reflexivity | exact Hreq].
    + eexists; eexists; eexists. split; [reflexivity|]. split; [left; reflexivity|].
      destruct Hw as [->|(_ & (x & Hx) & _)]; [left; reflexivity | discriminate Hx].
Qed.

(** * Decoding what the transport layer returns *)

Lemma with_end_frame_ok (self : InverterTransaction.t)
    (frames : list InverterPacketFragment.t) (end_frame : InverterPacketFragment.t)
    (w w' : World) (mc : Z) (payload : bytes) :
  with_end_frame self frames end_frame w = (Ok (mc, payload), w') ->
  exists pcrc, unpack_H (last_n 2 payload) = Ok pcrc
               /\ (f_crc_m (but_last 2 payload) =? pcrc) = true.
Proof.
  unfold with_end_frame. unfold mbind at 1, lift at 1.
  destruct (InverterPacketFragment.seq end_frame) as [q|e]; [|discriminate].
  unfold mbind at 1.
  destruct (InverterTransaction.rebuild _ _ _ _ _) as [[payload0|e] w0]; [|discriminate].
  unfold mbind at 1, lift at 1.
  destruct (unpack_H _) as [pcrc|e] eqn:Hu; [|discriminate].
  destruct (f_crc_m _ =? pcrc) eqn:Hc; cbn [negb]; [|discriminate].
  unfold mbind, lift, mret.
  destruct (InverterPacketFragment.main_cmd end_frame) as [m|e]; [|discriminate].
  intros H. inversion H; subst. exists pcrc. split; [exact Hu | exact Hc].
Qed.

Lemma without_end_frame_raises (self : InverterTransaction.t)
    (frames : list InverterPacketFragment.t) (w w' : World) (x : Z * bytes) :
  without_end_frame self frames w <> (Ok x, w').
Proof.
  unfold without_end_frame, mbind, lift.
  destruct (max_r _ _) as [m|e]; [|discriminate].
  destruct (InverterPacketFragment.seq m) as [q|e]; [|discriminate].
  destruct (InverterTransaction.retransmit_frame _ _ _) as [[y|e] w0]; discriminate.
Qed.

(** X16: every payload that [get_payload] returns passes
    [validate_crc_m] of the decoders, whatever the scratch held; so
    [EventsResponse], which drops the last two bytes of a response that
    validates, always decodes the payload without the CRC that
    [get_payload] leaves on it. *)
Theorem get_payload_result_validates (self self' : InverterTransaction.t) (src : pyaddr)
    (w w' : World) (mc : Z) (payload : bytes) :
  InverterTransaction.get_payload self src w = (Ok (mc, payload), self', w') ->
  UnknownResponse.validate_crc_m payload = Ok true
  /\ (forall t, EventsResponse.init payload = Ok t ->
                EventsResponse.response t = but_last 2 payload).
Proof.
  rewrite get_payload_unfold. intros H.
  assert (Hv : UnknownResponse.validate_crc_m payload = Ok true).
  { destruct (filter_r _ _) as [frames|e]; [|discriminate H].
    destruct (next_r InverterTransaction.seq_is_end frames) as [[end_frame|]|e];
      [| |discriminate H].
    - cbn zeta in H.
      destruct (with_end_frame _ frames end_frame w) as [r w0] eqn:Hw.
      inversion H; subst.
      destruct (with_end_frame_ok _ _ _ _ _ _ _ Hw) as (pcrc & Hu & Hc).
      unfold UnknownResponse.validate_crc_m. rewrite Hu. cbn [rbind]. rewrite Hc.
      reflexivity.
    - destruct (without_end_frame self frames w) as [r w0] eqn:Hw.
      inversion H; subst. exfalso. exact (without_end_frame_raises _ _ _ _ _ Hw). }
  split; [exact Hv|].
  intros t. unfold EventsResponse.init. rewrite Hv. cbn [rbind].
  destruct (EventsResponse.chunks_loop _ _) as [evs|e]; [|discriminate].
  intros Ht. inversion Ht. reflexivity.
Qed.

Lemma get_payload_result_validates_witness :
  UnknownResponse.validate_crc_m (log_status_payload ++ [0x0c; 0x35]) = Ok true
  /\ (forall t, EventsResponse.init (log_status_payload ++ [0x0c; 0x35]) = Ok t ->
                EventsResponse.response t = but_last 2 (log_status_payload ++ [0x0c; 0x35])).
Proof.
  apply (get_payload_result_validates log_transaction
           (InverterTransaction.set_time_rx 0 log_transaction) ANone
           (world_with [fragment_of log_rx1; fragment_of log_rx2; fragment_of log_rx3])
           (world_with [fragment_of log_rx1; fragment_of log_rx2; fragment_of log_rx3])
           0x95 (log_status_payload ++ [0x0c; 0x35])).
  vm_compute. reflexivity.
Defined.

(** * The event log *)

Lemma nth_drop_add {A} (i k : nat) (l : list A) (d : A) : nth (i + k) l d = nth k (drop i l) d.
Proof.
  revert l. induction i as [|i IH]; intros l; [reflexivity|].
  destruct l as [|x l]; [destruct k; reflexivity|]. cbn. apply IH.
Qed.

Lemma chunk_whole (body : bytes) (i : nat) :
  (i + 12 <= length body)%nat ->
  slice i (i + 12) body
  = map (fun k => nth (i + k) body 0) (seq 0 12).
Proof.
  intros Hlen. unfold slice. replace (i + 12 - i)%nat with 12%nat by lia.
  cbn [seq map]. repeat rewrite nth_drop_add.
  assert (Hd : (12 <= length (drop i body))%nat) by (rewrite length_drop; lia).
  destruct (drop i body)
    as [|b0 [|b1 [|b2 [|b3 [|b4 [|b5 [|b6 [|b7 [|b8 [|b9 [|b10 [|b11 rest]]]]]]]]]]]];
    cbn [length] in Hd; try lia.
  reflexivity.
Qed.

Lemma chunks_loop_whole (body : bytes) (bases : list nat) :
  Forall (fun i => (i + 12 <= length body)%nat) bases ->
  EventsResponse.chunks_loop body bases = Ok (map (event_of body) bases).
Proof.
  induction 1 as [|i bases Hi _ IH]; [reflexivity|].
  cbn [EventsResponse.chunks_loop map]. rewrite (chunk_whole body i Hi), IH.
  reflexivity.
Qed.

Lemma unpack_BBHHHHH_length (b : bytes) :
  length b <> 12%nat -> EventsResponse.unpack_BBHHHHH b = Raise StructError.
Proof.
  destruct b as [|b0 [|b1 [|b2 [|b3 [|b4 [|b5 [|b6 [|b7 [|b8 [|b9 [|b10 [|b11 [|b12 rest]]]]]]]]]]]]];
    cbn [length]; intros Hlen; try reflexivity.
  exfalso. apply Hlen. reflexivity.
Qed.

Lemma unpack_BBHHH_raises (b : bytes) (e : exc) :
  EventsResponse.unpack_BBHHH b = Raise e -> e = StructError.
Proof.
  unfold EventsResponse.unpack_BBHHH.
  destruct b as [|b0 [|b1 [|b2 [|b3 [|b4 [|b5 [|b6 [|b7 [|b8 r]]]]]]]]];
    intros H; inversion H; reflexivity.
Qed.

Lemma chunks_loop_partial (body : bytes) (good : list nat) (i : nat) :
  Forall (fun i => (i + 12 <= length body)%nat) good ->
  (length body < i + 12)%nat ->
  EventsResponse.chunks_loop body (good ++ [i]) = Raise StructError.
Proof.
  intros Hgood Hi. induction Hgood as [|j good Hj _ IH].
  - cbn [app EventsResponse.chunks_loop].
    rewrite (unpack_BBHHHHH_length (slice i (i + 12) body)).
    + destruct (EventsResponse.unpack_BBHHH _) as [[[[[o a] c] u] v]|e] eqn:Hu;
        [reflexivity|].
      rewrite (unpack_BBHHH_raises _ _ Hu). reflexivity.
    + unfold slice. rewrite length_take, length_drop. lia.
  - cbn [app EventsResponse.chunks_loop]. rewrite (chunk_whole body j Hj), IH.
    reflexivity.
Qed.

Lemma py_range_whole (start len step n : nat) :
  (0 < step)%nat -> (len - start = n * step)%nat ->
  py_range start len step = map (fun k => (start + k * step)%nat) (seq 0 n).
Proof.
  intros Hs Hn. unfold py_range. f_equal. f_equal.
  rewrite Hn. symmetry. apply (Nat.div_unique _ step n (step - 1)); lia.
Qed.

Lemma py_range_partial (start len step n r : nat) :
  (0 < r < step)%nat -> (len - start = n * step + r)%nat ->
  py_range start len step
  = map (fun k => (start + k * step)%nat) (seq 0 n) ++ [(start + n * step)%nat].
Proof.
  intros Hr Hn. unfold py_range.
  replace ((len - start + step - 1) / step)%nat with (S n).
  - rewrite seq_S, map_app. reflexivity.
  - rewrite Hn. apply (Nat.div_unique _ step (S n) (r - 1)); lia.
Qed.

(** X17: [EventsResponse] drops the two CRC bytes of a response that
    validates and reads what is left as two status bytes followed by
    records of twelve bytes, each decoded from its first eight bytes.
    Unless the records are whole, that is unless the length is 2 + 12 n
    (or below 2), the constructor raises [struct.error]. *)
Theorem events_response_whole_records (response : bytes) (valid : bool) :
  UnknownResponse.validate_crc_m response = Ok valid ->
  let body := if valid then but_last 2 response else response in
  let n := ((length body - 2) / 12)%nat in
  EventsResponse.init response
  = if ((length body - 2) mod 12 =? 0)%nat
    then Ok (EventsResponse.mk body
               (map (fun k => event_of body (2 + k * 12)) (seq 0 n)))
    else Raise StructError.
Proof.
  intros Hv body n. unfold EventsResponse.init. rewrite Hv. cbn [rbind]. fold body.
  pose proof (Nat.div_mod_eq (length body - 2) 12) as Hdm.
  pose proof (Nat.mod_upper_bound (length body - 2) 12) as Hub.
  fold n in Hdm.
  destruct (Nat.eqb_spec ((length body - 2) mod 12) 0) as [Hz|Hnz].
  - rewrite (py_range_whole 2 (length body) 12 n) by lia.
    rewrite chunks_loop_whole.
    + cbn [rbind]. rewrite List.map_map. reflexivity.
    + apply List.Forall_forall. intros i Hi. apply List.in_map_iff in Hi.
      destruct Hi as (k & <- & Hk). apply List.in_seq in Hk. lia.
  - rewrite (py_range_partial 2 (length body) 12 n ((length body - 2) mod 12)) by lia.
    rewrite chunks_loop_partial; [reflexivity| |lia].
    apply List.Forall_forall. intros i Hi. apply List.in_map_iff in Hi.
    destruct Hi as (k & <- & Hk). apply List.in_seq in Hk. lia.
Qed.

Lemma events_response_whole_records_witness :
  EventsResponse.init events_log_payload
  = if ((length (if true then but_last 2 events_log_payload else events_log_payload) - 2)
        mod 12 =? 0)%nat
    then Ok (EventsResponse.mk
               (if true then but_last 2 events_log_payload else events_log_payload)
               (map (fun k => event_of
                                (if true then but_last 2 events_log_payload
                                 else events_log_payload) (2 + k * 12))
                    (seq 0 ((length (if true then but_last 2 events_log_payload
                                     else events_log_payload) - 2) / 12)%nat)))
    else Raise StructError.
Proof.
  apply (events_response_whole_records events_log_payload true).
  vm_compute. reflexivity.
Defined.

Example events_log_decoded :
  EventsResponse.init events_log_payload
  = Ok (EventsResponse.mk (but_last 2 events_log_payload)
          [EventsResponse.mk_event 1 125 3 16 32 "Grid configuration parameter error";
           EventsResponse.mk_event 1 2 1 256 0 "DTU command failed"]).
Proof. vm_compute. reflexivity. Qed.

Example events_log_cut_short :
  EventsResponse.init (but_last 3 events_log_payload) = Raise StructError.
Proof. vm_compute. reflexivity. Qed.

Lemma chunks_loop_codes (body : bytes) (bases : list nat) (evs : list EventsResponse.event) :
  Forall is_byte body ->
  EventsResponse.chunks_loop body bases = Ok evs ->
  Forall (fun ev => 0 <= EventsResponse.a_code ev < 256
                    /\ EventsResponse.a_text ev
                       = EventsResponse.alarm_text (EventsResponse.a_code ev)) evs.
Proof.
  intros Hb. revert evs. induction bases as [|i bases IH]; intros evs.
  - intros H. inversion H. constructor.
  - cbn [EventsResponse.chunks_loop].
    assert (Hchunk : Forall is_byte (slice 0 8 (slice i (i + 12) body))).
    { unfold slice. apply Forall_take, Forall_drop, Forall_take, Forall_drop. exact Hb. }
    unfold EventsResponse.unpack_BBHHH at 1.
    destruct (slice 0 8 (slice i (i + 12) body))
      as [|b0 [|b1 [|b2 [|b3 [|b4 [|b5 [|b6 [|b7 [|b8 r]]]]]]]]]; try discriminate.
    cbn [rbind].
    destruct (EventsResponse.unpack_BBHHHHH _) as [x|e]; [|discriminate]. cbn [rbind].
    destruct (EventsResponse.chunks_loop body bases) as [evs'|e]; [|discriminate].
    cbn [rbind]. intros H. inversion H; subst.
    constructor; [|apply IH; reflexivity].
    cbn [EventsResponse.a_code EventsResponse.a_text]. split; [|reflexivity].
    apply List.Forall_cons_iff in Hchunk. destruct Hchunk as [_ Hchunk].
    apply List.Forall_cons_iff in Hchunk. destruct Hchunk as [H1 _]. exact H1.
Qed.

(** X18: the alarm code of a record is one byte, so no response makes
    [EventsResponse] select an entry of [alarm_codes] whose key is above
    255: the entries 301 to 9000 are never looked up, and every text
    printed is that of a code below 256 or 'N/A'. *)
Theorem events_response_codes_are_bytes (response : bytes) (t : EventsResponse.t) :
  Forall is_byte response ->
  EventsResponse.init response = Ok t ->
  Forall (fun ev =>
            0 <= EventsResponse.a_code ev < 256
            /\ EventsResponse.a_text ev = EventsResponse.alarm_text (EventsResponse.a_code ev)
            /\ forall code text, In (code, text) EventsResponse.alarm_codes ->
                                 255 < code -> EventsResponse.a_code ev <> code)
         (EventsResponse.events t).
Proof.
  intros Hb. unfold EventsResponse.init.
  destruct (UnknownResponse.validate_crc_m response) as [valid|e]; [|discriminate].
  cbn [rbind].
  set (body := if valid then but_last 2 response else response).
  assert (Hbody : Forall is_byte body).
  { subst body. destruct valid; [unfold but_last; apply Forall_take|]; exact Hb. }
  destruct (EventsResponse.chunks_loop body _) as [evs|e] eqn:Hloop; [|discriminate].
  cbn [rbind]. intros H. inversion H; subst. cbn [EventsResponse.events].
  eapply Forall_impl; [exact (chunks_loop_codes body _ evs Hbody Hloop)|].
  intros ev [Hc Ht]. split; [exact Hc|]. split; [exact Ht|].
  intros code text _ Hcode. lia.
Qed.

Lemma events_response_codes_are_bytes_witness :
  Forall (fun ev =>
            0 <= EventsResponse.a_code ev < 256
            /\ EventsResponse.a_text ev = EventsResponse.alarm_text (EventsResponse.a_code ev)
            /\ forall code text, In (code, text) EventsResponse.alarm_codes ->
                                 255 < code -> EventsResponse.a_code ev <> code)
         (EventsResponse.events
            (EventsResponse.mk (but_last 2 events_log_payload)
               [EventsResponse.mk_event 1 125 3 16 32 "Grid configuration parameter error";
                EventsResponse.mk_event 1 2 1 256 0 "DTU command failed"])).
Proof.
  apply (events_response_codes_are_bytes events_log_payload).
  - repeat (apply List.Forall_cons; [unfold is_byte; lia|]). apply List.Forall_nil.
  - vm_compute. reflexivity.
Defined.

(** X19: for a non-empty response of bytes, [validate_crc8] holds
    exactly when the exclusive-or of all its bytes, the trailer included,
    is zero; and the frame parser accepts a payload exactly in that case,
    so the two checks agree. *)
Theorem validate_crc8_is_xor_zero (response : bytes) (now : Z) (tm : option Z)
    (chrx chtx : option Z) :
  Forall is_byte response -> response <> [] ->
  UnknownResponse.validate_crc8 response = Ok (xor_all response =? 0)
  /\ ((exists f, InverterPacketFragment.init now tm response chrx chtx = Ok f)
      <-> xor_all response = 0).
Proof.
  intros Hb Hne. destruct (exists_last Hne) as (body & trailer & ->).
  apply Forall_app in Hb. destruct Hb as [Hbody Ht].
  assert (Hx : (xor_all body =? trailer) = (xor_all (body ++ [trailer]) =? 0)).
  { rewrite xor_all_app. cbn [xor_all fold_right]. rewrite Z.lxor_0_r.
    destruct (Z.eqb_spec (xor_all body) trailer) as [->|Hneq].
    - rewrite Z.lxor_nilpotent. reflexivity.
    - symmetry. apply Z.eqb_neq. intros H. apply Hneq. apply Z.lxor_eq. exact H. }
  split.
  - unfold UnknownResponse.validate_crc8, last_n.
    rewrite length_app. cbn [length].
    replace (length body + 1 - 1)%nat with (length body) by lia.
    rewrite drop_app_length. cbn [unpack_B rbind]. rewrite but_last_snoc.
    rewrite (f_crc8_xor_all body Hbody), Hx. reflexivity.
  - unfold InverterPacketFragment.init. rewrite last_snoc, but_last_snoc.
    rewrite (f_crc8_xor_all body Hbody), Hx.
    destruct (Z.eqb_spec (xor_all (body ++ [trailer])) 0) as [Hz|Hnz]; cbn [negb].
    + split; [intros _; exact Hz | intros _; eexists; reflexivity].
    + split; [intros (f & Hf); discriminate Hf | intros Hz; contradiction].
Qed.

Lemma validate_crc8_is_xor_zero_witness :
  UnknownResponse.validate_crc8 log_rx1 = Ok (xor_all log_rx1 =? 0)
  /\ ((exists f, InverterPacketFragment.init 0 None log_rx1 None None = Ok f)
      <-> xor_all log_rx1 = 0).
Proof.
  apply (validate_crc8_is_xor_zero log_rx1 0 None None None).
  - repeat (apply List.Forall_cons; [unfold is_byte; lia|]). apply List.Forall_nil.
  - discriminate.
Defined.

(** * The frames of a request *)

Lemma chunk_length (payload : bytes) (n k : nat) :
  (length payload <= n * 16)%nat -> ((n - 1) * 16 < length payload)%nat -> (k < n)%nat ->
  length (chunk payload k)
  = if (S k =? n)%nat then (length payload - k * 16)%nat else 16%nat.
Proof.
  intros Hle Hgt Hk. unfold chunk, slice. rewrite length_take, length_drop.
  destruct (Nat.eqb_spec (S k) n); lia.
Qed.

Lemma lookup_map_seq {A} (f : nat -> A) (a n k : nat) :
  (k < n)%nat -> map f (seq a n) !! k = Some (f (a + k)%nat).
Proof.
  revert a k. induction n as [|n IH]; intros a k Hk; [lia|].
  destruct k as [|k]; cbn [seq map].
  - rewrite Nat.add_0_r. reflexivity.
  - cbn. rewrite IH by lia. f_equal. f_equal. lia.
Qed.

Lemma checksum_ok_snoc (packet : bytes) : checksum_ok (packet ++ [f_crc8 packet]) = true.
Proof. unfold checksum_ok. rewrite last_snoc, but_last_snoc. apply Z.eqb_refl. Qed.

(** X20: a request of up to 2030 bytes goes on air as
    [ceil((len + 2) / 16)] frames, the CRC included. Every frame but the
    last has 27 bytes, the last has between 12 and 27, so each fits the 32
    bytes of an nRF24 payload; byte 9 numbers the frames from 1, with
    [0x80] added on the last, and every frame ends in its checksum. *)
Theorem request_frames_fit_the_radio (p : bytes) (dtu_ser inverter_ser : serial)
    (rf : RequestFactory.t) :
  Forall is_byte p -> (length p <= 2030)%nat ->
  RequestFactory.init p (Some dtu_ser) (Some inverter_ser) None = Ok rf ->
  exists raws,
    compose rf = Ok raws
    /\ length raws = ((length p + 2 + 15) / 16)%nat
    /\ forall k, (k < (length p + 2 + 15) / 16)%nat ->
         exists raw,
           raws !! k = Some raw
           /\ length raw = (if (S k =? (length p + 2 + 15) / 16)%nat
                            then (length p + 2 - k * 16 + 11)%nat else 27%nat)
           /\ (12 <= length raw <= 27)%nat
           /\ raw !! 9%nat = Some (seq_byte ((length p + 2 + 15) / 16) k)
           /\ checksum_ok raw = true.
Proof.
  intros Hp Hlen Hinit.
  destruct (compose_closed p dtu_ser inverter_ser rf Hp Hlen Hinit)
    as (Hc & Ht & Hs & Hn & Hle).
  set (payload := p ++ [f_crc_m p / 256; f_crc_m p mod 256]) in *.
  assert (HL : length payload = (length p + 2)%nat).
  { subst payload. rewrite length_app. reflexivity. }
  rewrite HL in *.
  set (n := ((length p + 2 + 15) / 16)%nat) in *.
  assert (Hgt : ((n - 1) * 16 < length p + 2)%nat).
  { subst n. pose proof (Nat.div_mod_eq (length p + 2 + 15) 16) as Hd.
    pose proof (Nat.mod_upper_bound (length p + 2 + 15) 16 ltac:(lia)) as Hm. lia. }
  eexists. split; [exact Hc|]. split; [rewrite length_map, length_seq; reflexivity|].
  intros k Hk. eexists. split; [apply lookup_map_seq; exact Hk|]. cbn [Nat.add].
  assert (Hch : length (chunk payload k)
                = if (S k =? n)%nat then (length p + 2 - k * 16)%nat else 16%nat).
  { rewrite <- HL. apply chunk_length; rewrite ?HL; assumption. }
  assert (Hraw : length (fragment_raw (RequestFactory._target rf) (RequestFactory._source rf)
                           payload n k) = (length (chunk payload k) + 11)%nat).
  { unfold fragment_raw, fragment_packet. repeat rewrite length_app. rewrite Ht, Hs.
    cbn [length]. lia. }
  split; [rewrite Hraw, Hch; destruct (S k =? n)%nat; reflexivity|].
  split; [rewrite Hraw, Hch; destruct (Nat.eqb_spec (S k) n); lia|].
  split; [|apply checksum_ok_snoc].
  unfold fragment_raw, fragment_packet.
  destruct (RequestFactory._target rf) as [|t0 [|t1 [|t2 [|t3 [|t4 tr]]]]];
    cbn [length] in Ht; try lia.
  destruct (RequestFactory._source rf) as [|s0 [|s1 [|s2 [|s3 [|s4 sr]]]]];
    cbn [length] in Hs; try lia.
  reflexivity.
Qed.

Lemma request_frames_fit_the_radio_witness :
  exists raws,
    compose (RequestFactory.mk [0x15] [0x78; 0x56; 0x34; 0x12] [0x72; 0x22; 0x01; 0x43] []
               (slice 10 24 log_tx) 16) = Ok raws
    /\ length raws = ((length (slice 10 24 log_tx) + 2 + 15) / 16)%nat
    /\ forall k, (k < (length (slice 10 24 log_tx) + 2 + 15) / 16)%nat ->
         exists raw,
           raws !! k = Some raw
           /\ length raw = (if (S k =? (length (slice 10 24 log_tx) + 2 + 15) / 16)%nat
                            then (length (slice 10 24 log_tx) + 2 - k * 16 + 11)%nat
                            else 27%nat)
           /\ (12 <= length raw <= 27)%nat
           /\ raw !! 9%nat = Some (seq_byte ((length (slice 10 24 log_tx) + 2 + 15) / 16) k)
           /\ checksum_ok raw = true.
Proof.
  apply (request_frames_fit_the_radio (slice 10 24 log_tx) (SerInt 99978563412)
           (SerInt 114172220143)).
  - repeat (apply List.Forall_cons; [unfold is_byte; lia|]). apply List.Forall_nil.
  - cbn. lia.
  - vm_compute. reflexivity.
Defined.

(** * [ESBFrame.frombytes] *)

(** X21: [ESBFrame.frombytes] takes addresses and payload from any
    frame of at least ten bytes, whatever its checksum, which is never
    compared, and whatever its preamble, which [__init__] does not read:
    [bytes(ESBFrame.frombytes(data))] starts with [0x15], repeats the
    bytes between preamble and checksum, and ends in a checksum of its
    own. It gives back the frame exactly when the frame starts with
    [0x15] and carries a valid checksum; a reply, which starts with
    [0x95], comes back changed, and a bad checksum comes back repaired. *)
Theorem frombytes_restores_requests_only (data : bytes) :
  Forall is_byte data -> (10 <= length data)%nat ->
  exists f out,
    ESBFrame_frombytes data = Ok f
    /\ ESBFrame.to_bytes f = Ok out
    /\ length out = length data
    /\ out !! 0%nat = Some 0x15
    /\ slice 1 (length data - 1) out = slice 1 (length data - 1) data
    /\ checksum_ok out = true
    /\ (out = data <-> data !! 0%nat = Some 0x15 /\ checksum_ok data = true).
Proof.
  intros Hb Hlen.
  destruct data as [|b0 [|b1 [|b2 [|b3 [|b4 [|b5 [|b6 [|b7 [|b8 rest]]]]]]]]];
    cbn [length] in Hlen; try lia.
  assert (Hne : rest <> []) by (destruct rest; [cbn in Hlen; lia | discriminate]).
  destruct (exists_last Hne) as (mid & trailer & ->). clear Hne Hlen.
  change (b0 :: b1 :: b2 :: b3 :: b4 :: b5 :: b6 :: b7 :: b8 :: mid ++ [trailer])
    with ((b0 :: b1 :: b2 :: b3 :: b4 :: b5 :: b6 :: b7 :: b8 :: mid) ++ [trailer]) in *.
  set (f := ESBFrame.mk 4 [0x15] [b1; b2; b3; b4] [b5; b6; b7; b8] mid).
  assert (Hfrom : ESBFrame_frombytes
                    ((b0 :: b1 :: b2 :: b3 :: b4 :: b5 :: b6 :: b7 :: b8 :: mid) ++ [trailer])
                  = Ok f).
  { unfold ESBFrame_frombytes, slice_to_last. rewrite but_last_snoc. reflexivity. }
  assert (Hpacket : ESBFrame.packet f
                    = 0x15 :: b1 :: b2 :: b3 :: b4 :: b5 :: b6 :: b7 :: b8 :: mid)
    by reflexivity.
  clearbody f.
  remember (b1 :: b2 :: b3 :: b4 :: b5 :: b6 :: b7 :: b8 :: mid) as body eqn:Hbody_eq.
  clear Hbody_eq.
  assert (Hbb : Forall is_byte (b0 :: body)) by (apply Forall_app in Hb; apply Hb).
  assert (Hbody : Forall is_byte body) by (apply List.Forall_cons_iff in Hbb; apply Hbb).
  assert (H15 : Forall is_byte (0x15 :: body)).
  { apply List.Forall_cons; [unfold is_byte; lia | exact Hbody]. }
  pose proof (f_crc8_range _ H15) as Hrange.
  pose proof (f_crc8_xor_all _ H15) as Hx.
  pose proof (f_crc8_xor_all _ Hbb) as Hx0.
  exists f, ((0x15 :: body) ++ [f_crc8 (0x15 :: body)]).
  split; [exact Hfrom|].
  split.
  { unfold ESBFrame.to_bytes, ESBFrame.crc. rewrite Hpacket, (pack_B_ok _ Hrange).
    reflexivity. }
  split; [rewrite !length_app; reflexivity|].
  split; [reflexivity|].
  split.
  { unfold slice. rewrite length_app. cbn [length app drop].
    replace (S (length body) + 1 - 1 - 1)%nat with (length body) by lia.
    rewrite !drop_0, !take_app_length. reflexivity. }
  split; [apply checksum_ok_snoc|].
  unfold checksum_ok. rewrite last_snoc, but_last_snoc, Hx0, Hx.
  cbn [app lookup list_lookup]. split.
  - intros Heq. inversion Heq as [[H0 Htail]]. subst b0.
    split; [reflexivity|]. apply app_inj_tail in Htail. destruct Htail as [_ <-].
    apply Z.eqb_refl.
  - intros [H0 Hok]. inversion H0; subst b0. apply Z.eqb_eq in Hok. rewrite Hok.
    reflexivity.
Qed.

Lemma frombytes_restores_requests_only_witness :
  exists f out,
    ESBFrame_frombytes (take 26 log_tx ++ [0x00]) = Ok f
    /\ ESBFrame.to_bytes f = Ok out
    /\ length out = length (take 26 log_tx ++ [0x00])
    /\ out !! 0%nat = Some 0x15
    /\ slice 1 (length (take 26 log_tx ++ [0x00]) - 1) out
       = slice 1 (length (take 26 log_tx ++ [0x00]) - 1) (take 26 log_tx ++ [0x00])
    /\ checksum_ok out = true
    /\ (out = take 26 log_tx ++ [0x00]
        <-> (take 26 log_tx ++ [0x00]) !! 0%nat = Some 0x15
            /\ checksum_ok (take 26 log_tx ++ [0x00]) = true).
Proof.
  apply (frombytes_restores_requests_only (take 26 log_tx ++ [0x00])).
  - vm_compute. repeat constructor; discriminate.
  - cbn. lia.
Defined.

Example frombytes_repairs_checksum :
  (r <-! ESBFrame_frombytes (take 26 log_tx ++ [0x00]); ESBFrame.to_bytes r)%res = Ok log_tx.
Proof. vm_compute. reflexivity. Qed.

(** * The address of a serial number *)

Lemma digit_facts (d : nat) :
  (d <= 9)%nat ->
  is_space (digit d) = false
  /\ Ascii.eqb (digit d) "_" = false
  /\ Ascii.eqb (digit d) "-" = false
  /\ Ascii.eqb (digit d) "+" = false
  /\ Ascii.eqb (digit d) "x" = false
  /\ Ascii.eqb (digit d) "X" = false
  /\ hex_digit_val (digit d) = Some (Z.of_nat d).
Proof.
  intros Hd.
  do 10 (destruct d as [|d]; [vm_compute; repeat split; reflexivity|]). lia.
Qed.

Lemma list_ascii_of_string_app (s1 s2 : string) :
  list_ascii_of_string (String.append s1 s2)
  = list_ascii_of_string s1 ++ list_ascii_of_string s2.
Proof.
  induction s1 as [|c s1 IH]; [reflexivity|].
  simpl. f_equal. exact IH.
Qed.

Lemma py_int16_digits (d1 d2 d3 d4 d5 d6 d7 d8 : nat) :
  (d1 <= 9)%nat -> (d2 <= 9)%nat -> (d3 <= 9)%nat -> (d4 <= 9)%nat ->
  (d5 <= 9)%nat -> (d6 <= 9)%nat -> (d7 <= 9)%nat -> (d8 <= 9)%nat ->
  py_int16 (digits_string [d1; d2; d3; d4; d5; d6; d7; d8])
  = Ok (Z.of_nat (16 * d1 + d2) * 16777216 + Z.of_nat (16 * d3 + d4) * 65536
        + Z.of_nat (16 * d5 + d6) * 256 + Z.of_nat (16 * d7 + d8)).
Proof.
  intros H1 H2 H3 H4 H5 H6 H7 H8.
  destruct (digit_facts d1 H1) as (S1 & U1 & M1 & P1 & _ & _ & V1).
  destruct (digit_facts d2 H2) as (_ & U2 & _ & _ & X2 & Y2 & V2).
  destruct (digit_facts d3 H3) as (_ & U3 & _ & _ & _ & _ & V3).
  destruct (digit_facts d4 H4) as (_ & U4 & _ & _ & _ & _ & V4).
  destruct (digit_facts d5 H5) as (_ & U5 & _ & _ & _ & _ & V5).
  destruct (digit_facts d6 H6) as (_ & U6 & _ & _ & _ & _ & V6).
  destruct (digit_facts d7 H7) as (_ & U7 & _ & _ & _ & _ & V7).
  destruct (digit_facts d8 H8) as (S8 & U8 & _ & _ & _ & _ & V8).
  unfold py_int16, digits_string. rewrite list_ascii_of_string_of_list_ascii.
  cbn [map drop_spaces]. rewrite S1. cbn [rev app drop_spaces]. rewrite S8.
  cbn [rev app]. rewrite M1, P1, X2, Y2, andb_false_r.
  cbn [hex_digits]. rewrite U1, V1. cbn [hex_digits]. rewrite U2, V2.
  cbn [hex_digits]. rewrite U3, V3. cbn [hex_digits]. rewrite U4, V4.
  cbn [hex_digits]. rewrite U5, V5. cbn [hex_digits]. rewrite U6, V6.
  cbn [hex_digits]. rewrite U7, V7. cbn [hex_digits]. rewrite U8, V8.
  cbn [hex_digits]. f_equal. lia.
Qed.

(** X22: for a serial given as a string that ends in eight decimal
    digits, the address is the packed decimal of those digits, two per
    byte; whatever precedes them (the four digits that tell the model
    among them) does not enter the address. *)
Theorem ser_to_hm_addr_packs_last_eight_digits (lead : string)
    (d1 d2 d3 d4 d5 d6 d7 d8 : nat) :
  (d1 <= 9)%nat -> (d2 <= 9)%nat -> (d3 <= 9)%nat -> (d4 <= 9)%nat ->
  (d5 <= 9)%nat -> (d6 <= 9)%nat -> (d7 <= 9)%nat -> (d8 <= 9)%nat ->
  ser_to_hm_addr
    (SerStr (String.append lead (digits_string [d1; d2; d3; d4; d5; d6; d7; d8])))
  = Ok [Z.of_nat (16 * d1 + d2); Z.of_nat (16 * d3 + d4);
        Z.of_nat (16 * d5 + d6); Z.of_nat (16 * d7 + d8)].
Proof.
  intros H1 H2 H3 H4 H5 H6 H7 H8.
  unfold ser_to_hm_addr. cbn [py_str]. rewrite list_ascii_of_string_app.
  assert (Hl : length (list_ascii_of_string
                         (digits_string [d1; d2; d3; d4; d5; d6; d7; d8])) = 8%nat).
  { unfold digits_string. rewrite list_ascii_of_string_of_list_ascii. reflexivity. }
  unfold last_n. rewrite length_app, Hl.
  replace (length (list_ascii_of_string lead) + 8 - 8)%nat
    with (length (list_ascii_of_string lead)) by lia.
  rewrite drop_app_length, string_of_list_ascii_of_string.
  rewrite (py_int16_digits d1 d2 d3 d4 d5 d6 d7 d8) by assumption. cbn [rbind].
  set (z := _ + _ + _ + Z.of_nat (16 * d7 + d8)).
  assert (Hz : 0 <= z < 4294967296) by (subst z; lia).
  rewrite (proj1 (pack_L_ok z Hz)). f_equal.
  subst z. repeat f_equal; Z.div_mod_to_equations; lia.
Qed.

Lemma ser_to_hm_addr_packs_last_eight_digits_witness :
  ser_to_hm_addr
    (SerStr (String.append "1141" (digits_string [7; 2; 2; 2; 0; 1; 4; 3]%nat)))
  = Ok [Z.of_nat (16 * 7 + 2); Z.of_nat (16 * 2 + 2);
        Z.of_nat (16 * 0 + 1); Z.of_nat (16 * 4 + 3)].
Proof.
  apply (ser_to_hm_addr_packs_last_eight_digits "1141" 7 2 2 2 0 1 4 3); lia.
Defined.

(** * Retransmission makes progress *)

Lemma complete_or_first_missing (frames : list InverterPacketFragment.t) (n : Z) (m : nat)
    (i0 : Z) :
  (Z.to_nat (n - i0) <= m)%nat ->
  (forall j, 1 <= j < i0 -> first_with_seq j frames <> None) ->
  (forall j, 1 <= j < n -> first_with_seq j frames <> None)
  \/ exists k, i0 <= k < n
               /\ (forall j, 1 <= j < k -> first_with_seq j frames <> None)
               /\ first_with_seq k frames = None.
Proof.
  revert i0. induction m as [|m IH]; intros i0 Hm Hbefore.
  - left. intros j Hj. apply Hbefore. lia.
  - destruct (Z_lt_dec i0 n) as [Hlt|Hge].
    + destruct (first_with_seq i0 frames) as [f|] eqn:Hf.
      * destruct (IH (i0 + 1)) as [Hall|(k & Hk & Hkb & Hkm)]; [lia| |left; exact Hall|].
        -- intros j Hj.
           destruct (Z.eq_dec j i0) as [->|Hne]; [rewrite Hf; discriminate|].
           apply Hbefore. lia.
        -- right. exists k. split; [lia|]. split; [exact Hkb | exact Hkm].
      * right. exists i0. split; [lia|]. split; [exact Hbefore | exact Hf].
    + left. intros j Hj. apply Hbefore. lia.
Qed.

Lemma find_app_none {A} (p : A -> bool) (l l2 : list A) :
  find p l = None -> find p (l ++ l2) = find p l2.
Proof.
  induction l as [|x l IH]; [reflexivity|]. cbn [find app].
  destruct (p x); [discriminate | exact IH].
Qed.

Lemma get_payload_complete (self : InverterTransaction.t) (src : pyaddr) (w : World)
    (end_frame : InverterPacketFragment.t) (n : Z) :
  Forall has_header (scratch_of self w) ->
  terminal (from_src (effective_src self src) (scratch_of self w)) = Some end_frame ->
  seq_of end_frame = 0x80 + n ->
  (forall i, 1 <= i < n ->
     first_with_seq i (from_src (effective_src self src) (scratch_of self w)) <> None) ->
  forall m, fst (fst (InverterTransaction.get_payload self src w)) <> Raise (BufferError m).
Proof.
  intros Hh Hend Hseq Hall m.
  rewrite get_payload_unfold.
  set (frames := from_src (effective_src self src) (scratch_of self w)) in *.
  rewrite (filter_r_from_src _ _ Hh). fold frames.
  assert (Hfh : Forall has_header frames) by (apply from_src_header; exact Hh).
  rewrite (next_r_terminal _ Hfh), Hend.
  assert (Heh : has_header end_frame) by (eapply terminal_header; eauto).
  unfold with_end_frame.
  unfold mbind at 1, lift at 1. rewrite (header_seq _ Heh), Hseq.
  replace (128 + n - 128) with n by lia.
  unfold mbind at 1. rewrite rebuild_found; [|exact Hfh|].
  - unfold mbind at 1, lift at 1.
    destruct (unpack_H _) as [pcrc|e] eqn:Hu.
    + destruct (negb _).
      * cbn. discriminate.
      * unfold mbind, lift, mret. rewrite (header_main_cmd _ Heh). cbn. discriminate.
    + cbn. unfold unpack_H in Hu.
      destruct (last_n 2 _) as [|x1 [|x0 [|x r]]]; inversion Hu; discriminate.
  - apply List.Forall_forall. intros i Hi. apply z_range_In in Hi. apply Hall. exact Hi.
Qed.

(** X23: retransmission makes progress. When [get_payload] has asked
    for fragment [i], the first one missing, and a fragment numbered [i]
    from the source is then appended to the scratch, the next call does
    not ask for [i] or an earlier fragment again: it returns, fails the
    CRC check, or asks for a later fragment. *)
Theorem retransmitted_fragment_is_not_requested_again (self : InverterTransaction.t)
    (src : pyaddr) (w : World) (end_frame f : InverterPacketFragment.t) (n i : Z)
    (inverter_hm dtu_hm : bytes) :
  Forall has_header (scratch_of self w) ->
  terminal (from_src (effective_src self src) (scratch_of self w)) = Some end_frame ->
  seq_of end_frame = 0x80 + n ->
  1 <= i < n -> n <= 128 ->
  (forall j, 1 <= j < i ->
     first_with_seq j (from_src (effective_src self src) (scratch_of self w)) <> None) ->
  first_with_seq i (from_src (effective_src self src) (scratch_of self w)) = None ->
  InverterTransaction.radio self = true ->
  ser_to_hm_addr (InverterTransaction.inverter_ser self) = Ok inverter_hm ->
  ser_to_hm_addr (InverterTransaction.dtu_ser self) = Ok dtu_hm ->
  has_header f -> int_eq (src_of f) (effective_src self src) = true -> seq_of f = i ->
  let self1 := InverterTransaction.set_time_rx (InverterPacketFragment.time_rx end_frame) self in
  let w1 := set_tx_queue (tx_queue w ++ [retransmit_request inverter_hm dtu_hm i]) w in
  InverterTransaction.get_payload self src w
  = (Raise (BufferError (FrameMissing i)), self1, w1)
  /\ forall j, j <= i ->
       fst (fst (InverterTransaction.get_payload self1 src
                   (snd (InverterTransaction.frame_append self1 f w1))))
       <> Raise (BufferError (FrameMissing j)).
Proof.
  intros Hh Hend Hseq Hi Hn Hbefore Hmiss Hradio Hinv Hdtu Hf Hsrc Hfi self1 w1.
  split.
  { exact (get_payload_requests_missing self src w end_frame n i inverter_hm dtu_hm
             Hh Hend Hseq Hi Hn Hbefore Hmiss Hradio Hinv Hdtu). }
  set (w2 := snd (InverterTransaction.frame_append self1 f w1)).
  assert (Hs2 : scratch_of self1 w2 = scratch_of self w ++ [f]).
  { subst w2. destruct (frame_append_scratch self1 f w1) as [-> _]. reflexivity. }
  set (frames := from_src (effective_src self src) (scratch_of self w)) in *.
  assert (Hf2 : from_src (effective_src self1 src) (scratch_of self1 w2) = frames ++ [f]).
  { rewrite Hs2, from_src_app.
    change (effective_src self1 src) with (effective_src self src). rewrite Hsrc.
    reflexivity. }
  assert (Hh2 : Forall has_header (scratch_of self1 w2)).
  { rewrite Hs2. apply Forall_app_2; [exact Hh|]. apply List.Forall_cons; [exact Hf|].
    apply List.Forall_nil. }
  assert (Hend2 : terminal (from_src (effective_src self1 src) (scratch_of self1 w2))
                  = Some end_frame).
  { rewrite Hf2. apply find_app_some. exact Hend. }
  assert (Hpresent : forall j, 1 <= j < i + 1 ->
            first_with_seq j (from_src (effective_src self1 src) (scratch_of self1 w2))
            <> None).
  { intros j Hj. rewrite Hf2. destruct (Z.eq_dec j i) as [->|Hne].
    - unfold first_with_seq. rewrite find_app_none.
      + cbn [find]. rewrite Hfi, Z.eqb_refl. discriminate.
      + exact Hmiss.
    - assert (Hj' : 1 <= j < i) by lia. specialize (Hbefore j Hj').
      destruct (first_with_seq j frames) as [g|] eqn:Hg; [|contradiction].
      unfold first_with_seq in *. rewrite (find_app_some _ _ _ _ Hg). discriminate. }
  intros j Hj.
  destruct (complete_or_first_missing
              (from_src (effective_src self1 src) (scratch_of self1 w2)) n
              (Z.to_nat (n - (i + 1))) (i + 1) (Nat.le_refl _) Hpresent)
    as [Hall|(k & Hk & Hkb & Hkm)].
  - apply (get_payload_complete self1 src w2 end_frame n Hh2 Hend2 Hseq Hall).
  - rewrite (get_payload_requests_missing self1 src w2 end_frame n k inverter_hm dtu_hm
               Hh2 Hend2 Hseq ltac:(lia) Hn Hkb Hkm Hradio Hinv Hdtu).
    cbn [fst]. intros Heq. inversion Heq. lia.
Qed.

Lemma retransmitted_fragment_is_not_requested_again_witness :
  let self1 := InverterTransaction.set_time_rx
                 (InverterPacketFragment.time_rx (fragment_of log_rx3)) log_transaction in
  let w1 := set_tx_queue
              (tx_queue (world_with [fragment_of log_rx1; fragment_of log_rx3])
               ++ [retransmit_request [0x72; 0x22; 0x01; 0x43] [0x78; 0x56; 0x34; 0x12] 2])
              (world_with [fragment_of log_rx1; fragment_of log_rx3]) in
  InverterTransaction.get_payload log_transaction ANone
    (world_with [fragment_of log_rx1; fragment_of log_rx3])
  = (Raise (BufferError (FrameMissing 2)), self1, w1)
  /\ forall j, j <= 2 ->
       fst (fst (InverterTransaction.get_payload self1 ANone
                   (snd (InverterTransaction.frame_append self1 (fragment_of log_rx2) w1))))
       <> Raise (BufferError (FrameMissing j)).
Proof.
  apply (retransmitted_fragment_is_not_requested_again log_transaction ANone
           (world_with [fragment_of log_rx1; fragment_of log_rx3])
           (fragment_of log_rx3) (fragment_of log_rx2) 3 2
           [0x72; 0x22; 0x01; 0x43] [0x78; 0x56; 0x34; 0x12]).
  - repeat (apply List.Forall_cons; [unfold has_header; cbn; lia|]). apply List.Forall_nil.
  - vm_compute. reflexivity.
  - vm_compute. reflexivity.
  - lia.
  - lia.
  - intros j Hj. assert (Hj1 : j = 1) by lia. subst j. vm_compute. discriminate.
  - vm_compute. reflexivity.
  - reflexivity.
  - vm_compute. reflexivity.
  - vm_compute. reflexivity.
  - unfold has_header. cbn. lia.
  - vm_compute. reflexivity.
  - vm_compute. reflexivity.
Defined.

(** * The frame [scan.py] puts on air *)

Lemma lxor_absorbs (x t : Z) : Z.lxor x t = t <-> x = 0.
Proof.
  split.
  - intros H. apply (f_equal (fun y => Z.lxor y t)) in H.
    rewrite Z.lxor_assoc, Z.lxor_nilpotent, Z.lxor_0_r in H. exact H.
  - intros ->. apply Z.lxor_0_l.
Qed.

(** X25: [rxtx] of [scan.py] clears the four bytes of the inverter
    address in the request but leaves the trailer as it was composed, so
    the frame it transmits ends in a stale checksum: it carries a valid
    one only when the exclusive-or of the four address bytes is zero. *)
Theorem scan_probe_has_stale_checksum (fragment rest : bytes) (m sq : Z) (src dst : serial)
    (request a_dst : bytes) :
  Forall is_byte fragment -> is_byte m -> is_byte sq -> Forall is_byte rest ->
  compose_esb_fragment fragment [m] (sq :: rest) src dst = Ok request ->
  ser_to_hm_addr dst = Ok a_dst ->
  exists sent,
    Scan.transmitted request = Ok sent
    /\ take 1 sent = take 1 request
    /\ slice 1 5 sent = [0; 0; 0; 0]
    /\ drop 5 sent = drop 5 request
    /\ checksum_ok request = true
    /\ checksum_ok sent = (xor_all a_dst =? 0).
Proof.
  intros Hf Hm Hsq Hrest Hreq Hdst.
  assert (Hlen : (length fragment <= 17)%nat).
  { unfold compose_esb_fragment in Hreq.
    destruct (Nat.ltb_spec 17 (length fragment)); [discriminate Hreq | lia]. }
  destruct (ser_to_hm_addr src) as [a_src|e] eqn:Hsrc.
  2:{ unfold compose_esb_fragment in Hreq. rewrite Hdst, Hsrc in Hreq.
      destruct (17 <? length fragment)%nat; discriminate Hreq. }
  assert (Hmb : Forall is_byte [m]) by (constructor; [exact Hm | constructor]).
  assert (Hsb : Forall is_byte (sq :: rest)) by (constructor; assumption).
  rewrite (compose_esb_fragment_ok fragment [m] (sq :: rest) src dst a_src a_dst
             Hlen Hf Hmb Hsb Hdst Hsrc) in Hreq.
  destruct (ser_to_hm_addr_bytes _ _ Hdst) as [Hl4 Hb4].
  destruct (ser_to_hm_addr_bytes _ _ Hsrc) as [_ Hbs].
  destruct a_dst as [|t0 [|t1 [|t2 [|t3 [|t4 tr]]]]]; cbn [length] in Hl4; try lia.
  assert (Htail : Forall is_byte (a_src ++ (sq :: rest) ++ fragment)).
  { repeat apply Forall_app_2; assumption. }
  remember (a_src ++ (sq :: rest) ++ fragment) as tail eqn:Htl. clear Htl.
  cbn [app] in Hreq.
  assert (Hpkt : Forall is_byte (m :: t0 :: t1 :: t2 :: t3 :: tail)).
  { constructor; [exact Hm|]. apply (Forall_app_2 _ [t0; t1; t2; t3] tail); assumption. }
  rewrite (f_crc8_xor_all _ Hpkt) in Hreq.
  remember (xor_all (m :: t0 :: t1 :: t2 :: t3 :: tail)) as c eqn:Hc.
  inversion Hreq as [Hrq]. clear Hreq. subst request.
  assert (Hzero : Forall is_byte (m :: 0 :: 0 :: 0 :: 0 :: tail)).
  { constructor; [exact Hm|].
    repeat (constructor; [unfold is_byte; lia|]). exact Htail. }
  exists ((m :: 0 :: 0 :: 0 :: 0 :: tail) ++ [c]).
  split; [reflexivity|]. split; [reflexivity|]. split; [reflexivity|].
  split; [reflexivity|].
  split.
  - change (checksum_ok ((m :: t0 :: t1 :: t2 :: t3 :: tail) ++ [c]) = true).
    unfold checksum_ok. rewrite last_snoc, but_last_snoc, (f_crc8_xor_all _ Hpkt), Hc.
    apply Z.eqb_refl.
  - unfold checksum_ok. rewrite last_snoc, but_last_snoc, (f_crc8_xor_all _ Hzero), Hc.
    cbn [xor_all fold_right]. fold (xor_all tail).
    rewrite !Z.lxor_0_l, Z.lxor_0_r.
    destruct (Z.eqb_spec (Z.lxor t0 (Z.lxor t1 (Z.lxor t2 t3))) 0) as [Hz|Hnz].
    + apply Z.eqb_eq. f_equal. symmetry.
      rewrite <- (Z.lxor_assoc t2), <- (Z.lxor_assoc t1), <- (Z.lxor_assoc t0).
      apply lxor_absorbs. exact Hz.
    + apply Z.eqb_neq. intros Heq. apply Hnz.
      apply lxor_cancel_l in Heq.
      rewrite <- (Z.lxor_assoc t2), <- (Z.lxor_assoc t1), <- (Z.lxor_assoc t0) in Heq.
      symmetry in Heq. apply lxor_absorbs in Heq. exact Heq.
Qed.

Lemma scan_probe_has_stale_checksum_witness :
  exists sent,
    Scan.transmitted log_tx = Ok sent
    /\ take 1 sent = take 1 log_tx
    /\ slice 1 5 sent = [0; 0; 0; 0]
    /\ drop 5 sent = drop 5 log_tx
    /\ checksum_ok log_tx = true
    /\ checksum_ok sent = (xor_all [0x72; 0x22; 0x01; 0x43] =? 0).
Proof.
  apply (scan_probe_has_stale_checksum (slice 10 26 log_tx) [] 0x15 0x80
           (SerInt 99978563412) (SerInt 114172220143) log_tx [0x72; 0x22; 0x01; 0x43]).
  - repeat (apply List.Forall_cons; [unfold is_byte; lia|]). apply List.Forall_nil.
  - unfold is_byte. lia.
  - unfold is_byte. lia.
  - apply List.Forall_nil.
  - vm_compute. reflexivity.
  - vm_compute. reflexivity.
Defined.

(** * The status decoder reads fixed offsets *)

Lemma slice_app_within {A} (a b : nat) (l rest : list A) :
  (b <= length l)%nat -> slice a b (l ++ rest) = slice a b l.
Proof.
  intros Hb. unfold slice. destruct (Nat.le_gt_cases a b) as [Hab|Hab].
  - rewrite drop_app_le by lia. apply take_app_le. rewrite length_drop. lia.
  - replace (b - a)%nat with 0%nat by lia. reflexivity.
Qed.

Lemma unpack_H_at_within (response rest : bytes) (base : nat) :
  (base + 2 <= length response)%nat ->
  StatusResponse.unpack_H_at (response ++ rest) base = StatusResponse.unpack_H_at response base
  /\ exists v, StatusResponse.unpack_H_at response base = Ok v.
Proof.
  intros Hb. unfold StatusResponse.unpack_H_at. rewrite slice_app_within by exact Hb.
  split; [reflexivity|]. unfold slice. replace (base + 2 - base)%nat with 2%nat by lia.
  assert (Hd : (2 <= length (drop base response))%nat) by (rewrite length_drop; lia).
  destruct (drop base response) as [|x1 [|x0 r]]; cbn [length] in Hd; try lia.
  eexists. reflexivity.
Qed.

Lemma unpack_L_at_within (response rest : bytes) (base : nat) :
  (base + 4 <= length response)%nat ->
  StatusResponse.unpack_L_at (response ++ rest) base = StatusResponse.unpack_L_at response base
  /\ exists v, StatusResponse.unpack_L_at response base = Ok v.
Proof.
  intros Hb. unfold StatusResponse.unpack_L_at. rewrite slice_app_within by exact Hb.
  split; [reflexivity|]. unfold slice. replace (base + 4 - base)%nat with 4%nat by lia.
  assert (Hd : (4 <= length (drop base response))%nat) by (rewrite length_drop; lia).
  destruct (drop base response) as [|x3 [|x2 [|x1 [|x0 r]]]]; cbn [length] in Hd; try lia.
  eexists. reflexivity.
Qed.

Lemma scaled_within (response rest : bytes) (base : nat) (scale : Z) :
  (base + 2 <= length response)%nat ->
  (v <-! StatusResponse.unpack_H_at (response ++ rest) base; Ok (py_truediv v scale))%res
  = (v <-! StatusResponse.unpack_H_at response base; Ok (py_truediv v scale))%res
  /\ exists x, (v <-! StatusResponse.unpack_H_at response base; Ok (py_truediv v scale))%res
               = Ok x.
Proof.
  intros Hb. destruct (unpack_H_at_within response rest base Hb) as [-> (v & ->)].
  split; [reflexivity|]. eexists. reflexivity.
Qed.

(** X24: on a response of at least 42 bytes every property of
    [Hm600Decode0B] returns a value, and none depends on what follows
    byte 41: the two CRC bytes that [get_payload] leaves on the payload,
    or any other tail, change nothing in the decoded status. *)
Theorem hm600_status_ignores_the_tail (response rest : bytes) :
  (42 <= length response)%nat ->
  Forall (fun property => property (response ++ rest) = property response
                          /\ exists v, property response = Ok v) hm600_float_properties
  /\ Forall (fun property => property (response ++ rest) = property response
                             /\ exists v, property response = Ok v) hm600_int_properties.
Proof.
  intros Hlen. split.
  - unfold hm600_float_properties.
    repeat (apply List.Forall_cons; [apply scaled_within; lia|]). apply List.Forall_nil.
  - unfold hm600_int_properties.
    repeat (apply List.Forall_cons;
            [first [apply unpack_H_at_within; lia | apply unpack_L_at_within; lia]|]).
    apply List.Forall_nil.
Qed.

Lemma hm600_status_ignores_the_tail_witness :
  Forall (fun property => property (log_status_payload ++ [0x0c; 0x35])
                          = property log_status_payload
                          /\ exists v, property log_status_payload = Ok v)
         hm600_float_properties
  /\ Forall (fun property => property (log_status_payload ++ [0x0c; 0x35])
                             = property log_status_payload
                             /\ exists v, property log_status_payload = Ok v)
            hm600_int_properties.
Proof.
  apply (hm600_status_ignores_the_tail log_status_payload [0x0c; 0x35]).
  cbn. lia.
Defined.

(** * The commands that have a decoder *)

Lemma byte_enum (f : Z -> bool) :
  forallb f (z_range 0 256) = true -> forall r, 0 <= r < 256 -> f r = true.
Proof.
  intros Hall r Hr. apply (proj1 (List.forallb_forall f (z_range 0 256)) Hall).
  apply z_range_In. exact Hr.
Qed.

Lemma inverter_model_known (ser : serial) (model : string) :
  ResponseDecoderFactory.inverter_model ser = Ok model ->
  model = "Hm300"%string \/ model = "Hm600"%string \/ model = "Hm1200"%string.
Proof.
  unfold ResponseDecoderFactory.inverter_model.
  destruct (negb (ser_truthy ser)); [discriminate|].
  destruct (ResponseDecoderFactory.lookup_model _ _) as [m|] eqn:Hl; [|discriminate].
  destruct (lookup_model_ser_db _ _ Hl) as [->|[->| ->]]; cbn; intros H; inversion H; auto.
Qed.

Lemma decoder_class_exists (model : string) (r_code : Z) :
  model = "Hm300"%string \/ model = "Hm600"%string \/ model = "Hm1200"%string ->
  0 <= r_code < 256 ->
  existsb (String.eqb (String.append model
                         (String.append "Decode"
                            (ResponseDecoder.upper (ResponseDecoder.format_02x r_code)))))
          ResponseDecoder.decoder_classes
  = existsb (Z.eqb r_code) [0x02; 0x0b; 0x11; 0x12].
Proof.
  intros Hm Hr. apply Bool.eqb_prop.
  revert r_code Hr.
  destruct Hm as [->|[->| ->]];
    apply (byte_enum (fun r => Bool.eqb (existsb (String.eqb _) _) (existsb (Z.eqb r) _)));
    vm_compute; reflexivity.
Qed.

(** X26: [decode] builds the class name from the model and the
    request type, byte 10 of the request, in upper-case hexadecimal. A
    class of that name exists for the request types [0x02], [0x0b], [0x11]
    and [0x12] only; for every other type [device] stays unbound unless
    debug logging is on, when [DebugDecodeAny] is taken. *)
Theorem decode_knows_four_request_types (inverter_ser : serial) (model : string)
    (request : bytes) (r_code : Z) (debug_logging : bool) :
  ResponseDecoderFactory.inverter_model inverter_ser = Ok model ->
  request !! 10%nat = Some r_code -> 0 <= r_code < 256 ->
  ResponseDecoder.device debug_logging inverter_ser (Some request)
  = Ok (if existsb (Z.eqb r_code) [0x02; 0x0b; 0x11; 0x12]
        then ResponseDecoder.Bound
               (String.append model
                  (String.append "Decode"
                     (ResponseDecoder.upper (ResponseDecoder.format_02x r_code))))
        else if debug_logging then ResponseDecoder.Bound "DebugDecodeAny"
             else ResponseDecoder.Unbound).
Proof.
  intros Hmodel Hreq Hr.
  unfold ResponseDecoder.device, ResponseDecoder.request_command.
  rewrite Hmodel, Hreq. cbn [rbind].
  rewrite (decoder_class_exists model r_code (inverter_model_known _ _ Hmodel) Hr).
  destruct (existsb (Z.eqb r_code) _), debug_logging; reflexivity.
Qed.

Lemma decode_knows_four_request_types_witness :
  ResponseDecoder.device false (SerInt 114172220143) (Some log_tx)
  = Ok (if existsb (Z.eqb 0x0b) [0x02; 0x0b; 0x11; 0x12]
        then ResponseDecoder.Bound
               (String.append "Hm600"
                  (String.append "Decode"
                     (ResponseDecoder.upper (ResponseDecoder.format_02x 0x0b))))
        else if false then ResponseDecoder.Bound "DebugDecodeAny"
             else ResponseDecoder.Unbound).
Proof.
  apply (decode_knows_four_request_types (SerInt 114172220143) "Hm600" log_tx 0x0b false).
  - vm_compute. reflexivity.
  - reflexivity.
  - lia.
Defined.

Example decode_status_request :
  ResponseDecoder.device false (SerInt 114172220143) (Some log_tx)
  = Ok (ResponseDecoder.Bound "Hm600Decode0B").
Proof. vm_compute. reflexivity. Qed.
